(** * NeMo components: a shallow embedding and its properties

The development follows five source files of the repository:

- [nemo/collections/asr/parts/submodules/stream_wrapper.py]
  (module [StreamWrapper]);
- [examples/nlp/machine_translation/punctuation_infer/punctuate_capitalize_nmt.py]
  (module [Punctuate]);
- [nemo_text_processing/text_normalization/verbalizers/punctuation.py]
  (modules [Pynini], [GraphUtils] and [PunctuationFst]);
- [nemo/collections/asr/models/tsvad_models.py]
  (modules [ClusterEmbedding] and [EncDecDiarLabelModel]);
- [nemo/collections/nlp/modules/common/prompt_table.py]
  (module [PromptTable]).

Part I holds the definitions, translated function by function from the
Python sources, with Python's exceptions as an error monad and its
dictionaries as finite maps. Part II holds the statements proved about
them. *)

From Stdlib Require Import ZArith QArith Ascii String List Lia.
From stdpp Require Import gmap strings list sorting.

Close Scope Q_scope.
Open Scope Z_scope.

(* ===================================================================== *)
(** * Part I: the embedding                                               *)
(* ===================================================================== *)

(** ** Python values shared by all modules *)

Module Py.

(** The exceptions the modelled code can raise. *)
Inductive exn : Set :=
| ValueError
| TypeError
| AttributeError
| NameError
| KeyError
| IndexError
| RuntimeError
| ZeroDivisionError
| AssertionError
| StatisticsError
| DebuggerTrap.

(** A call either returns a value or raises. *)
Inductive result (A : Type) : Type :=
| Ok (a : A)
| Raise (e : exn).
Arguments Ok {A} a.
Arguments Raise {A} e.

Definition bind {A B} (r : result A) (k : A -> result B) : result B :=
  match r with
  | Ok a => k a
  | Raise e => Raise e
  end.

(** [d[k]] on a dictionary: [KeyError] when the key is absent. *)
Definition getitem `{Countable K} {V} (d : gmap K V) (k : K) : result V :=
  match d !! k with
  | Some v => Ok v
  | None => Raise KeyError
  end.

(** [xs[i]] on a list, for a non-negative index. *)
Definition index {A} (xs : list A) (i : nat) : result A :=
  match xs !! i with
  | Some x => Ok x
  | None => Raise IndexError
  end.

(** [for x in xs: body], threading an accumulator and stopping at the
    first exception. *)
Fixpoint for_each {A S} (xs : list A) (body : A -> S -> result S) (s : S)
  : result S :=
  match xs with
  | [] => Ok s
  | x :: xs' => bind (body x s) (for_each xs' body)
  end.

(** [sorted(xs, key=key)]: Python's sort is stable, and so is this
    insertion sort: an element goes in front of the first element whose
    key is not smaller, and the elements are inserted from the right. *)
Fixpoint insert_by {A K} (leb : K -> K -> bool) (key : A -> K) (x : A)
         (l : list A) : list A :=
  match l with
  | [] => [x]
  | y :: l' =>
      if leb (key x) (key y) then x :: y :: l'
      else y :: insert_by leb key x l'
  end.

Definition sorted {A K} (leb : K -> K -> bool) (key : A -> K) (l : list A)
  : list A :=
  foldr (insert_by leb key) [] l.

(** The ASCII characters [str.split()] treats as white space. *)
Definition is_space (c : ascii) : bool :=
  let n := nat_of_ascii c in
  ((9 <=? n) && (n <=? 13) || (28 <=? n) && (n <=? 32))%nat.

(** [s.split()]: the maximal runs of characters that are not white space.
    [cur] is the run being read. *)
Fixpoint split_from (cur : string) (s : string) : list string :=
  match s with
  | EmptyString => if decide (cur = EmptyString) then [] else [cur]
  | String c s' =>
      if is_space c
      then (if decide (cur = EmptyString) then split_from EmptyString s'
            else cur :: split_from EmptyString s')
      else split_from (cur +:+ String c EmptyString) s'
  end.

Definition split (s : string) : list string := split_from EmptyString s.

(** [sep.join(words)] *)
Definition join (sep : string) (words : list string) : string :=
  String.concat sep words.

(** [xs[lo:hi]] for non-negative bounds. *)
Definition slice {A} (xs : list A) (lo hi : nat) : list A :=
  take (hi - lo) (drop lo xs).

(** [statistics.mode(data)] (Python 3.8 and later): the first value met
    among those that occur most often; [StatisticsError] on empty data. *)
Definition count_of (x : Z) (data : list Z) : nat :=
  length (filter (fun y => y = x) data).

Definition mode (data : list Z) : result Z :=
  match data with
  | [] => Raise StatisticsError
  | x :: rest =>
      Ok (foldl (fun best y =>
                   if (count_of best data <? count_of y data)%nat then y
                   else best) x rest)
  end.

(** [arr == v] on an array: the mask of the positions that hold [v]. *)
Definition eq_mask (arr : list Z) (v : Z) : list bool :=
  (fun x => bool_decide (x = v)) <$> arr.

(** [xs[mask]], indexing by a boolean mask: the mask has to be as long as
    the array. *)
Definition mask_select {A} (xs : list A) (mask : list bool)
  : result (list A) :=
  if (length mask =? length xs)%nat
  then Ok (fst <$> filter (fun xm => snd xm = true) (zip xs mask))
  else Raise IndexError.

(** [d[k1][k2] = v] on a dictionary of dictionaries. *)
Definition setitem2 `{Countable K1} `{Countable K2} {V}
           (d : gmap K1 (gmap K2 V)) (k1 : K1) (k2 : K2) (v : V)
  : result (gmap K1 (gmap K2 V)) :=
  match d !! k1 with
  | Some inner => Ok (<[k1 := <[k2 := v]> inner]> d)
  | None => Raise KeyError
  end.

End Py.

#[global] Instance result_bind : MBind Py.result :=
  fun A B k r => Py.bind r k.
#[global] Instance result_ret : MRet Py.result := @Py.Ok.

(** ** stream_wrapper.py *)

Module StreamWrapper.

Import Py.

Inductive StreamInferenceMode : Set :=
| TRAINING
| STREAM_INTERNAL_STATE_INFERENCE
| STREAM_EXTERNAL_STATE_INFERENCE
| NON_STREAM_INFERENCE.

Section Wrapper.
(** Tensor entries with the two operations of the state update
    [self.states * 0 + memory], and the type of what the wrapped layer
    returns. *)
Variable R : Type.
Variable mul_zero : R -> R.
Variable add : R -> R -> R.
Variable Out : Type.

(** A tensor indexed [batch, time, feature]: its three sizes and its
    entries. Entries outside the sizes are not part of the tensor. *)
Record Tensor : Type := {
  batch : nat;
  time : nat;
  feat : nat;
  at_ : nat -> nat -> nat -> R
}.

(** [t[:, lo:hi, :]] for non-negative bounds; [hi = None] is an open
    slice. *)
Definition slice_time (t : Tensor) (lo : nat) (hi : option nat) : Tensor :=
  let hi := match hi with Some h => Nat.min h (time t) | None => time t end in
  {| batch := batch t;
     time := (hi - lo)%nat;
     feat := feat t;
     at_ := fun b i f => at_ t b (i + lo)%nat f |}.

(** [torch.cat([x, y], dim=1)]: the other two sizes have to agree. *)
Definition cat_time (x y : Tensor) : result Tensor :=
  if ((batch x =? batch y) && (feat x =? feat y))%nat
  then Ok {| batch := batch x;
             time := (time x + time y)%nat;
             feat := feat x;
             at_ := fun b i f =>
                      if (i <? time x)%nat then at_ x b i f
                      else at_ y b (i - time x)%nat f |}
  else Raise RuntimeError.

(** [t * 0] *)
Definition times_zero (t : Tensor) : Tensor :=
  {| batch := batch t; time := time t; feat := feat t;
     at_ := fun b i f => mul_zero (at_ t b i f) |}.

(** Broadcasting of one dimension: equal sizes, or one of them 1. *)
Definition broadcast (n m : nat) : result nat :=
  if (n =? m)%nat then Ok n
  else if (n =? 1)%nat then Ok m
  else if (m =? 1)%nat then Ok n
  else Raise RuntimeError.

(** The index read in a dimension of size [n] that may be broadcast. *)
Definition pick (n i : nat) : nat := if (n =? 1)%nat then 0%nat else i.

(** [x + y], with broadcasting. *)
Definition plus (x y : Tensor) : result Tensor :=
  b ← broadcast (batch x) (batch y);
  t ← broadcast (time x) (time y);
  f ← broadcast (feat x) (feat y);
  Ok {| batch := b; time := t; feat := f;
        at_ := fun ib it if_ =>
                 add (at_ x (pick (batch x) ib) (pick (time x) it)
                            (pick (feat x) if_))
                     (at_ y (pick (batch y) ib) (pick (time y) it)
                            (pick (feat y) if_)) |}.

(** A value that can be called on the positional arguments of [forward]:
    a tensor first, then the remaining ones. *)
Definition Callable : Type := Tensor -> list Tensor -> result Out.

(** The attributes [__init__] and [_build_states] assign. [states],
    [input_state] and [output_state] are [None] as long as they have not
    been assigned. *)
Record StreamWrapper : Type := {
  inner_module : Callable;
  inference_batch_size : nat;
  mode : StreamInferenceMode;
  pad_time_dim : option string;
  state_shape : option (list nat);
  ring_buffer_size_in_time_dim : option nat;
  samplewise_inference : bool;
  stride : nat;
  built : bool;
  states : option Tensor;
  input_state : option Tensor;
  output_state : option Tensor
}.

Definition set_states (self : StreamWrapper) (t : Tensor) : StreamWrapper :=
  {| inner_module := inner_module self;
     inference_batch_size := inference_batch_size self;
     mode := mode self;
     pad_time_dim := pad_time_dim self;
     state_shape := state_shape self;
     ring_buffer_size_in_time_dim := ring_buffer_size_in_time_dim self;
     samplewise_inference := samplewise_inference self;
     stride := stride self;
     built := built self;
     states := Some t;
     input_state := input_state self;
     output_state := output_state self |}.

(** The names under which the class stores something on the object. *)
Definition attribute_names : list string :=
  ["inner_module"; "inference_batch_size"; "mode"; "pad_time_dim";
   "state_shape"; "ring_buffer_size_in_time_dim"; "samplewise_inference";
   "stride"; "built"; "states"; "input_state"; "output_state"]%string.

(** [self.<name>(...)]: reading the attribute, to call it. The wrapped
    layer is stored as [inner_module]; the other attributes are not
    callable; a name that was never assigned is an [AttributeError]. *)
Definition getattr_callable (self : StreamWrapper) (name : string)
  : result Callable :=
  if decide (name = "inner_module"%string) then Ok (inner_module self)
  else if bool_decide (name ∈ attribute_names) then Raise TypeError
  else Raise AttributeError.

(** [self.states], read. *)
Definition getattr_states (self : StreamWrapper) : result Tensor :=
  match states self with
  | Some t => Ok t
  | None => Raise AttributeError
  end.

(** The outcome of a method: the object after the call, and what the call
    returned or raised. *)
Definition outcome : Type := StreamWrapper * result Out.

(** [_streaming_internal_state], called on the positional arguments
    [inputs]. *)
Definition _streaming_internal_state (self : StreamWrapper)
           (inputs : list Tensor) : outcome :=
  if samplewise_inference self then
    match inputs with
    | [] => (self, Raise IndexError)
    | input :: rest =>
        if negb (time input =? 1)%nat then (self, Raise ValueError)
        else
          match
            (states0 ← getattr_states self;
             let memory :=
               slice_time states0 1 (ring_buffer_size_in_time_dim self) in
             memory ← cat_time memory input;
             new_states ← plus (times_zero states0) memory;
             Ok (memory, new_states))
          with
          | Raise e => (self, Raise e)
          | Ok (memory, new_states) =>
              let self := set_states self new_states in
              (self, cell ← getattr_callable self "cell"; cell memory rest)
          end
    end
  else
    match ring_buffer_size_in_time_dim self with
    | Some (S _ as size) =>
        match inputs with
        | [] => (self, Raise IndexError)
        | input :: rest =>
            match
              (states0 ← getattr_states self;
               memory ← cat_time states0 input;
               let state_update :=
                 slice_time memory (time memory - size) None in
               new_states ← plus (times_zero states0) state_update;
               Ok (state_update, new_states))
            with
            | Raise e => (self, Raise e)
            | Ok (state_update, new_states) =>
                let self := set_states self new_states in
                (self,
                 cell ← getattr_callable self "cell"; cell state_update rest)
            end
        end
    | _ =>
        match inputs with
        | [] => (self, cell ← getattr_callable self "cell";
                       Raise TypeError)
        | input :: rest =>
            (self, cell ← getattr_callable self "cell"; cell input rest)
        end
    end.

(** The parts of the class the development leaves open: what
    [_build_states] does on an object that is not built yet, and the
    branches of [forward] for the other three modes. *)
Variable build_states_body : StreamWrapper -> list Tensor -> outcome.
Variable forward_other_modes : StreamWrapper -> list Tensor -> outcome.

(** [_build_states]: nothing to do once the object is built. The
    result is the object after the call, and the exception if one was
    raised. *)
Definition _build_states (self : StreamWrapper) (inputs : list Tensor)
  : StreamWrapper * option exn :=
  if built self then (self, None)
  else
    match build_states_body self inputs with
    | (self', Ok _) => (self', None)
    | (self', Raise e) => (self', Some e)
    end.

(** [forward], called on the positional arguments [inputs]. *)
Definition forward (self : StreamWrapper) (inputs : list Tensor) : outcome :=
  match _build_states self inputs with
  | (self, Some e) => (self, Raise e)
  | (self, None) =>
      match mode self with
      | STREAM_INTERNAL_STATE_INFERENCE =>
          _streaming_internal_state self inputs
      | _ => forward_other_modes self inputs
      end
  end.

End Wrapper.

End StreamWrapper.
(** ** stream_wrapper.py: the other modes of [forward], and [__init__] *)

Module StreamModes.

Import Py StreamWrapper.

Section Modes.
Variable R : Type.
Variable mul_zero : R -> R.
Variable add : R -> R -> R.
Variable Out : Type.

(** Whether an entry is different from zero: the truth value of a tensor
    of one entry. *)
Variable nonzero : R -> bool.

(** [_is_global_time_dim_op] on the wrapped layer, an [isinstance]
    check. *)
Variable _is_global_time_dim_op : Callable R Out -> bool.

(** [input.shape.rank], as the tensor library gives it. *)
Variable shape_rank : Tensor R -> result nat.

(** The rest of [_non_streaming], from the padding on, given the value of
    [self.use_one_step]. *)
Variable _non_streaming_padding :
  bool -> nat -> StreamWrapper R Out -> list (Tensor R) -> outcome R Out.

(** [bool(t)] for an attribute that is [None] or a tensor. *)
Definition tensor_truth (t : option (Tensor R)) : result bool :=
  match t with
  | None => Ok false
  | Some t =>
      if (batch R t * time R t * feat R t =? 1)%nat
      then Ok (nonzero (at_ R t 0%nat 0%nat 0%nat))
      else Raise RuntimeError
  end.

(** [self.<name>], read as a condition: the truth value of the attribute,
    [AttributeError] for a name that was never assigned. *)
Definition getattr_truth (self : StreamWrapper R Out) (name : string)
  : result bool :=
  if decide (name = "inner_module"%string) then Ok true
  else if decide (name = "inference_batch_size"%string)
  then Ok (negb (inference_batch_size R Out self =? 0)%nat)
  else if decide (name = "mode"%string) then Ok true
  else if decide (name = "pad_time_dim"%string)
  then Ok (match pad_time_dim R Out self with
           | Some s => negb (bool_decide (s = EmptyString))
           | None => false
           end)
  else if decide (name = "state_shape"%string)
  then Ok (match state_shape R Out self with
           | Some (_ :: _) => true
           | _ => false
           end)
  else if decide (name = "ring_buffer_size_in_time_dim"%string)
  then Ok (match ring_buffer_size_in_time_dim R Out self with
           | Some (S _) => true
           | _ => false
           end)
  else if decide (name = "samplewise_inference"%string)
  then Ok (samplewise_inference R Out self)
  else if decide (name = "stride"%string)
  then Ok (negb (stride R Out self =? 0)%nat)
  else if decide (name = "built"%string) then Ok (built R Out self)
  else if decide (name = "states"%string)
  then tensor_truth (states R Out self)
  else if decide (name = "input_state"%string)
  then tensor_truth (input_state R Out self)
  else if decide (name = "output_state"%string)
  then tensor_truth (output_state R Out self)
  else Raise AttributeError.

(** [self.cell( *inputs )] *)
Definition call_cell (self : StreamWrapper R Out) (inputs : list (Tensor R))
  : result Out :=
  cell ← getattr_callable R Out self "cell";
  match inputs with
  | [] => Raise TypeError
  | input :: rest => cell input rest
  end.

(** [_non_streaming], called on the positional arguments [inputs]. *)
Definition _non_streaming (self : StreamWrapper R Out)
           (inputs : list (Tensor R)) : outcome R Out :=
  match
    (pad_time_dim ← getattr_truth self "pad_time_dim";
     if pad_time_dim && _is_global_time_dim_op (inner_module R Out self)
     then Raise ValueError
     else
       match inputs with
       | [] => Raise IndexError
       | input :: _ =>
           rank ← shape_rank input;
           use_one_step ← getattr_truth self "use_one_step";
           Ok (use_one_step, rank)
       end)
  with
  | Raise e => (self, Raise e)
  | Ok (use_one_step, rank) =>
      _non_streaming_padding use_one_step rank self inputs
  end.

(** A positional argument: a tensor or [None]. *)
Definition Arg : Type := option (Tensor R).

(** An argument used as a tensor: [None] has none of the attributes and
    operations of one. *)
Definition as_tensor (a : Arg) (e : exn) : result (Tensor R) :=
  match a with
  | Some t => Ok t
  | None => Raise e
  end.

(** [_streaming_external_state( *inputs, state )], once its parameters are
    bound. It returns the output with the new state. *)
Definition _streaming_external_state (self : StreamWrapper R Out)
           (inputs : list Arg) (state : Arg)
  : result (Out * Tensor R) :=
  match inputs with
  | [] => Raise IndexError
  | input :: rest =>
      if samplewise_inference R Out self then
        input ← as_tensor input AttributeError;
        if negb (time R input =? 1)%nat then Raise ValueError
        else
          state ← as_tensor state TypeError;
          let memory :=
            slice_time R state 1 (ring_buffer_size_in_time_dim R Out self) in
          memory ← cat_time R memory input;
          cell ← getattr_callable R Out self "cell";
          rest ← mapM (fun a => as_tensor a TypeError) rest;
          output ← cell memory rest;
          Ok (output, memory)
      else
        state ← as_tensor state TypeError;
        input ← as_tensor input TypeError;
        memory ← cat_time R state input;
        size ← match ring_buffer_size_in_time_dim R Out self with
               | Some size => Ok size
               | None => Raise TypeError
               end;
        let state_update :=
          slice_time R memory
            (if (size =? 0)%nat then 0%nat else time R memory - size)%nat
            None in
        cell ← getattr_callable R Out self "cell";
        rest ← mapM (fun a => as_tensor a TypeError) rest;
        output ← cell memory rest;
        Ok (output, state_update)
  end.

(** Binding the parameter [state], which follows [*inputs] in the
    signature: only a keyword argument reaches it, and it has no
    default. *)
Definition keyword_only (state : option Arg) : result Arg :=
  match state with
  | Some a => Ok a
  | None => Raise TypeError
  end.

Definition set_output_state (self : StreamWrapper R Out) (t : Tensor R)
  : StreamWrapper R Out :=
  {| inner_module := inner_module R Out self;
     inference_batch_size := inference_batch_size R Out self;
     mode := mode R Out self;
     pad_time_dim := pad_time_dim R Out self;
     state_shape := state_shape R Out self;
     ring_buffer_size_in_time_dim := ring_buffer_size_in_time_dim R Out self;
     samplewise_inference := samplewise_inference R Out self;
     stride := stride R Out self;
     built := built R Out self;
     states := states R Out self;
     input_state := input_state R Out self;
     output_state := Some t |}.

(** The branches of [forward], after [_build_states]. The call of
    [_streaming_external_state] passes [self.input_state] by position,
    after the inputs, and no keyword. *)
Definition forward_modes (self : StreamWrapper R Out)
           (inputs : list (Tensor R)) : outcome R Out :=
  match mode R Out self with
  | STREAM_INTERNAL_STATE_INFERENCE =>
      _streaming_internal_state R mul_zero add Out self inputs
  | STREAM_EXTERNAL_STATE_INFERENCE =>
      match getattr_truth self "ring_buffer_size_in_time_dim" with
      | Raise e => (self, Raise e)
      | Ok true =>
          match
            (state ← keyword_only None;
             _streaming_external_state self
               ((Some <$> inputs) ++ [input_state R Out self]) state)
          with
          | Raise e => (self, Raise e)
          | Ok (output, output_state) =>
              (set_output_state self output_state, Ok output)
          end
      | Ok false => (self, call_cell self inputs)
      end
  | TRAINING | NON_STREAM_INFERENCE => _non_streaming self inputs
  end.

(** [get_input_state] and [get_output_state] *)
Definition get_input_state (self : StreamWrapper R Out) : result (list Arg) :=
  match mode R Out self with
  | STREAM_EXTERNAL_STATE_INFERENCE => Ok [input_state R Out self]
  | _ => Raise ValueError
  end.

Definition get_output_state (self : StreamWrapper R Out) : result (list Arg) :=
  match mode R Out self with
  | STREAM_EXTERNAL_STATE_INFERENCE => Ok [output_state R Out self]
  | _ => Raise ValueError
  end.

End Modes.

(** *** [__init__] *)

(** The [padding] attribute of a convolution: an integer, a tuple or a
    string. *)
Inductive Padding : Set :=
| PadInt (n : Z)
| PadTuple (t : list Z)
| PadStr (s : string).

(** The wrapped layer as [__init__] looks at it: the classes of the three
    [isinstance] checks, with the attributes read from them. Tuples are
    lists. *)
Inductive Module : Set :=
| Conv (padding : Padding) (stride dilation kernel_size : list Z)
| Pool (stride kernel_size : list Z)
| GlobalTimeDim
| Other.

Definition _is_conv_op (m : Module) : bool :=
  match m with Conv _ _ _ _ => true | _ => false end.

Definition _is_pool_op (m : Module) : bool :=
  match m with Pool _ _ => true | _ => false end.

Definition _is_global_time_dim_op (m : Module) : bool :=
  match m with GlobalTimeDim => true | _ => false end.

(** The attributes [__init__] assigns. *)
Record Init : Set := {
  i_inner_module : Module;
  i_inference_batch_size : Z;
  i_mode : StreamInferenceMode;
  i_pad_time_dim : option string;
  i_state_shape : option (list Z);
  i_ring_buffer_size_in_time_dim : option Z;
  i_samplewise_inference : bool;
  i_stride : Z;
  i_built : bool
}.

Definition set_stride (self : Init) (stride : Z) : Init :=
  {| i_inner_module := i_inner_module self;
     i_inference_batch_size := i_inference_batch_size self;
     i_mode := i_mode self;
     i_pad_time_dim := i_pad_time_dim self;
     i_state_shape := i_state_shape self;
     i_ring_buffer_size_in_time_dim := i_ring_buffer_size_in_time_dim self;
     i_samplewise_inference := i_samplewise_inference self;
     i_stride := stride;
     i_built := i_built self |}.

Definition set_ring (self : Init) (size : Z) : Init :=
  {| i_inner_module := i_inner_module self;
     i_inference_batch_size := i_inference_batch_size self;
     i_mode := i_mode self;
     i_pad_time_dim := i_pad_time_dim self;
     i_state_shape := i_state_shape self;
     i_ring_buffer_size_in_time_dim := Some size;
     i_samplewise_inference := i_samplewise_inference self;
     i_stride := i_stride self;
     i_built := i_built self |}.

(** [self.mode not in (TRAINING, NON_STREAM_INFERENCE)] *)
Definition streaming (mode : StreamInferenceMode) : bool :=
  match mode with
  | TRAINING | NON_STREAM_INFERENCE => false
  | _ => true
  end.

(** [padding != 0] *)
Definition padding_is_not_0 (padding : Padding) : bool :=
  match padding with
  | PadInt n => negb (n =? 0)
  | _ => true
  end.

(** [t[i]] on a tuple *)
Definition item (t : list Z) (i : nat) : result Z :=
  match t !! i with
  | Some x => Ok x
  | None => Raise IndexError
  end.

(** [_initialize_ring_buffer_size_in_time_dim]. The warning it logs for a
    size of 1 changes nothing. *)
Definition _initialize_ring_buffer_size_in_time_dim (self : Init)
           (wrapped_module : Module) : result Init :=
  match i_ring_buffer_size_in_time_dim self with
  | Some _ => Ok self
  | None =>
      match wrapped_module with
      | Conv padding strides dilation_rate kernel_size =>
          stride ← item strides 0;
          let self := set_stride self stride in
          _ ← (if streaming (i_mode self) then
                 if padding_is_not_0 padding then Raise ValueError
                 else if i_samplewise_inference self then
                        s ← item strides 0;
                        if 1 <? s then Raise ValueError else Ok tt
                      else Ok tt
               else Ok tt);
          if i_samplewise_inference self then
            d ← item dilation_rate 0;
            k ← item kernel_size 0;
            Ok (set_ring self (d * (k - 1) + 1))
          else
            d ← item dilation_rate 0;
            k ← item kernel_size 0;
            s ← item strides 0;
            Ok (set_ring self (Z.max 0 (d * (k - 1) - (s - 1))))
      | Pool strides kernel_size =>
          stride ← item strides 0;
          let self := set_stride self stride in
          _ ← (if streaming (i_mode self) then
                 s ← item strides 0;
                 k ← item kernel_size 0;
                 if negb (s =? k) then Raise ValueError else Ok tt
               else Ok tt);
          k ← item kernel_size 0;
          Ok (set_ring self k)
      | GlobalTimeDim =>
          match i_state_shape self with
          | Some (_ :: _ as shape) =>
              size ← item shape 1;
              Ok (set_ring self size)
          | _ => Ok self
          end
      | Other => Raise ValueError
      end
  end.

(** [StreamWrapper.__init__]: the object it builds, or the exception it
    raises. *)
Definition __init__ (module : Module) (inference_batch_size : Z)
           (mode : StreamInferenceMode) (pad_time_dim : option string)
           (state_shape : option (list Z))
           (ring_buffer_size_in_time_dim : option Z)
           (samplewise_inference : bool) : result Init :=
  let self :=
    {| i_inner_module := module;
       i_inference_batch_size := inference_batch_size;
       i_mode := mode;
       i_pad_time_dim := pad_time_dim;
       i_state_shape := state_shape;
       i_ring_buffer_size_in_time_dim := ring_buffer_size_in_time_dim;
       i_samplewise_inference := samplewise_inference;
       i_stride := 1;
       i_built := false |} in
  let wrapped_module := module in
  if negb samplewise_inference && _is_global_time_dim_op wrapped_module
  then Raise ValueError
  else _initialize_ring_buffer_size_in_time_dim self wrapped_module.

End StreamModes.

Module StreamFeed.

Import Py StreamWrapper.

(** The object after the calls [forward(x)] for the inputs [xs] in turn,
    made by a caller that goes on after an exception. *)
Definition feed {R Out : Type} (mul_zero : R -> R) (add : R -> R -> R)
           (build_states_body forward_other_modes :
              StreamWrapper R Out -> list (Tensor R) -> outcome R Out)
           (self : StreamWrapper R Out) (xs : list (Tensor R))
  : StreamWrapper R Out :=
  foldl (fun self x =>
           fst (forward R mul_zero add Out build_states_body
                  forward_other_modes self [x]))
        self xs.

End StreamFeed.
(** ** punctuate_capitalize_nmt.py *)

Module Punctuate.

Import Py.

(** The three lists [split_into_segments] builds, and its counter
    [segment_start]. *)
Record segmentation : Type := {
  segments : list string;
  query_indices : list nat;
  start_word_i : list nat;
  segment_start : nat
}.

(** One turn of the [while] body. *)
Definition emit (words : list string) (q_i max_seq_length step : nat)
           (st : segmentation) : segmentation :=
  {| segments :=
       segments st
       ++ [join " " (slice words (segment_start st)
                           (segment_start st + max_seq_length))];
     start_word_i := start_word_i st ++ [segment_start st];
     query_indices := query_indices st ++ [q_i];
     segment_start := (segment_start st + step)%nat |}.

(** The [while] loop over one query. [fuel] bounds the number of turns;
    [None] stands for a loop that does not end. *)
Fixpoint while_segments (fuel : nat) (words : list string)
         (q_i max_seq_length step : nat) (st : segmentation)
  : option segmentation :=
  if (segment_start st + max_seq_length <? length words)%nat then
    match fuel with
    | O => None
    | S fuel' =>
        while_segments fuel' words q_i max_seq_length step
          (emit words q_i max_seq_length step st)
    end
  else Some st.

(** The [for] loop over the queries, numbered from [q_i]. With a positive
    [step] a query of [n] words takes fewer than [n] turns; with [step = 0]
    the loop never ends once it is entered. *)
Fixpoint for_queries (texts : list string) (q_i max_seq_length step : nat)
         (st : segmentation) : option segmentation :=
  match texts with
  | [] => Some st
  | query :: texts' =>
      let words := split query in
      match while_segments (length words) words q_i max_seq_length step st with
      | Some st' => for_queries texts' (S q_i) max_seq_length step st'
      | None => None
      end
  end.

(** [split_into_segments(texts, max_seq_length, step)]. [segment_start] is
    set to 0 once, before the loop over the queries. *)
Definition split_into_segments (texts : list string)
           (max_seq_length step : nat)
  : option (list string * list nat * list nat) :=
  let st0 := {| segments := []; query_indices := []; start_word_i := [];
                segment_start := 0 |} in
  match for_queries texts 0 max_seq_length step st0 with
  | Some st => Some (segments st, query_indices st, start_word_i st)
  | None => None
  end.

(** *** Voting *)

(** A vote dictionary: label to [[count, score]], in insertion order. *)
Definition votes : Type := list (string * (Z * Z)).

(** The score a word contributes: its distance to the nearer end of the
    segment. *)
Definition vote_score (num_words_in_segment word_ind_in_segment : Z) : Z :=
  Z.min (word_ind_in_segment + 1)
        (num_words_in_segment - word_ind_in_segment - 1).

(** [update_label_counter(counter, lbl, num_words_in_segment,
    word_ind_in_segment)]; the dictionary is updated in place, a new label
    goes last. *)
Fixpoint update_label_counter (counter : votes) (lbl : string)
         (num_words_in_segment word_ind_in_segment : Z) : votes :=
  match counter with
  | [] => [(lbl, (1, vote_score num_words_in_segment word_ind_in_segment))]
  | (l, (count, score)) :: counter' =>
      if decide (l = lbl)
      then (l, (count + 1,
                score + vote_score num_words_in_segment word_ind_in_segment))
           :: counter'
      else (l, (count, score))
           :: update_label_counter counter' lbl num_words_in_segment
                word_ind_in_segment
  end.

(** The dictionaries [get_label_votes] can build: empty at first, then
    changed by [update_label_counter] only. *)
Inductive accumulated : votes -> Prop :=
| accumulated_empty : accumulated []
| accumulated_update counter lbl n w :
    accumulated counter ->
    accumulated (update_label_counter counter lbl n w).

(** The first sort key, [-x[1][1] / x[1][0]]: a true division, taken in
    the rationals. *)
Definition key_ratio (x : string * (Z * Z)) : result Q :=
  let '(_, (count, score)) := x in
  if count =? 0 then Raise ZeroDivisionError
  else Ok (inject_Z (- score) / inject_Z count)%Q.

(** The second sort key, [-x[1][0]]. *)
Definition key_count (x : string * (Z * Z)) : Z := - fst (snd x).

(** [select_best_label(votes)]. [sorted] computes the key of every item
    before it compares any. *)
Definition select_best_label (votes : votes) : result string :=
  keyed ← mapM (fun x => k ← key_ratio x; Ok (k, x)) votes;
  let votes := snd <$> sorted Qle_bool fst keyed in
  let votes := sorted Z.leb key_count votes in
  match votes with
  | [] => Raise IndexError
  | x :: _ => Ok (fst x)
  end.

End Punctuate.
(** ** punctuate_capitalize_nmt.py: the loops of
    [apply_autoregressive_labels] *)

Module PunctuateApply.

Import Py.

Section Loops.
(** The two lists of vote dictionaries [get_label_votes] builds for a
    query, and their initial value for the query. *)
Variable Voting : Type.
Variable empty_voting : string -> Voting.

(** The body of the [while] loop of [get_label_votes] before its two
    increments: the votes of the segment [current_segment_i] are added,
    or an exception is raised. Its arguments are [query], [q_i],
    [segment_id_in_query] and [current_segment_i]. *)
Variable count_segment :
  string -> nat -> nat -> nat -> Voting -> result Voting.

(** The body of the loop of [apply_autoregressive_labels] after the call
    of [get_label_votes]: the processed query and the united labels of
    [query], from its votes. *)
Variable label_query : string -> nat -> Voting -> result (string * string).

(** The [while] loop of [get_label_votes]; [rest] is
    [query_indices[current_segment_i:]], whose first entry the guard
    reads. *)
Fixpoint while_votes (rest : list nat) (query : string)
         (q_i segment_id_in_query current_segment_i : nat) (voting : Voting)
  : result (Voting * nat) :=
  match rest with
  | [] => Raise IndexError
  | q :: rest' =>
      if (q =? q_i)%nat then
        voting ← count_segment query q_i segment_id_in_query
                   current_segment_i voting;
        while_votes rest' query q_i (S segment_id_in_query)
          (S current_segment_i) voting
      else Ok (voting, current_segment_i)
  end.

(** [get_label_votes]: the votes and the new [current_segment_i]. *)
Definition get_label_votes (query : string) (q_i current_segment_i : nat)
           (query_indices : list nat) : result (Voting * nat) :=
  while_votes (drop current_segment_i query_indices) query q_i 0
    current_segment_i (empty_voting query).

(** The loop of [apply_autoregressive_labels] over the queries, numbered
    from [q_i]. *)
Fixpoint for_queries (queries : list string) (q_i current_segment_i : nat)
         (query_indices : list nat)
         (processed_queries united_labels : list string)
  : result (list string * list string) :=
  match queries with
  | [] => Ok (processed_queries, united_labels)
  | query :: queries' =>
      votes ← get_label_votes query q_i current_segment_i query_indices;
      labelled ← label_query query q_i (fst votes);
      for_queries queries' (S q_i) (snd votes) query_indices
        (processed_queries ++ [fst labelled])
        (united_labels ++ [snd labelled])
  end.

(** [apply_autoregressive_labels] *)
Definition apply_autoregressive_labels (queries : list string)
           (query_indices : list nat)
  : result (list string * list string) :=
  for_queries queries 0 0 query_indices [] [].

End Loops.

End PunctuateApply.
(** ** punctuate_capitalize_nmt.py: [adjust_predicted_labels_length] *)

Module PunctuateAdjust.

Import Py.

Section Adjust.
(** [capitalization_labels], a string of letters that is not empty: its
    first character and the others. The pattern
    [[capitalization_labels]] matches the characters of the string. *)
Variable c0 : ascii.
Variable others : list ascii.

Definition capitalization_labels : list ascii := c0 :: others.

(** [c in capitalization_labels], for a character *)
Definition is_label (c : ascii) : bool :=
  bool_decide (c ∈ capitalization_labels).

(** [len(capitalization_pattern.findall(s))] *)
Definition num_labels (s : list ascii) : nat :=
  length (filter (fun c => is_label c = true) s).

(** [s[pos]]; a negative index counts from the end. *)
Definition getchar (s : list ascii) (pos : Z) : result ascii :=
  let i := if pos <? 0 then pos + Z.of_nat (length s) else pos in
  if i <? 0 then Raise IndexError
  else match s !! Z.to_nat i with
       | Some c => Ok c
       | None => Raise IndexError
       end.

(** [s[:stop]]; a negative bound counts from the end. *)
Definition prefix (s : list ascii) (stop : Z) : list ascii :=
  let stop :=
    if stop <? 0 then Z.max 0 (stop + Z.of_nat (length s)) else stop in
  take (Z.to_nat stop) s.

(** The [while] loop that looks for the place to cut [labels] at.
    [fuel] bounds the number of turns; [None] stands for a loop that does
    not end. *)
Fixpoint while_trim (fuel : nat) (labels : list ascii) (num_words i : nat)
         (pos : Z) : option (result Z) :=
  if (num_words <? i)%nat then
    match fuel with
    | O => None
    | S fuel' =>
        match getchar labels pos with
        | Raise e => Some (Raise e)
        | Ok c =>
            while_trim fuel' labels num_words
              (if is_label c then (i - 1)%nat else i) (pos - 1)
        end
    end
  else Some (Ok pos).

(** The body of the loop over the pairs of a segment and its labels: the
    labels that are appended to [result]. *)
Definition adjust (segment : string) (labels : list ascii)
  : option (result (list ascii)) :=
  let num_words := length (split segment) in
  let num_word_labels := num_labels (list_ascii_of_string segment) in
  if (num_word_labels <? num_words)%nat then
    Some (last ← getchar labels (-1);
          if bool_decide (last <> " "%char)
          then Ok (labels
                   ++ " "%char
                      :: mjoin (replicate (num_words - num_word_labels)
                                          [c0; " "%char]))
          else Ok labels)
  else if (num_words <? num_word_labels)%nat then
    match while_trim (2 * length labels + 1) labels num_words num_word_labels
                     (Z.of_nat (length labels) - 1) with
    | None => None
    | Some (Raise e) => Some (Raise e)
    | Some (Ok pos) => Some (Ok (prefix labels (pos + 1)))
    end
  else Some (Ok labels).

(** [adjust_predicted_labels_length], on the pairs
    [zip(segments, autoregressive_labels)]. *)
Fixpoint adjust_pairs (pairs : list (string * list ascii))
  : option (result (list (list ascii))) :=
  match pairs with
  | [] => Some (Ok [])
  | (segment, labels) :: pairs' =>
      match adjust segment labels with
      | None => None
      | Some (Raise e) => Some (Raise e)
      | Some (Ok labels) =>
          match adjust_pairs pairs' with
          | None => None
          | Some (Raise e) => Some (Raise e)
          | Some (Ok result) => Some (Ok (labels :: result))
          end
      end
  end.

Definition adjust_predicted_labels_length (segments : list string)
           (autoregressive_labels : list (list ascii))
  : option (result (list (list ascii))) :=
  adjust_pairs (zip segments autoregressive_labels).

End Adjust.

End PunctuateAdjust.
(** ** punctuation.py, and the part of pynini it is built from *)

Module Pynini.

(** Strings are lists of characters. *)
Definition str (s : string) : list ascii := list_ascii_of_string s.

(** The double quote character. *)
Definition quote : ascii := ascii_of_nat 34.

(** The transducers the verbalizer is built from, by the operation that
    builds them: a string read as an acceptor, a union of one-character
    acceptors (given by the characters it accepts), [f + g],
    [pynini.closure(f, lower)], [f - g], and [pynutil.delete(f)]. *)
Inductive Fst : Type :=
| accep (s : list ascii)
| chars (P : ascii -> bool)
| concat (f g : Fst)
| closure (f : Fst) (lower : nat)
| difference (f g : Fst)
| delete (f : Fst).

(** [transduces f i o]: [f] maps the input string [i] to the output string
    [o]. An acceptor maps the strings it accepts to themselves; a closure
    maps a sequence of at least [lower] parts, part by part; a difference
    keeps the inputs its right-hand side does not accept; [delete f] maps
    every input of [f] to the empty string. *)
Fixpoint transduces (f : Fst) (i o : list ascii) {struct f} : Prop :=
  match f with
  | accep s => i = s /\ o = s
  | chars P => exists c, P c = true /\ i = [c] /\ o = [c]
  | concat f g =>
      exists i1 i2 o1 o2,
        i = i1 ++ i2 /\ o = o1 ++ o2
        /\ transduces f i1 o1 /\ transduces g i2 o2
  | closure f lower =>
      exists parts : list (list ascii * list ascii),
        (lower <= length parts)%nat
        /\ Forall (fun p => transduces f (fst p) (snd p)) parts
        /\ i = mjoin (fst <$> parts) /\ o = mjoin (snd <$> parts)
  | difference f g => transduces f i o /\ forall o', ~ transduces g i o'
  | delete f => o = [] /\ exists o', transduces f i o'
  end.

(** Running a closure: [step] runs the transducer under the closure on a
    string and returns the outputs with the rest of the string. Each turn
    has to read at least one character; [fuel] bounds the number of
    turns. *)
Fixpoint run_closure (step : list ascii -> list (list ascii * list ascii))
         (fuel lower : nat) (i : list ascii)
  : list (list ascii * list ascii) :=
  match fuel with
  | O => []
  | S fuel' =>
      (if (lower =? 0)%nat then [([], i)] else [])
      ++ (r1 ← step i;
          if (length (snd r1) <? length i)%nat
          then (fun r2 => (fst r1 ++ fst r2, snd r2))
                 <$> run_closure step fuel' (pred lower) (snd r1)
          else [])
  end.

(** [run f i]: the ways [f] reads a prefix of [i], each as the output
    written and the rest of [i]. *)
Fixpoint run (f : Fst) (i : list ascii) : list (list ascii * list ascii) :=
  match f with
  | accep s =>
      if decide (take (length s) i = s) then [(s, drop (length s) i)] else []
  | chars P =>
      match i with
      | c :: rest => if P c then [([c], rest)] else []
      | [] => []
      end
  | concat f g =>
      r1 ← run f i;
      (fun r2 => (fst r1 ++ fst r2, snd r2)) <$> run g (snd r1)
  | closure f lower => run_closure (run f) (S (length i)) lower i
  | difference f g =>
      filter (fun r => Forall (fun r' => length (snd r') <> length (snd r))
                              (run g i))
             (run f i)
  | delete f => (fun r => ([], snd r)) <$> run f i
  end.

(** The outputs of [f] on the whole of [i]. *)
Definition apply (f : Fst) (i : list ascii) : list (list ascii) :=
  fst <$> filter (fun r => snd r = []) (run f i).

End Pynini.

Module GraphUtils.

Import Pynini.

(** Modelled from the spec: [graph_utils.py], which defines [NEMO_CHAR],
    [NEMO_NOT_QUOTE] and [delete_space], is not among the sources.
    [NEMO_CHAR] accepts any one character. *)
Definition NEMO_CHAR : Fst := chars (fun _ => true).

(** Modelled from the spec: [graph_utils.py] is not among the sources.
    [NEMO_NOT_QUOTE] accepts any one character but the double quote. *)
Definition NEMO_NOT_QUOTE : Fst := difference NEMO_CHAR (accep [quote]).

(** Modelled from the spec: [graph_utils.py] is not among the sources. The
    white space characters are the space, the tabulation, the line feed
    and the carriage return. *)
Definition is_white_space (c : ascii) : bool :=
  bool_decide (nat_of_ascii c ∈ [32; 9; 10; 13]%nat).

Definition NEMO_WHITE_SPACE : Fst := chars is_white_space.

(** Modelled from the spec: [graph_utils.py] is not among the sources.
    [delete_space] deletes a run of white space, which may be empty. *)
Definition delete_space : Fst := delete (closure NEMO_WHITE_SPACE 0).

End GraphUtils.

Module PunctuationFst.

Import Pynini GraphUtils.

(** [fst.optimize()] changes the machine, not the strings it maps. *)
Definition optimize (f : Fst) : Fst := f.

(** What [GraphFst.__init__] and [PunctuationFst.__init__] store. *)
Record GraphFst : Type := {
  name : string;
  kind : string;
  fst : Fst
}.

(** [PunctuationFst.__init__]; Python's [+] associates to the left. *)
Definition __init__ : GraphFst :=
  let char :=
    concat
      (concat
         (concat
            (concat
               (concat (delete (accep (str "name:"))) delete_space)
               (delete (accep [quote])))
            (closure NEMO_NOT_QUOTE 1))
         (delete (accep (quote :: str " pause_length"))))
      (delete (closure (difference NEMO_CHAR (accep (str "}"))) 0)) in
  {| name := "punctuation"; kind := "verbalize"; fst := optimize char |}.

(** The serialized token the verbalizer reads: [name:], white space, the
    symbol [p] between double quotes, [ pause_length], and a rest [s]. *)
Definition token (ws p s : list ascii) : list ascii :=
  str "name:" ++ ws ++ [quote] ++ p ++ (quote :: str " pause_length") ++ s.

End PunctuationFst.
(** ** tsvad_models.py: ClusterEmbedding *)

Module ClusterEmbedding.

Import Py.

Section Clustering.
(** Tensor entries, the zero entry and [torch.mean] on a list of entries;
    time stamps, which are only stored. *)
Variable R : Type.
Variable zero : R.
Variable mean : list R -> R.
Variable Time : Type.

(** The order in which a [set] of integers is iterated. The sources rely on
    none; the development takes the order as given. *)
Variable set_iter : list Z -> list Z.

(** A line of the clustering output, as the fields [get_clus_emb] reads
    from it: the session, the two time stamps and the speaker label. *)
Record Line : Type := {
  line_uniq_id : string;
  line_stt : Time;
  line_end : Time;
  line_label : Z
}.

(** An entry [[stt, end, label]] of [base_clus_label_dict]. *)
Definition BaseEntry : Type := (Time * Time * Z)%type.

(** The embeddings of the segments of a session: one row per segment. *)
Definition EmbTensor : Type := list (list R).

(** [[x[-1] for x in entries]] *)
Definition base_labels (entries : list BaseEntry) : list Z := snd <$> entries.

(** The labels of the segments of one coarser scale: for each segment index
    in the mapping, the mode of the base labels mapped to it. *)
Definition longer_seg_labels (base_scale_clus_label mapping : list Z)
  : result (list Z) :=
  mapM (fun seg_idx =>
          mapped ← mask_select base_scale_clus_label (eq_mask mapping seg_idx);
          mode mapped)
       (set_iter mapping).

(** The body of the loop over the sessions in
    [assign_labels_to_longer_segs]. The [except] branch stops in the
    debugger. *)
Definition assign_session (scale_n : Z)
           (base_clus_label_dict : gmap string (list BaseEntry))
           (item : string * gmap Z (list Z))
           (new_clus_label_dict : gmap Z (gmap string (list Z)))
  : result (gmap Z (gmap string (list Z))) :=
  let '(uniq_id, uniq_scale_mapping_dict) := item in
  base_scale_clus_label ←
    match base_clus_label_dict !! uniq_id with
    | Some entries => Ok (base_labels entries)
    | None => Raise DebuggerTrap
    end;
  new_clus_label_dict ←
    setitem2 new_clus_label_dict (scale_n - 1) uniq_id base_scale_clus_label;
  for_each (seqZ 0 (scale_n - 1))
    (fun scale_index new_clus_label_dict =>
       mapping ← getitem uniq_scale_mapping_dict scale_index;
       new_clus_label ← longer_seg_labels base_scale_clus_label mapping;
       setitem2 new_clus_label_dict scale_index uniq_id new_clus_label)
    new_clus_label_dict.

(** [assign_labels_to_longer_segs(scale_n, base_clus_label_dict,
    session_scale_mapping_dict)]. The sessions are visited in the order of
    [map_to_list]; the order shows only in which exception is raised when
    several sessions fail. *)
Definition assign_labels_to_longer_segs (scale_n : Z)
           (base_clus_label_dict : gmap string (list BaseEntry))
           (session_scale_mapping_dict : gmap string (gmap Z (list Z)))
  : result (gmap Z (gmap string (list Z))) :=
  let new_clus_label_dict : gmap Z (gmap string (list Z)) :=
    list_to_map ((fun scale_index => (scale_index, ∅)) <$> seqZ 0 scale_n) in
  for_each (map_to_list session_scale_mapping_dict)
    (assign_session scale_n base_clus_label_dict) new_clus_label_dict.

(** [torch.mean(selected_embs, dim=0)]: the mean of every column. *)
Definition mean_dim0 (selected_embs : EmbTensor) : list R :=
  match selected_embs with
  | [] => []
  | row :: _ =>
      (fun j => mean ((fun r => nth j r zero) <$> selected_embs))
        <$> seq 0 (length row)
  end.

(** A column index, as Python reads it: negative indices count from the
    end. *)
Definition column_index (ncols : nat) (k : Z) : result nat :=
  if decide (0 <= k < Z.of_nat ncols) then Ok (Z.to_nat k)
  else if decide (- Z.of_nat ncols <= k < 0)
       then Ok (Z.to_nat (k + Z.of_nat ncols))
       else Raise IndexError.

(** [m[:, k] = v] on a matrix with [ncols] columns: [v] has one entry per
    row, or one entry in all, which is then written to every row. *)
Definition set_column (ncols : nat) (m : list (list R)) (k : Z) (v : list R)
  : result (list (list R)) :=
  j ← column_index ncols k;
  if (length v =? length m)%nat
  then Ok (zip_with (fun row x => <[j := x]> row) m v)
  else match v with
       | [x] => Ok ((fun row => <[j := x]> row) <$> m)
       | _ => Raise RuntimeError
       end.

(** The body of the loop over the sessions of a scale in [get_clus_emb],
    up to [avg_embs]. *)
Definition session_avg_embs (dim max_num_of_spks : nat)
           (clus_label_list : list Z) (emb_tensor : EmbTensor)
  : result (list (list R)) :=
  let spk_set := set_iter clus_label_list in
  let spk_N := length spk_set in
  if negb (spk_N <=? max_num_of_spks)%nat then Raise AssertionError
  else
    let label_array := clus_label_list in
    let avg_embs := replicate dim (replicate max_num_of_spks zero) in
    for_each spk_set
      (fun spk_idx avg_embs =>
         selected_embs ← mask_select emb_tensor (eq_mask label_array spk_idx);
         set_column max_num_of_spks avg_embs spk_idx
           (mean_dim0 selected_embs))
      avg_embs.

(** A value of [emb_sess_avg_dict[scale_index]]: the empty list it starts
    with, or the dictionary with the keys ['mapping'] and ['avg_embs']. *)
Inductive SessAvg : Type :=
| NoAvg
| Avg (mapping : gmap string string) (avg_embs : list (list R)).

(** [{clus_key: rttm_key for rttm_key, clus_key in d.items()}] *)
Definition invert (d : gmap string string) : gmap string string :=
  foldl (fun inv kv => <[snd kv := fst kv]> inv) ∅ (map_to_list d).

(** The loop over the lines of the clustering output. *)
Definition collect_base_labels (clus_label : list Line)
           (base_clus_label_dict : gmap string (list BaseEntry))
  : result (gmap string (list BaseEntry)) :=
  for_each clus_label
    (fun line base_clus_label_dict =>
       entries ← getitem base_clus_label_dict (line_uniq_id line);
       Ok (<[line_uniq_id line :=
               entries ++ [(line_stt line, line_end line, line_label line)]]>
             base_clus_label_dict))
    base_clus_label_dict.

(** [get_clus_emb(emb_scale_seq_dict, clus_label, speaker_mapping_dict,
    session_scale_mapping_dict)]. The [uniq_id] used for [dim] is the one
    the loop over the lines has left behind. *)
Definition get_clus_emb (max_num_of_spks : nat)
           (emb_scale_seq_dict : gmap Z (gmap string EmbTensor))
           (clus_label : list Line)
           (speaker_mapping_dict : gmap string (gmap string string))
           (session_scale_mapping_dict : gmap string (gmap Z (list Z)))
  : result (gmap Z (gmap string SessAvg) * gmap string (list BaseEntry)) :=
  let scale_n := Z.of_nat (size emb_scale_seq_dict) in
  finest ← getitem emb_scale_seq_dict (scale_n - 1);
  let base_clus_label_dict : gmap string (list BaseEntry) :=
    (fun _ => []) <$> finest in
  let emb_sess_avg_dict : gmap Z (gmap string SessAvg) :=
    (fun _ => (fun _ => NoAvg) <$> finest) <$> emb_scale_seq_dict in
  base_clus_label_dict ← collect_base_labels clus_label base_clus_label_dict;
  all_scale_clus_label_dict ←
    assign_labels_to_longer_segs scale_n base_clus_label_dict
      session_scale_mapping_dict;
  uniq_id ← match last clus_label with
            | Some line => Ok (line_uniq_id line)
            | None => Raise NameError
            end;
  dim ← (sessions ← getitem emb_scale_seq_dict 0;
         emb_tensor ← getitem sessions uniq_id;
         row ← index emb_tensor 0;
         Ok (length row));
  emb_sess_avg_dict ←
    for_each (map_to_list emb_scale_seq_dict)
      (fun scale emb_sess_avg_dict =>
         for_each (map_to_list (snd scale))
           (fun session emb_sess_avg_dict =>
              labels ← getitem all_scale_clus_label_dict (fst scale);
              clus_label_list ← getitem labels (fst session);
              avg_embs ← session_avg_embs dim max_num_of_spks clus_label_list
                           (snd session);
              rttm ← getitem speaker_mapping_dict (fst session);
              let inv_map := invert rttm in
              setitem2 emb_sess_avg_dict (fst scale) (fst session)
                (Avg inv_map avg_embs))
           emb_sess_avg_dict)
      emb_sess_avg_dict;
  Ok (emb_sess_avg_dict, base_clus_label_dict).

End Clustering.

End ClusterEmbedding.
(** ** tsvad_models.py: EncDecDiarLabelModel *)

Module EncDecDiarLabelModel.

(** The two trainer attributes [__init__] reads. *)
Record Trainer : Set := { num_nodes : Z; num_gpus : Z }.

(** The configuration entries [__init__] reads and writes. *)
Record Cfg : Set := {
  max_num_of_spks : Z;
  tsvad_module_num_spks : Z;
  train_ds_num_spks : Z;
  validation_ds_num_spks : Z;
  test_ds_num_spks : Z
}.

Section Model.
(** Dictionaries produced by [ClusterEmbedding]; [__init__] only copies
    them. *)
Variable Dict : Type.

Record EmbClus : Type := {
  ec_emb_sess_train_dict : Dict;
  ec_emb_sess_dev_dict : Dict;
  ec_emb_sess_test_dict : Dict;
  ec_clus_train_label_dict : Dict;
  ec_clus_dev_label_dict : Dict;
  ec_clus_test_label_dict : Dict;
  ec_emb_seq_train : Dict;
  ec_emb_seq_dev : Dict;
  ec_emb_seq_test : Dict
}.

(** The attributes of the model object assigned by [__init__] before it
    hands over to the framework ([super().__init__] and the
    instantiation of the preprocessor and TS-VAD sub-modules). *)
Record Model : Type := {
  ts_vad_model_cfg : Cfg;
  emb_clus : EmbClus;
  world_size : Z
}.

(** [cfg.<section>.num_spks = cfg.max_num_of_spks], four times. *)
Definition set_num_spks (cfg : Cfg) : Cfg :=
  {| max_num_of_spks := max_num_of_spks cfg;
     tsvad_module_num_spks := max_num_of_spks cfg;
     train_ds_num_spks := max_num_of_spks cfg;
     validation_ds_num_spks := max_num_of_spks cfg;
     test_ds_num_spks := max_num_of_spks cfg |}.

(** [get_emb_clus]: the nine dictionaries are copied attribute by
    attribute. *)
Definition get_emb_clus (e : EmbClus) : EmbClus :=
  {| ec_emb_sess_train_dict := ec_emb_sess_train_dict e;
     ec_emb_sess_dev_dict := ec_emb_sess_dev_dict e;
     ec_emb_sess_test_dict := ec_emb_sess_test_dict e;
     ec_clus_train_label_dict := ec_clus_train_label_dict e;
     ec_clus_dev_label_dict := ec_clus_dev_label_dict e;
     ec_clus_test_label_dict := ec_clus_test_label_dict e;
     ec_emb_seq_train := ec_emb_seq_train e;
     ec_emb_seq_dev := ec_emb_seq_dev e;
     ec_emb_seq_test := ec_emb_seq_test e |}.

(** [__init__(cfg, emb_clus, trainer=None)], lines 455-463.
    [trainer = None] is [None] here. *)
Definition __init__ (cfg : Cfg) (e : EmbClus) (trainer : option Trainer)
  : Model :=
  let cfg := set_num_spks cfg in
  let world_size := 1 in
  let world_size :=
    match trainer with
    | Some t => num_nodes t * num_gpus t
    | None => world_size
    end in
  {| ts_vad_model_cfg := cfg;
     emb_clus := get_emb_clus e;
     world_size := world_size |}.
End Model.

Arguments world_size {Dict} _.
Arguments __init__ {Dict} _ _ _.

Section Forward.
(** Tensor entries; only copied here. *)
Variable R : Type.

(** A batch of feature sequences, indexed [batch, feature, time]. *)
Definition Signal : Type := list (list (list R)).

(** The two framework modules [forward] calls, built from the
    configuration by [from_config_dict]. *)
Variable Audio Ivectors Preds : Type.
Variable preprocessor : Audio -> list Z -> Signal * list Z.
Variable tsvad : Signal -> list Z -> Ivectors -> Preds.

(** [x[:, :, :length]] *)
Definition slice_time (length : nat) (x : Signal) : Signal :=
  map (map (take length)) x.

(** [torch.ones_like(v)] *)
Definition ones_like (v : list Z) : list Z := map (fun _ => 1) v.

(** [length * v], the scalar broadcast over the vector. *)
Definition scalar_mul (k : Z) (v : list Z) : list Z := map (Z.mul k) v.

(** What [forward] passes to [self.tsvad]. *)
Definition tsvad_inputs (input_signal : Audio) (input_signal_length : list Z)
  : Signal * list Z :=
  let length := 3000%nat in
  let '(processed_signal, processed_signal_len) :=
    preprocessor input_signal input_signal_length in
  let processed_signal := slice_time length processed_signal in
  let processed_signal_len :=
    scalar_mul (Z.of_nat length) (ones_like processed_signal_len) in
  (processed_signal, processed_signal_len).

Definition forward (input_signal : Audio) (input_signal_length : list Z)
           (ivectors : Ivectors) : Preds :=
  let '(processed_signal, processed_signal_len) :=
    tsvad_inputs input_signal input_signal_length in
  tsvad processed_signal processed_signal_len ivectors.
End Forward.

End EncDecDiarLabelModel.

(** ** prompt_table.py *)

Module PromptTable.

Import Py.

Section Embedding.
(** Tensor entries, the zero entry, and the product of an entry with a
    rational factor (used by dropout only). *)
Variable R : Type.
Variable zero : R.
Variable scale : Q -> R -> R.

(** A two-dimensional tensor, as the list of its rows. *)
Definition Tensor : Type := list (list R).

Definition has_shape (rows cols : nat) (t : Tensor) : Prop :=
  length t = rows /\ Forall (fun row => length row = cols) t.

(** The weight [torch.nn.Embedding(rows, cols)] starts with: a
    [rows x cols] tensor of random draws, [draw i j] at entry (i, j). *)
Definition Embedding (draw : nat -> nat -> R) (rows cols : nat) : Tensor :=
  map (fun i => map (draw i) (seq 0 cols)) (seq 0 rows).

(** An [init_method] such as [init.xavier_normal_] overwrites the
    entries of the tensor it is given, in place: [init t i j] is the new
    entry (i, j). *)
Definition init_in_place (init : Tensor -> nat -> nat -> R) (t : Tensor)
  : Tensor :=
  imap (fun i row => imap (fun j _ => init t i j) row) t.

(** Calling an embedding layer on a vector of indices: row [i] of the
    weight for every index [i], [IndexError] when a row is missing. *)
Definition embedding_lookup (weight : Tensor) (indices : list nat)
  : result Tensor :=
  mapM (Py.index weight) indices.

(** [torch.nn.Dropout(p)] applied to [x]: the identity outside training
    and when [p] is 0; otherwise the entries whose [keep] draw is false
    are zeroed and the others are scaled by [1 / (1 - p)]. *)
Definition Dropout (p : Q) (training : bool) (keep : nat -> nat -> bool)
           (x : Tensor) : Tensor :=
  if negb training || Qeq_bool p 0 then x
  else if Qeq_bool p 1 then map (map (fun _ => zero)) x
  else imap (fun i row =>
               imap (fun j v => if keep i j then scale (/ (1 - p)) v
                                else zero) row) x.

Record PromptEmbedding : Type := {
  hidden_size : nat;
  total_soft_tokens : nat;
  prompt_embeddings_weight : Tensor;
  indices : list nat;
  embedding_dropout_p : Q;
  training : bool
}.

(** [PromptEmbedding.__init__]. [draw] stands for the random initial
    content of the fresh embedding layer; [word_embedding_weights] is
    read only when [init_from_prompt_text] holds. *)
Definition PromptEmbedding__init__
           (draw : nat -> nat -> R)
           (init_from_prompt_text : bool)
           (hidden_size total_soft_tokens : nat)
           (word_embedding_weights : Tensor)
           (init_method : Tensor -> nat -> nat -> R)
           (prompt_embedding_dropout_prob : Q) : PromptEmbedding :=
  let weight := Embedding draw total_soft_tokens hidden_size in
  let weight := init_in_place init_method weight in
  let weight :=
    if init_from_prompt_text then word_embedding_weights else weight in
  {| hidden_size := hidden_size;
     total_soft_tokens := total_soft_tokens;
     prompt_embeddings_weight := weight;
     indices := seq 0 total_soft_tokens;
     embedding_dropout_p := prompt_embedding_dropout_prob;
     training := true |}.

(** [PromptEmbedding.forward]; [keep] is the dropout draw of this
    call. *)
Definition forward (self : PromptEmbedding) (keep : nat -> nat -> bool)
  : result Tensor :=
  prompt_embeddings ←
    embedding_lookup (prompt_embeddings_weight self) (indices self);
  let prompt_embeddings :=
    Dropout (embedding_dropout_p self) (training self) keep
            prompt_embeddings in
  Ok prompt_embeddings.

(** *** PromptTable *)

Record PromptTable : Type := {
  pt_total_soft_tokens : nat;
  pt_hidden_size : nat;
  prompt_table : gmap string PromptEmbedding;
  (** a dictionary read in insertion order: an association list *)
  task_id_num_to_name : list (Z * string)
}.

(** What a name bound at module level of [prompt_table.py] refers to. *)
Inductive global_obj : Type :=
| GModule
| GFunction
| GClass
| GBool (b : bool)
| GStrList (l : list string).

(** The module-level bindings of [prompt_table.py]: its imports,
    [HAVE_APEX], [__all__] and its two classes. [tensor_parallel] is
    bound only when the apex import succeeds. *)
Definition module_globals (have_apex : bool) : gmap string global_obj :=
  list_to_map
    ([("math", GModule); ("torch", GModule); ("nn", GModule);
      ("init", GModule); ("init_method_normal", GFunction);
      ("Exportable", GClass); ("NeuralModule", GClass);
      ("HAVE_APEX", GBool have_apex);
      ("__all__", GStrList ["PromptTable"%string]);
      ("PromptTable", GClass); ("PromptEmbedding", GClass)]
     ++ (if have_apex then [("tensor_parallel"%string, GModule)] else [])).

(** Reading a name that is not a local variable of the function: the
    module's bindings are searched ([NameError] when there is none; no
    built-in has either of the two names read this way below). *)
Definition load_global (have_apex : bool) (name : string)
  : result global_obj :=
  match module_globals have_apex !! name with
  | Some o => Ok o
  | None => Raise NameError
  end.

(** [x in o] *)
Definition contains (o : global_obj) (x : string) : result bool :=
  match o with
  | GStrList l => Ok (bool_decide (x ∈ l))
  | _ => Raise TypeError
  end.

(** [o.items()]: none of the module-level objects has the method. *)
Definition items (o : global_obj) : result (list (Z * string)) :=
  Raise AttributeError.

(** The loop of [remove_prompt]: the key of the first item whose value
    is [taskname], [None] when there is none. *)
Fixpoint find_task_id_num (its : list (Z * string)) (taskname : string)
  : option Z :=
  match its with
  | [] => None
  | (key, value) :: its' =>
      if decide (value = taskname) then Some key
      else find_task_id_num its' taskname
  end.

(** [del d[k]] on the association list; [k] may be [None], which is
    never a key. *)
Definition del_task_id (d : list (Z * string)) (k : option Z)
  : result (list (Z * string)) :=
  match k with
  | Some key =>
      if bool_decide (key ∈ d.*1)
      then Ok (filter (fun kv => kv.1 ≠ key) d)
      else Raise KeyError
  | None => Raise KeyError
  end.

(** [del d[k]] on the module dictionary. *)
Definition del_prompt (d : gmap string PromptEmbedding) (k : string)
  : result (gmap string PromptEmbedding) :=
  match d !! k with
  | Some _ => Ok (delete k d)
  | None => Raise KeyError
  end.

(** [PromptTable.remove_prompt]. The result pairs the object after the
    call with the outcome of the call. The source reads [prompt_table]
    and [task_id_num_to_name] as bare names. *)
Definition remove_prompt (have_apex : bool) (self : PromptTable)
           (taskname : string) : PromptTable * result unit :=
  match (o ← load_global have_apex "prompt_table"; contains o taskname) with
  | Raise e => (self, Raise e)
  | Ok false => (self, Ok tt)
  | Ok true =>
      match (o ← load_global have_apex "task_id_num_to_name"; items o) with
      | Raise e => (self, Raise e)
      | Ok its =>
          let task_id_num := find_task_id_num its taskname in
          match del_task_id (task_id_num_to_name self) task_id_num with
          | Raise e => (self, Raise e)
          | Ok d =>
              let self :=
                {| pt_total_soft_tokens := pt_total_soft_tokens self;
                   pt_hidden_size := pt_hidden_size self;
                   prompt_table := prompt_table self;
                   task_id_num_to_name := d |} in
              match del_prompt (prompt_table self) taskname with
              | Raise e => (self, Raise e)
              | Ok t =>
                  ({| pt_total_soft_tokens := pt_total_soft_tokens self;
                      pt_hidden_size := pt_hidden_size self;
                      prompt_table := t;
                      task_id_num_to_name := task_id_num_to_name self |},
                   Ok tt)
              end
          end
      end
  end.
End Embedding.

End PromptTable.

(** ** prompt_table.py: the other methods of [PromptTable] *)

Module PromptTableOps.

Import Py PromptTable.

Section Ops.
Variable R : Type.
Variable zero : R.
Variable scale : Q -> R -> R.

(** [init.xavier_normal_], the default [init_method] of
    [PromptEmbedding]. *)
Variable xavier_normal_ : Tensor R -> nat -> nat -> R.

(** [math.ceil(a / b)] for two positive integers, as Python computes it:
    the quotient is taken in floating point. *)
Variable ceil_div : nat -> nat -> Z.

(** [tensor_parallel.broadcast_data(keys, {'text': ids}, datatype)['text']],
    from apex. *)
Variable broadcast_data : list Z -> list Z.

(** The strings [torch.nn.ModuleDict] takes as keys: a key is the name
    of a sub-module, and torch refuses some names. *)
Variable module_name_ok : string -> bool.

(** [self.prompt_table[taskname] = prompt] *)
Definition set_prompt (self : PromptTable R) (taskname : string)
           (prompt : PromptEmbedding R) : result (PromptTable R) :=
  if module_name_ok taskname then
    Ok {| pt_total_soft_tokens := pt_total_soft_tokens R self;
          pt_hidden_size := pt_hidden_size R self;
          prompt_table := <[taskname := prompt]> (prompt_table R self);
          task_id_num_to_name := task_id_num_to_name R self |}
  else Raise KeyError.

(** The outcome of a method that returns nothing: the object after the
    call, and the exception if one was raised. *)
Definition after (self : PromptTable R) (r : result (PromptTable R))
  : PromptTable R * result unit :=
  match r with
  | Ok self' => (self', Ok tt)
  | Raise e => (self, Raise e)
  end.

(** [PromptTable.__init__]. [existing_tasks] is [None], or a list whose
    entries are task names or [None]; [draw k] stands for the random
    initial content of the embedding layer of the task number [k]. A key
    of the module dictionary has to be a string. *)
Definition __init__ (draw : nat -> nat -> nat -> R)
           (existing_tasks : option (list (option string)))
           (total_soft_tokens hidden_size : nat) : result (PromptTable R) :=
  let self :=
    {| pt_total_soft_tokens := total_soft_tokens;
       pt_hidden_size := hidden_size;
       prompt_table := ∅;
       task_id_num_to_name := [] |} in
  match existing_tasks with
  | Some ((Some _ :: _) as tasks) =>
      for_each (imap (fun k taskname => (k, taskname)) tasks)
        (fun item self =>
           match snd item with
           | Some taskname =>
               set_prompt self taskname
                 (PromptEmbedding__init__ R (draw (fst item)) false
                    (pt_hidden_size R self) (pt_total_soft_tokens R self)
                    [] xavier_normal_ 0%Q)
           | None => Raise TypeError
           end)
        self
  | _ => Ok self
  end.

(** [d[k]] on the dictionary kept as an association list. *)
Fixpoint assoc (d : list (Z * string)) (k : Z) : result string :=
  match d with
  | [] => Raise KeyError
  | (key, value) :: d' =>
      if decide (key = k) then Ok value else assoc d' k
  end.

(** [PromptTable.forward]; [task_id_num] is the integer the tensor holds,
    [keep] the dropout draw of the call. *)
Definition forward (self : PromptTable R) (task_id_num : Z)
           (keep : nat -> nat -> bool) : result (Tensor R) :=
  taskname ← assoc (task_id_num_to_name R self) task_id_num;
  prompt ← getitem (prompt_table R self) taskname;
  PromptTable.forward R zero scale prompt keep.

(** [init_prompt_from_random] *)
Definition init_prompt_from_random (draw : nat -> nat -> R)
           (self : PromptTable R) (taskname : string)
  : PromptTable R * result unit :=
  after self
    (set_prompt self taskname
       (PromptEmbedding__init__ R draw false (pt_hidden_size R self)
          (pt_total_soft_tokens R self) [] xavier_normal_ 0%Q)).

(** [ids * num_reps] on a list: no copy for a factor below 1. *)
Definition repeat_list {A} (ids : list A) (num_reps : Z) : list A :=
  mjoin (replicate (Z.to_nat num_reps) ids).

(** The first lines of [init_prompt_from_text]: the token ids are cut, or
    repeated and cut, to [total_soft_tokens] of them. *)
Definition fit_token_ids (init_token_ids : list Z) (total_soft_tokens : nat)
  : result (list Z) :=
  let num_text_tokens := length init_token_ids in
  init_token_ids ←
    (if (total_soft_tokens <? num_text_tokens)%nat
     then Ok (take total_soft_tokens init_token_ids)
     else if (num_text_tokens <? total_soft_tokens)%nat
          then if (num_text_tokens =? 0)%nat then Raise ZeroDivisionError
               else
                 let num_reps := ceil_div total_soft_tokens num_text_tokens in
                 Ok (repeat_list init_token_ids num_reps)
          else Ok init_token_ids);
  Ok (take total_soft_tokens init_token_ids).

(** [init_prompt_from_text]: the object after the call and the outcome of
    the call. [tensor_parallel] is read as a name of the module. *)
Definition init_prompt_from_text (have_apex : bool)
           (draw : nat -> nat -> R) (self : PromptTable R)
           (taskname : string) (init_token_ids : list Z)
           (word_embeddings : list Z -> result (Tensor R))
  : PromptTable R * result unit :=
  after self
    (init_token_ids ←
       fit_token_ids init_token_ids (pt_total_soft_tokens R self);
     _ ← load_global have_apex "tensor_parallel";
     let init_token_ids := broadcast_data init_token_ids in
     word_embedding_weights ← word_embeddings init_token_ids;
     set_prompt self taskname
       (PromptEmbedding__init__ R draw true (pt_hidden_size R self)
          (pt_total_soft_tokens R self) word_embedding_weights
          xavier_normal_ 0%Q)).

(** [add_prompt_from_p_tuning_encoder] *)
Definition add_prompt_from_p_tuning_encoder (draw : nat -> nat -> R)
           (self : PromptTable R) (taskname : string)
           (soft_prompt_embeddings : Tensor R)
  : PromptTable R * result unit :=
  after self
    (set_prompt self taskname
       (PromptEmbedding__init__ R draw true (pt_hidden_size R self)
          (pt_total_soft_tokens R self) soft_prompt_embeddings
          xavier_normal_ 0%Q)).

(** The objects a program gets from [__init__] by calls of the methods of
    the class. *)
Inductive reachable : PromptTable R -> Prop :=
| reach_init draw existing_tasks total_soft_tokens hidden_size self :
    __init__ draw existing_tasks total_soft_tokens hidden_size = Ok self ->
    reachable self
| reach_random draw self taskname :
    reachable self ->
    reachable (fst (init_prompt_from_random draw self taskname))
| reach_text have_apex draw self taskname init_token_ids word_embeddings :
    reachable self ->
    reachable (fst (init_prompt_from_text have_apex draw self taskname
                      init_token_ids word_embeddings))
| reach_p_tuning draw self taskname soft_prompt_embeddings :
    reachable self ->
    reachable (fst (add_prompt_from_p_tuning_encoder draw self taskname
                      soft_prompt_embeddings))
| reach_remove have_apex self taskname :
    reachable self ->
    reachable (fst (remove_prompt R have_apex self taskname)).

End Ops.

End PromptTableOps.
(** ** Notions used in the statements of Part II *)

Module Aux.

Section Sorting.
Context {A K : Type} (leb : K -> K -> bool) (key : A -> K).

(** The leftmost element of smallest key. *)
Fixpoint first_min (l : list A) : option A :=
  match l with
  | [] => None
  | x :: l' =>
      match first_min l' with
      | None => Some x
      | Some m => if leb (key x) (key m) then Some x else Some m
      end
  end.

Definition key_le (a b : A) : Prop := leb (key a) (key b) = true.
End Sorting.

(** [d[k1][k2]], read. *)
Definition get2 `{Countable K1} `{Countable K2} {V}
           (d : gmap K1 (gmap K2 V)) (k1 : K1) (k2 : K2) : option V :=
  d !! k1 ≫= (.!! k2).

(** The values an array holds at the positions where a second array holds
    [v]. *)
Definition mapped_to {A} (xs : list A) (arr : list Z) (v : Z) : list A :=
  fst <$> filter (fun xa => snd xa = v) (zip xs arr).

(** Column [k] of a matrix given by its rows. *)
Definition column {A} (d : A) (k : nat) (m : list (list A)) : list A :=
  (fun row => nth k row d) <$> m.

(** [mode] returns a value that occurs most often. *)
Definition is_mode (m : Z) (data : list Z) : Prop :=
  m ∈ data /\ forall y, (Py.count_of y data <= Py.count_of m data)%nat.

(** The ratio the first sort of [Punctuate.select_best_label] compares,
    for an item whose count is not 0. *)
Definition ratio (x : string * (Z * Z)) : Q :=
  (inject_Z (- snd (snd x)) / inject_Z (fst (snd x)))%Q.

(** The transducer [f] maps exactly the one-character strings over the
    class [P], each to itself. *)
Definition char_class (f : Pynini.Fst) (P : ascii -> bool) : Prop :=
  forall i o,
    Pynini.transduces f i o <-> exists c, P c = true /\ i = [c] /\ o = [c].

(** [Pynini.run] and [Pynini.transduces] agree on [f]. *)
Definition run_agrees (f : Pynini.Fst) : Prop :=
  forall i o r,
    (o, r) ∈ Pynini.run f i
    <-> exists i1, i = i1 ++ r /\ Pynini.transduces f i1 o.

(** The transducers on which [Pynini.run] is complete: under a closure,
    no transducer reads the empty string. *)
Fixpoint productive (f : Pynini.Fst) : Prop :=
  match f with
  | Pynini.accep _ | Pynini.chars _ => True
  | Pynini.concat f g | Pynini.difference f g => productive f /\ productive g
  | Pynini.closure f _ =>
      productive f /\ forall o, ~ Pynini.transduces f [] o
  | Pynini.delete f => productive f
  end.

End Aux.

(** ** Concrete objects on which the statements of Part II are run *)

Module Samples.

(** Integer entries: [x * 0] and [x + y]. *)
Definition mul_zero (x : Z) : Z := x * 0.

(** A buffer of two time steps holding 1 and 2, for one batch element and
    one feature. *)
Definition buffer12 : StreamWrapper.Tensor Z :=
  {| StreamWrapper.batch := 1; StreamWrapper.time := 2;
     StreamWrapper.feat := 1;
     StreamWrapper.at_ := fun _ i _ => if (i =? 0)%nat then 1 else 2 |}.

(** One time step holding 3. *)
Definition step3 : StreamWrapper.Tensor Z :=
  {| StreamWrapper.batch := 1; StreamWrapper.time := 1;
     StreamWrapper.feat := 1;
     StreamWrapper.at_ := fun _ _ _ => 3 |}.

(** A wrapped layer: the sum of the entries of the first batch element and
    feature over time. *)
Definition sum_layer : StreamWrapper.Callable Z Z :=
  fun t _ =>
    Py.Ok (foldr Z.add 0
             (map (fun i => StreamWrapper.at_ Z t 0%nat i 0%nat)
                  (seq 0 (StreamWrapper.time Z t)))).

(** A built wrapper in internal-state mode, one sample per call, with a
    ring buffer of two time steps. *)
Definition wrapper : StreamWrapper.StreamWrapper Z Z :=
  {| StreamWrapper.inner_module := sum_layer;
     StreamWrapper.inference_batch_size := 1;
     StreamWrapper.mode := StreamWrapper.STREAM_INTERNAL_STATE_INFERENCE;
     StreamWrapper.pad_time_dim := None;
     StreamWrapper.state_shape := Some [1; 2; 1]%nat;
     StreamWrapper.ring_buffer_size_in_time_dim := Some 2%nat;
     StreamWrapper.samplewise_inference := true;
     StreamWrapper.stride := 1;
     StreamWrapper.built := true;
     StreamWrapper.states := Some buffer12;
     StreamWrapper.input_state := None;
     StreamWrapper.output_state := None |}.

(** The branches left open in [StreamWrapper], closed by a failure. *)
Definition unreached (self : StreamWrapper.StreamWrapper Z Z)
           (inputs : list (StreamWrapper.Tensor Z))
  : StreamWrapper.outcome Z Z :=
  (self, Py.Raise Py.TypeError).

(** Integer entries for the embeddings, with the integer mean. *)
Definition int_mean (xs : list Z) : Z :=
  foldr Z.add 0 xs / Z.of_nat (length xs).

(** An iteration order for sets: first occurrences, in order. *)
Definition first_occurrences (l : list Z) : list Z := remove_dups l.

(** Two scales, one session ["s"] with three base segments labelled 0, 1, 1
    that map to the longer segments 0, 0, 1. *)
Definition lines : list (ClusterEmbedding.Line unit) :=
  [ {| ClusterEmbedding.line_uniq_id := "s"; ClusterEmbedding.line_stt := tt;
       ClusterEmbedding.line_end := tt; ClusterEmbedding.line_label := 0 |};
    {| ClusterEmbedding.line_uniq_id := "s"; ClusterEmbedding.line_stt := tt;
       ClusterEmbedding.line_end := tt; ClusterEmbedding.line_label := 1 |};
    {| ClusterEmbedding.line_uniq_id := "s"; ClusterEmbedding.line_stt := tt;
       ClusterEmbedding.line_end := tt; ClusterEmbedding.line_label := 1 |} ].

Definition embeddings : gmap Z (gmap string (ClusterEmbedding.EmbTensor Z)) :=
  {[ 0 := {[ "s"%string := [[10; 20]; [30; 40]] ]};
     1 := {[ "s"%string := [[1; 2]; [3; 4]; [5; 8]] ]} ]}.

Definition scale_mapping : gmap string (gmap Z (list Z)) :=
  {[ "s"%string := {[ 0 := [0; 0; 1] ]} ]}.

Definition speaker_mapping : gmap string (gmap string string) :=
  {[ "s"%string := {[ "speaker_a"%string := "speaker_0"%string ]} ]}.

(** What the loop over [lines] collects, and the labels assigned from it
    at the two scales. *)
Definition base_labels : gmap string (list (ClusterEmbedding.BaseEntry unit)) :=
  {[ "s"%string := [(tt, tt, 0); (tt, tt, 1); (tt, tt, 1)] ]}.

Definition all_labels : gmap Z (gmap string (list Z)) :=
  {[ 0 := {[ "s"%string := [0; 1] ]}; 1 := {[ "s"%string := [0; 1; 1] ]} ]}.

(** One scale, one session with two segments labelled 0 and 5. *)
Definition lines05 : list (ClusterEmbedding.Line unit) :=
  [ {| ClusterEmbedding.line_uniq_id := "s"; ClusterEmbedding.line_stt := tt;
       ClusterEmbedding.line_end := tt; ClusterEmbedding.line_label := 0 |};
    {| ClusterEmbedding.line_uniq_id := "s"; ClusterEmbedding.line_stt := tt;
       ClusterEmbedding.line_end := tt; ClusterEmbedding.line_label := 5 |} ].

Definition embeddings05
  : gmap Z (gmap string (ClusterEmbedding.EmbTensor Z)) :=
  {[ 0 := {[ "s"%string := [[1; 2]; [3; 4]] ]} ]}.

Definition scale_mapping05 : gmap string (gmap Z (list Z)) :=
  {[ "s"%string := ∅ ]}.

End Samples.
(** ** Further notions used in the statements of Part II *)

Module Spec.

Section Lexicographic.
Context {A K1 K2 : Type}.
Context (leb1 : K1 -> K1 -> bool) (key1 : A -> K1).
Context (leb2 : K2 -> K2 -> bool) (key2 : A -> K2).

(** [x] comes no later than [y] when the items are compared by [key2]
    first and, for equal [key2], by [key1]. *)
Definition lex_leb (x y : A) : bool :=
  if leb2 (key2 x) (key2 y)
  then (if leb2 (key2 y) (key2 x) then leb1 (key1 x) (key1 y) else true)
  else false.
End Lexicographic.

(** The earlier of two items, and of two optional items. *)
Definition earlier {A K} (leb : K -> K -> bool) (key : A -> K) (a b : A)
  : A :=
  if leb (key a) (key b) then a else b.

Definition earlier_opt {A K} (leb : K -> K -> bool) (key : A -> K)
           (a b : option A) : option A :=
  match a, b with
  | None, r | r, None => r
  | Some a, Some b => Some (earlier leb key a b)
  end.

(** The order in which [Punctuate.select_best_label] ranks two items of a
    vote dictionary: by count, then by score per vote. *)
Definition ranks_before (x y : string * (Z * Z)) : bool :=
  lex_leb Qle_bool Aux.ratio Z.leb Punctuate.key_count x y.

(** The sum of the counts of a vote dictionary, and the sum of its
    scores. *)
Definition total_count (c : Punctuate.votes) : Z :=
  foldr Z.add 0 ((fun x => fst (snd x)) <$> c).

Definition total_score (c : Punctuate.votes) : Z :=
  foldr Z.add 0 ((fun x => snd (snd x)) <$> c).

(** A vote: the label, the number of words of the segment and the index of
    the word in the segment. *)
Definition vote : Type := (string * Z * Z)%type.

(** The dictionary after a list of votes, cast from the left. *)
Definition cast_votes (c : Punctuate.votes) (l : list vote)
  : Punctuate.votes :=
  foldl (fun c v => Punctuate.update_label_counter c (fst (fst v))
                      (snd (fst v)) (snd v)) c l.

(** A vote dictionary read as a finite map. *)
Definition as_dict (c : Punctuate.votes) : gmap string (Z * Z) :=
  list_to_map c.

End Spec.
(** ** Notions used in the statements on [ClusterEmbedding] *)

Module ClusterSpec.

(** The entries [[stt, end, label]] of the lines of the session
    [uniq_id], in the order of the lines. *)
Definition session_entries {Time} (clus_label : list (ClusterEmbedding.Line Time))
           (uniq_id : string) : list (ClusterEmbedding.BaseEntry Time) :=
  (fun line => (ClusterEmbedding.line_stt Time line,
                ClusterEmbedding.line_end Time line,
                ClusterEmbedding.line_label Time line))
    <$> filter (fun line => ClusterEmbedding.line_uniq_id Time line = uniq_id)
               clus_label.

(** No two keys of the dictionary have the same value. *)
Definition one_to_one (d : gmap string string) : Prop :=
  forall k k' v, d !! k = Some v -> d !! k' = Some v -> k = k'.

End ClusterSpec.
(** ** Further concrete objects *)

Module SamplesMore.

(** [Samples.wrapper] with other settings: several samples per call, and
    the state kept outside. *)
Definition with_mode (mode : StreamWrapper.StreamInferenceMode)
           (samplewise_inference : bool)
  : StreamWrapper.StreamWrapper Z Z :=
  {| StreamWrapper.inner_module := Samples.sum_layer;
     StreamWrapper.inference_batch_size := 1;
     StreamWrapper.mode := mode;
     StreamWrapper.pad_time_dim := None;
     StreamWrapper.state_shape := Some [1; 2; 1]%nat;
     StreamWrapper.ring_buffer_size_in_time_dim := Some 2%nat;
     StreamWrapper.samplewise_inference := samplewise_inference;
     StreamWrapper.stride := 1;
     StreamWrapper.built := true;
     StreamWrapper.states := Some Samples.buffer12;
     StreamWrapper.input_state := Some Samples.buffer12;
     StreamWrapper.output_state := None |}.

(** Three time steps holding 3, 4 and 5. *)
Definition chunk345 : StreamWrapper.Tensor Z :=
  {| StreamWrapper.batch := 1; StreamWrapper.time := 3;
     StreamWrapper.feat := 1;
     StreamWrapper.at_ := fun _ i _ => 3 + Z.of_nat i |}.

(** Tensors of rank 3, no layer that is global in time, and a rest of
    [_non_streaming] that fails. *)
Definition rank3 (t : StreamWrapper.Tensor Z) : Py.result nat := Py.Ok 3%nat.

Definition not_global (m : StreamWrapper.Callable Z Z) : bool := false.

Definition no_padding (use_one_step : bool) (rank : nat)
           (self : StreamWrapper.StreamWrapper Z Z)
           (inputs : list (StreamWrapper.Tensor Z))
  : StreamWrapper.outcome Z Z :=
  (self, Py.Raise Py.TypeError).

End SamplesMore.
(* ===================================================================== *)
(** * Part II: properties                                                 *)
(* ===================================================================== *)

(** ** Facts about the stable sort *)

Section SortedFacts.
Context {A K : Type} (leb : K -> K -> bool) (key : A -> K).
Hypothesis leb_total : forall a b, leb a b = true \/ leb b a = true.
Hypothesis leb_trans :
  forall a b c, leb a b = true -> leb b c = true -> leb a c = true.

Lemma head_insert_by x l :
  head (Py.insert_by leb key x l)
  = match head l with
    | None => Some x
    | Some y => if leb (key x) (key y) then Some x else Some y
    end.
Proof. destruct l as [|y l]; cbn; [done|]. by destruct (leb (key x) (key y)). Qed.

Lemma head_sorted l : head (Py.sorted leb key l) = Aux.first_min leb key l.
Proof.
  induction l as [|x l IH]; cbn; [done|].
  fold (Py.sorted leb key l). by rewrite head_insert_by, IH.
Qed.

Lemma insert_by_perm x l : Py.insert_by leb key x l ≡ₚ x :: l.
Proof.
  induction l as [|y l IH]; cbn; [done|].
  destruct (leb (key x) (key y)); [done|].
  rewrite IH. apply Permutation_swap.
Qed.

Lemma sorted_perm l : Py.sorted leb key l ≡ₚ l.
Proof.
  induction l as [|x l IH]; cbn; [done|].
  fold (Py.sorted leb key l). by rewrite insert_by_perm, IH.
Qed.

Lemma insert_by_sorted x l :
  StronglySorted (Aux.key_le leb key) l -> StronglySorted (Aux.key_le leb key) (Py.insert_by leb key x l).
Proof.
  induction 1 as [|y l Hl IH Hy]; cbn.
  - repeat constructor.
  - destruct (leb (key x) (key y)) eqn:E.
    + constructor; [by constructor|].
      constructor; [exact E|].
      eapply Forall_impl; [exact Hy|]. intros z Hz. by eapply leb_trans.
    + constructor; [exact IH|].
      rewrite insert_by_perm. constructor; [|exact Hy].
      destruct (leb_total (key x) (key y)); [congruence|done].
Qed.

Lemma sorted_sorted l : StronglySorted (Aux.key_le leb key) (Py.sorted leb key l).
Proof.
  induction l as [|x l IH]; cbn; [constructor|].
  by apply insert_by_sorted.
Qed.

(** The first minimum splits the list: strictly larger keys before it,
    keys at least as large after it. *)
Lemma first_min_split l m :
  Aux.first_min leb key l = Some m ->
  exists pre post,
    l = pre ++ m :: post
    /\ Forall (fun y => leb (key y) (key m) = false) pre
    /\ Forall (fun y => leb (key m) (key y) = true) post.
Proof.
  revert m. induction l as [|x l IH]; intros m; cbn; [done|].
  destruct (Aux.first_min leb key l) as [m'|] eqn:E.
  - destruct (IH m' eq_refl) as (pre & post & -> & Hpre & Hpost).
    destruct (leb (key x) (key m')) eqn:Ex; intros [= <-].
    + exists [], (pre ++ m' :: post). split; [done|]. split; [constructor|].
      apply Forall_app. split.
      * eapply Forall_impl; [exact Hpre|]. intros y Hy. cbn in Hy.
        destruct (leb_total (key m') (key y)) as [H|H]; [|congruence].
        by eapply leb_trans.
      * constructor; [done|].
        eapply Forall_impl; [exact Hpost|]. intros y Hy. by eapply leb_trans.
    + exists (x :: pre), post. split; [done|]. split; [|done].
      by constructor.
  - intros [= <-]. destruct l as [|y l]; [|cbn in E; repeat case_match; discriminate].
    exists [], []. repeat split; constructor.
Qed.

Lemma first_min_nonempty l : l <> [] -> is_Some (Aux.first_min leb key l).
Proof.
  destruct l as [|x l]; [done|]. intros _. cbn.
  destruct (Aux.first_min leb key l) as [m|]; [|by eexists].
  destruct (leb (key x) (key m)); by eexists.
Qed.

End SortedFacts.

(** Sorting the items decorated with their keys and dropping the keys
    again is sorting by key. *)
Lemma sorted_decorated {A K : Type} (leb : K -> K -> bool) (key : A -> K)
      (l : list A) :
  snd <$> Py.sorted leb fst ((fun x => (key x, x)) <$> l)
  = Py.sorted leb key l.
Proof.
  induction l as [|x l IH]; cbn; [done|].
  fold (Py.sorted leb key l).
  fold (Py.sorted leb fst ((fun x => (key x, x)) <$> l)).
  rewrite <- IH. clear IH.
  assert (Hdec : Forall (fun e => fst e = key (snd e))
                   (Py.sorted leb fst ((fun x => (key x, x)) <$> l))).
  { rewrite sorted_perm. apply Forall_fmap, Forall_true. done. }
  induction Hdec as [|e L He _ IHL]; cbn; [done|].
  rewrite He. destruct (leb (key x) (key e.2)); cbn; [done|].
  by rewrite IHL.
Qed.

(** ** Facts about loops, dictionaries and arrays *)

Section PyFacts.
Import Py.

(** A loop whose body keeps an invariant and never raises runs to its end
    and establishes the invariant for the whole list. [P done s] speaks
    about the items visited so far. *)
Lemma for_each_inv {A S} (P : list A -> S -> Prop) (body : A -> S -> result S)
      (l : list A) (s0 : S) :
  P [] s0 ->
  (forall done x rest s,
      l = done ++ x :: rest -> P done s ->
      exists s', body x s = Ok s' /\ P (done ++ [x]) s') ->
  exists s', for_each l body s0 = Ok s' /\ P l s'.
Proof.
  intros H0 Hstep.
  assert (forall rest done s, l = done ++ rest -> P done s ->
          exists s', for_each rest body s = Ok s' /\ P l s') as H.
  { induction rest as [|x rest IH]; intros done s El Hs.
    - rewrite app_nil_r in El. subst. eauto.
    - destruct (Hstep done x rest s El Hs) as (s' & Hb & Hs').
      cbn. rewrite Hb. cbn. apply (IH (done ++ [x])); [|done].
      by rewrite <- app_assoc. }
  by apply (H l []).
Qed.

Lemma result_bind_ok {A B} (a : A) (k : A -> result B) : Ok a ≫= k = k a.
Proof. reflexivity. Qed.

Lemma getitem_Some `{Countable K} {V} (d : gmap K V) k v :
  d !! k = Some v -> getitem d k = Ok v.
Proof. intros E. unfold getitem. by rewrite E. Qed.

Lemma index_Some {A} (xs : list A) i x : xs !! i = Some x -> index xs i = Ok x.
Proof. intros E. unfold index. by rewrite E. Qed.

Lemma mapM_ok {A B} (f : A -> result B) (g : A -> B) (l : list A) :
  Forall (fun x => f x = Ok (g x)) l -> mapM f l = Ok (g <$> l).
Proof.
  induction 1 as [|x l Hx _ IH]; [done|].
  cbn. rewrite Hx. cbn. unfold mbind, result_bind in *. rewrite IH. done.
Qed.

Lemma mapM_ok_inv {A B} (f : A -> result B) (l : list A) (k : list B) :
  mapM f l = Ok k -> Forall2 (fun x y => f x = Ok y) l k.
Proof.
  revert k. induction l as [|x l IH]; intros k; cbn.
  - intros [= <-]. constructor.
  - destruct (f x) as [y|e] eqn:Ex; cbn; [|done].
    unfold mbind, result_bind in *.
    destruct (mapM f l) as [k'|e]; cbn; [|done].
    intros [= <-]. constructor; [done|]. by apply IH.
Qed.

Lemma setitem2_ok `{Countable K1} `{Countable K2} {V}
      (d : gmap K1 (gmap K2 V)) k1 k2 v :
  is_Some (d !! k1) ->
  exists d',
    setitem2 d k1 k2 v = Ok d'
    /\ (forall k, is_Some (d' !! k) <-> is_Some (d !! k))
    /\ Aux.get2 d' k1 k2 = Some v
    /\ (forall k1' k2', (k1', k2') <> (k1, k2) ->
                        Aux.get2 d' k1' k2' = Aux.get2 d k1' k2').
Proof.
  intros [inner Hinner]. unfold setitem2. rewrite Hinner.
  eexists. split; [done|]. split; [|split].
  - intros k. destruct (decide (k = k1)) as [->|Hne].
    + rewrite lookup_insert_eq, Hinner. split; eauto.
    + by rewrite lookup_insert_ne.
  - unfold Aux.get2. rewrite lookup_insert_eq. cbn. by rewrite lookup_insert_eq.
  - intros k1' k2' Hne. unfold Aux.get2.
    destruct (decide (k1' = k1)) as [->|Hne1].
    + rewrite lookup_insert_eq, Hinner. cbn.
      rewrite lookup_insert_ne; [done|]. congruence.
    + by rewrite lookup_insert_ne.
Qed.

Lemma mask_select_eq_mask {A} (xs : list A) (arr : list Z) (v : Z) :
  length arr = length xs ->
  mask_select xs (eq_mask arr v) = Ok (Aux.mapped_to xs arr v).
Proof.
  intros Hlen. unfold mask_select, eq_mask.
  rewrite length_fmap, Hlen, Nat.eqb_refl. f_equal. unfold Aux.mapped_to.
  revert arr Hlen. induction xs as [|x xs IH]; intros [|a arr] Hlen;
    try done.
  cbn [fmap list_fmap zip zip_with]. rewrite !filter_cons. cbn [snd].
  injection Hlen as Hlen. specialize (IH arr Hlen).
  cbn [zip] in IH.
  destruct (decide (bool_decide (a = v) = true)) as [E|E],
           (decide (a = v)) as [E'|E']; cbn; try (by rewrite IH).
  - by apply bool_decide_eq_true in E.
  - by apply (bool_decide_eq_true_2 _) in E'.
Qed.

Lemma mapped_to_nonempty {A} (xs : list A) (arr : list Z) (v : Z) :
  length arr = length xs -> v ∈ arr -> Aux.mapped_to xs arr v <> [].
Proof.
  intros Hlen Hv. unfold Aux.mapped_to.
  apply list_elem_of_lookup in Hv as [i Hi].
  destruct (lookup_lt_is_Some_2 xs i) as [x Hx].
  { rewrite <- Hlen. by eapply lookup_lt_Some. }
  assert ((x, v) ∈ filter (fun xa => snd xa = v) (zip xs arr)) as Hin.
  { apply list_elem_of_filter. split; [done|].
    apply list_elem_of_lookup. exists i. by apply lookup_zip_with_Some; eauto. }
  intros E. apply fmap_nil_inv in E. rewrite E in Hin.
  by apply elem_of_nil in Hin.
Qed.

Lemma count_of_not_in y data : y ∉ data -> count_of y data = 0%nat.
Proof.
  intros Hy. unfold count_of.
  induction data as [|x data IH]; [done|].
  rewrite filter_cons. apply not_elem_of_cons in Hy as [Hne Hy].
  destruct (decide (x = y)); [congruence|]. by apply IH.
Qed.

Lemma mode_ok data : data <> [] -> exists m, mode data = Ok m /\ Aux.is_mode m data.
Proof.
  destruct data as [|x rest]; [done|]. intros _.
  set (data := x :: rest). eexists. split; [reflexivity|].
  assert (forall l best,
             best ∈ data ->
             let m := foldl (fun best y =>
                               if (count_of best data <? count_of y data)%nat
                               then y else best) best l in
             m ∈ data
             /\ (count_of best data <= count_of m data)%nat
             /\ forall y, y ∈ l ->
                          (count_of y data <= count_of m data)%nat) as H.
  { induction l as [|z l IH]; intros best Hbest; cbn [foldl].
    - split; [done|]. split; [lia|]. by intros y ?%elem_of_nil.
    - destruct (Nat.ltb_spec (count_of best data) (count_of z data)).
      + assert (z ∈ data) as Hz.
        { destruct (decide (z ∈ data)) as [|Hn]; [done|].
          rewrite (count_of_not_in z data Hn) in *. lia. }
        destruct (IH z Hz) as (H1 & H2 & H3). split; [done|].
        split; [lia|]. intros y [->|Hy]%elem_of_cons; [done|by apply H3].
      + destruct (IH best Hbest) as (H1 & H2 & H3). split; [done|].
        split; [done|]. intros y [->|Hy]%elem_of_cons; [lia|by apply H3]. }
  destruct (H rest x (list_elem_of_here _ _)) as (H1 & H2 & H3).
  split; [done|]. intros y.
  destruct (decide (y ∈ data)) as [[->|Hy]%elem_of_cons|Hn].
  - done.
  - by apply H3.
  - rewrite (count_of_not_in y data Hn). lia.
Qed.

End PyFacts.
(** ** StreamWrapper *)

Section StreamWrapperFacts.
Import Py StreamWrapper.
Context {R Out : Type} (mul_zero : R -> R) (add : R -> R -> R).
Context (build_states_body forward_other_modes :
           StreamWrapper R Out -> list (Tensor R) -> outcome R Out).

Local Notation "'forward'" := (forward R mul_zero add Out build_states_body
                             forward_other_modes).

(** No attribute of the object is called [cell]. *)
Lemma getattr_cell (self : StreamWrapper R Out) :
  getattr_callable R Out self "cell" = Raise AttributeError.
Proof. reflexivity. Qed.

Lemma broadcast_same n : broadcast n n = Ok n.
Proof. unfold broadcast. by rewrite Nat.eqb_refl. Qed.

Lemma pick_in_range n i : (i < n)%nat -> pick n i = i.
Proof.
  unfold pick. intros Hi. destruct (Nat.eqb_spec n 1) as [->|_]; lia.
Qed.

(** In internal-state mode a built object hands the call over to
    [_streaming_internal_state]. *)
Lemma forward_internal (self : StreamWrapper R Out) inputs :
  built R Out self = true ->
  mode R Out self = STREAM_INTERNAL_STATE_INFERENCE ->
  forward self inputs
  = _streaming_internal_state R mul_zero add Out self inputs.
Proof.
  intros Hbuilt Hmode. unfold StreamWrapper.forward, _build_states.
  by rewrite Hbuilt, Hmode.
Qed.

(** An input with more or fewer than one time step is refused, and the
    object is left as it was. *)
Lemma forward_time_not_one (self : StreamWrapper R Out) input rest :
  built R Out self = true ->
  mode R Out self = STREAM_INTERNAL_STATE_INFERENCE ->
  samplewise_inference R Out self = true ->
  time R input <> 1%nat ->
  forward self (input :: rest) = (self, Raise ValueError).
Proof.
  intros Hbuilt Hmode Hsw Ht. rewrite forward_internal by done.
  unfold _streaming_internal_state. rewrite Hsw.
  by destruct (Nat.eqb_spec (time R input) 1).
Qed.

(** One streaming step on a buffer of [size] time steps: the buffer is
    shifted by one step and the input is appended, and then the call ends
    in [AttributeError], at [self.cell]. *)
Lemma forward_one_step (self : StreamWrapper R Out) input rest size s :
  (forall x m, add (mul_zero x) m = m) ->
  built R Out self = true ->
  mode R Out self = STREAM_INTERNAL_STATE_INFERENCE ->
  samplewise_inference R Out self = true ->
  ring_buffer_size_in_time_dim R Out self = Some size ->
  (1 <= size)%nat ->
  states R Out self = Some s ->
  time R s = size ->
  batch R input = batch R s ->
  feat R input = feat R s ->
  time R input = 1%nat ->
  exists s',
    forward self (input :: rest)
    = (set_states R Out self s', Raise AttributeError)
    /\ batch R s' = batch R s /\ time R s' = size /\ feat R s' = feat R s
    /\ forall b i f,
        (b < batch R s)%nat -> (i < size)%nat -> (f < feat R s)%nat ->
        at_ R s' b i f
        = if (i <? size - 1)%nat then at_ R s b (i + 1)%nat f
          else at_ R input b 0%nat f.
Proof.
  intros Hring Hbuilt Hmode Hsw Hsize Hpos Hs Hts Hb Hf Hti.
  rewrite forward_internal by done.
  unfold _streaming_internal_state. rewrite Hsw, Hti, Hsize. cbn.
  unfold getattr_states. rewrite Hs. cbn.
  unfold cat_time. cbn. rewrite Hb, Hf, !Nat.eqb_refl. cbn.
  unfold plus. cbn. rewrite Hti, Hts.
  replace (Nat.min size size - 1 + 1)%nat with size by lia.
  rewrite !broadcast_same. cbn.
  eexists. split; [reflexivity|]. cbn.
  repeat split.
  intros b i f Hbr Hir Hfr.
  rewrite !pick_in_range by lia. rewrite Hring.
  replace (Nat.min size size - 1)%nat with (size - 1)%nat by lia.
  destruct (size - 1)%nat as [|m'] eqn:E.
  - by replace (i - 0)%nat with 0%nat by lia.
  - destruct (Nat.leb_spec i m'); [done|].
    by replace (i - S m')%nat with 0%nat by lia.
Qed.

End StreamWrapperFacts.



(** The buffer after that call holds 2 and 3. *)
Example wrapper_buffer_after_step :
  let self := fst (StreamWrapper.forward Z Samples.mul_zero Z.add Z
                     Samples.unreached Samples.unreached Samples.wrapper
                     [Samples.step3]) in
  (fun t => (StreamWrapper.time Z t,
             StreamWrapper.at_ Z t 0%nat 0%nat 0%nat,
             StreamWrapper.at_ Z t 0%nat 1%nat 0%nat))
    <$> StreamWrapper.states Z Z self
  = Some (2%nat, 2, 3).
Proof. reflexivity. Qed.
(** ** Punctuation and capitalisation script *)

Example split_example :
  Py.split "  ab c	de  " = ["ab"; "c"; "de"]%string.
Proof. reflexivity. Qed.

Example split_into_segments_two_queries :
  Punctuate.split_into_segments ["a b c"; "d e f g h"]%string 2 1
  = Some (["a b"; "e f"; "f g"]%string, [0; 1; 1]%nat, [0; 1; 2]%nat).
Proof. reflexivity. Qed.

Example select_best_label_example :
  Punctuate.select_best_label
    [("a", (2, 1)); ("b", (3, 1)); ("c", (3, 2)); ("d", (3, 2))]%string
  = Py.Ok "c"%string.
Proof. vm_compute. reflexivity. Qed.

Section Voting.
Import Py Punctuate.

Lemma Qle_bool_total a b : Qle_bool a b = true \/ Qle_bool b a = true.
Proof.
  rewrite !Qle_bool_iff. destruct (Qlt_le_dec a b) as [H|H]; [left|right; done].
  by apply Qlt_le_weak.
Qed.

Lemma Qle_bool_trans a b c :
  Qle_bool a b = true -> Qle_bool b c = true -> Qle_bool a c = true.
Proof. rewrite !Qle_bool_iff. apply Qle_trans. Qed.

Lemma Zleb_total a b : (a <=? b) = true \/ (b <=? a) = true.
Proof. rewrite !Z.leb_le. lia. Qed.

Lemma Zleb_trans a b c :
  (a <=? b) = true -> (b <=? c) = true -> (a <=? c) = true.
Proof. rewrite !Z.leb_le. lia. Qed.

Lemma update_label_counter_counts counter lbl n w :
  Forall (fun x => 0 < fst (snd x)) counter ->
  Forall (fun x => 0 < fst (snd x)) (update_label_counter counter lbl n w).
Proof.
  induction 1 as [|[l [c s]] counter Hx Hc IH]; cbn.
  - repeat constructor.
  - destruct (decide (l = lbl)); constructor; cbn in *; try done. lia.
Qed.

Lemma update_label_counter_keys counter lbl n w :
  NoDup counter.*1 -> NoDup (update_label_counter counter lbl n w).*1.
Proof.
  assert (Hin : forall c l, l ∈ (update_label_counter c lbl n w).*1 ->
                            l = lbl \/ l ∈ c.*1).
  { induction c as [|[l0 [c0 s0]] c IH]; cbn; intros l Hl.
    - left. by apply list_elem_of_singleton in Hl.
    - destruct (decide (l0 = lbl)); cbn in *; [by right|].
      apply elem_of_cons in Hl as [->|Hl]; [right; left|].
      destruct (IH l Hl); [by left|right; by right]. }
  induction counter as [|[l [c s]] counter IH]; cbn; intros Hnd.
  - repeat constructor. set_solver.
  - apply NoDup_cons in Hnd as [Hl Hnd].
    destruct (decide (l = lbl)); cbn; apply NoDup_cons.
    + done.
    + split; [|by apply IH]. intros Hl'. destruct (Hin _ _ Hl'); done.
Qed.

(** What is accumulated is a dictionary (no label twice) whose counts are
    all positive. *)
Lemma accumulated_inv votes :
  accumulated votes ->
  NoDup votes.*1 /\ Forall (fun x => 0 < fst (snd x)) votes.
Proof.
  induction 1 as [|counter lbl n w _ [IH1 IH2]].
  - split; constructor.
  - split; [by apply update_label_counter_keys
           |by apply update_label_counter_counts].
Qed.

Lemma decorate_ok (votes : votes) :
  Forall (fun x => 0 < fst (snd x)) votes ->
  mapM (fun x => k ← key_ratio x; Ok (k, x)) votes
  = Ok ((fun x => (Aux.ratio x, x)) <$> votes).
Proof.
  induction 1 as [|[l [c s]] votes Hx _ IH]; cbn; [done|].
  cbn in Hx. destruct (Z.eqb_spec c 0) as [->|_]; [lia|].
  cbn. unfold mbind, result_bind in *. cbn. rewrite IH. done.
Qed.

Lemma select_best_label_sorted (votes : votes) :
  Forall (fun x => 0 < fst (snd x)) votes ->
  select_best_label votes
  = match sorted Z.leb key_count (sorted Qle_bool Aux.ratio votes) with
    | [] => Raise IndexError
    | x :: _ => Ok (fst x)
    end.
Proof.
  intros Hpos. unfold select_best_label. rewrite (decorate_ok _ Hpos). cbn.
  by rewrite (sorted_decorated Qle_bool Aux.ratio).
Qed.

Lemma ratio_le_flip (x y : string * (Z * Z)) :
  0 < fst (snd x) -> 0 < fst (snd y) ->
  Qle_bool (Aux.ratio x) (Aux.ratio y) = true ->
  (inject_Z (snd (snd y)) / inject_Z (fst (snd y))
   <= inject_Z (snd (snd x)) / inject_Z (fst (snd x)))%Q.
Proof.
  destruct x as [lx [cx sx]], y as [ly [cy sy]]. unfold Aux.ratio. cbn.
  intros Hx Hy. rewrite Qle_bool_iff.
  destruct cx as [|px|px]; try lia. destruct cy as [|py|py]; try lia.
  unfold Qle, Qdiv, Qmult, Qinv, inject_Z. cbn. nia.
Qed.

(** The label returned has the largest count and, among the labels of that
    count, the largest score per vote. *)
Lemma select_best_label_spec (votes : votes) :
  Forall (fun x => 0 < fst (snd x)) votes -> votes <> [] ->
  exists lbl count score,
    select_best_label votes = Ok lbl
    /\ (lbl, (count, score)) ∈ votes
    /\ forall lbl' count' score',
        (lbl', (count', score')) ∈ votes ->
        count' <= count
        /\ (count' = count ->
            (inject_Z score' / inject_Z count'
             <= inject_Z score / inject_Z count)%Q).
Proof.
  intros Hpos Hne. rewrite (select_best_label_sorted _ Hpos).
  set (votes1 := sorted Qle_bool Aux.ratio votes).
  assert (Hperm : votes1 ≡ₚ votes) by apply sorted_perm.
  assert (Hsorted : StronglySorted (Aux.key_le Qle_bool Aux.ratio) votes1)
    by (apply sorted_sorted; [apply Qle_bool_total|apply Qle_bool_trans]).
  assert (Hne1 : votes1 <> []).
  { intros E. rewrite E in Hperm. by apply Permutation_nil_l in Hperm. }
  destruct (first_min_nonempty Z.leb key_count votes1 Hne1) as [x Hx].
  pose proof (head_sorted Z.leb key_count votes1) as Hhead.
  rewrite Hx in Hhead.
  destruct (first_min_split Z.leb key_count Zleb_total Zleb_trans votes1 x Hx)
    as (pre & post & Hsplit & Hpre & Hpost).
  destruct (sorted Z.leb key_count votes1) as [|x' rest]; [done|].
  injection Hhead as ->. destruct x as [lbl [count score]].
  exists lbl, count, score. split; [done|].
  assert (Hin : forall y, y ∈ votes <-> y ∈ pre \/ y = (lbl, (count, score))
                                        \/ y ∈ post).
  { intros y. rewrite <- Hperm, Hsplit. set_solver. }
  split; [apply Hin; auto|].
  intros lbl' count' score' Hy. rewrite Forall_forall in Hpos.
  pose proof (Hpos _ Hy) as Hy0. cbn in Hy0.
  assert (Hx0 : 0 < count) by (apply (Hpos (lbl, (count, score))), Hin; auto).
  apply Hin in Hy as [Hy|[Hy|Hy]].
  - rewrite Forall_forall in Hpre. specialize (Hpre _ Hy).
    unfold key_count in Hpre. cbn in Hpre. apply Z.leb_gt in Hpre. lia.
  - injection Hy as -> -> ->. split; [lia|]. intros _. apply Qle_refl.
  - rewrite Forall_forall in Hpost. pose proof (Hpost _ Hy) as Hc.
    unfold key_count in Hc. cbn in Hc. apply Z.leb_le in Hc.
    split; [lia|]. intros _.
    rewrite Hsplit in Hsorted. apply StronglySorted_app_1_r in Hsorted.
    apply StronglySorted_cons in Hsorted as [Hle _].
    rewrite Forall_forall in Hle. specialize (Hle _ Hy).
    by apply (ratio_le_flip (lbl, (count, score)) (lbl', (count', score'))).
Qed.

End Voting.

Section Windows.
Import Py Punctuate.

(** The loop over one query, with a positive step: it ends, and from the
    value [segment_start] has on entry it records windows whose starts
    grow by [step], each of them [max_seq_length] words of the query. *)
Lemma while_segments_windows fuel words q_i max_seq_length step st :
  (0 < step)%nat ->
  (length words <= fuel + segment_start st + max_seq_length)%nat ->
  exists n,
    while_segments fuel words q_i max_seq_length step st
    = Some
        {| segments :=
             segments st
             ++ ((fun k =>
                    join " " (slice words (segment_start st + k * step)
                                (segment_start st + k * step
                                 + max_seq_length)))
                   <$> seq 0 n);
           query_indices := query_indices st ++ replicate n q_i;
           start_word_i :=
             start_word_i st
             ++ ((fun k => segment_start st + k * step)%nat <$> seq 0 n);
           segment_start := (segment_start st + n * step)%nat |}
    /\ forall k, (k < n)%nat ->
                 length (slice words (segment_start st + k * step)
                           (segment_start st + k * step + max_seq_length))
                 = max_seq_length.
Proof.
  intros Hstep. revert st.
  induction fuel as [|fuel IH]; intros st Hfuel; cbn [while_segments].
  - destruct (Nat.ltb_spec (segment_start st + max_seq_length)
                           (length words)); [lia|].
    exists 0%nat. split; [|lia]. destruct st; cbn.
    by rewrite !app_nil_r, Nat.add_0_r.
  - destruct (Nat.ltb_spec (segment_start st + max_seq_length)
                           (length words)) as [Hlt|Hge].
    + destruct (IH (emit words q_i max_seq_length step st)) as (n & E & Hn).
      { cbn. lia. }
      exists (S n). rewrite E. cbn [emit segments query_indices start_word_i
                                        segment_start].
      split.
      * f_equal. f_equal.
        -- rewrite <- app_assoc. f_equal. cbn [seq fmap list_fmap app].
           rewrite Nat.mul_0_l, Nat.add_0_r. f_equal.
           rewrite <- fmap_S_seq, <- list_fmap_compose.
           apply list_fmap_ext. intros _ k _. cbn. do 2 f_equal; lia.
        -- by rewrite <- app_assoc.
        -- rewrite <- app_assoc. f_equal. cbn [seq fmap list_fmap app].
           rewrite Nat.mul_0_l, Nat.add_0_r. f_equal.
           rewrite <- fmap_S_seq, <- list_fmap_compose.
           apply list_fmap_ext. intros _ k _. cbn. lia.
        -- lia.
      * intros [|k] Hk.
        -- unfold slice. rewrite length_take, length_drop. lia.
        -- specialize (Hn k ltac:(lia)). cbn in Hn.
           replace (segment_start st + S k * step)%nat
             with (segment_start st + step + k * step)%nat by lia.
           exact Hn.
    + exists 0%nat. split; [|lia]. destruct st; cbn.
      by rewrite !app_nil_r, Nat.add_0_r.
Qed.

End Windows.

(** C3 fails on the code: [segment_start] is set to 0 once, before the loop
    over the queries, and is not set back when the next query begins. With
    the texts ["a b c"] and ["d e f g h"], windows of 2 words and step 1,
    the segments recorded for the second query start at words 1 and 2, not
    at word 0, and its window ["d e"] is never emitted. *)
Theorem C3_segment_start_carries_over :
  Punctuate.split_into_segments ["a b c"; "d e f g h"]%string 2 1
  = Some (["a b"; "e f"; "f g"]%string, [0; 1; 1]%nat, [0; 1; 2]%nat).
Proof. reflexivity. Qed.



Example select_best_label_accumulated :
  Punctuate.select_best_label
    (Punctuate.update_label_counter
       (Punctuate.update_label_counter
          (Punctuate.update_label_counter [] "," 5 1) "." 5 2) "," 5 0)
  = Py.Ok ","%string.
Proof. vm_compute. reflexivity. Qed.
(** ** The punctuation verbalizer *)

Section FstFacts.
Import Pynini GraphUtils.

Lemma char_class_chars P : Aux.char_class (chars P) P.
Proof. intros i o. reflexivity. Qed.

Lemma char_class_difference P a :
  Aux.char_class (difference (chars P) (accep [a]))
             (fun c => P c && bool_decide (c <> a)).
Proof.
  intros i o. cbn. split.
  - intros [(c & Hc & -> & ->) Hno]. exists c. split; [|done].
    rewrite Hc. cbn. apply bool_decide_eq_true. intros ->.
    by apply (Hno [a]).
  - intros (c & Hc & -> & ->). apply andb_true_iff in Hc as [Hc Hne].
    apply bool_decide_eq_true in Hne. split; [by exists c|].
    intros o' [[= ->] _]. done.
Qed.

(** The closure of a character class maps the strings over the class that
    are long enough, each to itself. *)
Lemma closure_char_class f P lower i o :
  Aux.char_class f P ->
  transduces (closure f lower) i o
  <-> o = i /\ Forall (fun c => P c = true) i /\ (lower <= length i)%nat.
Proof.
  intros Hf. cbn. split.
  - intros (parts & Hlen & Hparts & -> & ->).
    assert (H : mjoin (snd <$> parts) = mjoin (fst <$> parts)
                /\ Forall (fun c => P c = true) (mjoin (fst <$> parts))
                /\ length (mjoin (fst <$> parts)) = length parts).
    { clear Hlen. induction Hparts as [|[pi po] parts Hp _ IH]; [done|].
      apply Hf in Hp as (c & Hc & Hi & Ho). cbn in Hi, Ho. subst pi po.
      destruct IH as (IH1 & IH2 & IH3). csimpl. rewrite IH1, IH3.
      split; [done|]. split; [by constructor|done]. }
    destruct H as (-> & H2 & H3). by rewrite H3.
  - intros (-> & Hall & Hlen). exists ((fun c => ([c], [c])) <$> i).
    rewrite length_fmap. split; [done|]. split.
    + apply Forall_fmap. eapply Forall_impl; [exact Hall|].
      intros c Hc. cbn. apply Hf. by exists c.
    + clear. induction i as [|c i [IH1 IH2]]; [done|].
      csimpl. split; f_equal; assumption.
Qed.

Lemma app_cons_unique {A} (a : A) (l1 l2 r1 r2 : list A) :
  a ∉ l1 -> a ∉ l2 -> l1 ++ a :: r1 = l2 ++ a :: r2 -> l1 = l2 /\ r1 = r2.
Proof.
  revert l2. induction l1 as [|x l1 IH]; intros [|y l2] H1 H2 E; cbn in E.
  - by injection E.
  - injection E as <- _. exfalso. apply H2. left.
  - injection E as -> _. exfalso. apply H1. left.
  - injection E as -> E. apply not_elem_of_cons in H1 as [_ H1].
    apply not_elem_of_cons in H2 as [_ H2].
    destruct (IH l2 H1 H2 E) as [-> ->]. done.
Qed.

Lemma white_space_not_quote ws :
  Forall (fun c => is_white_space c = true) ws -> quote ∉ ws.
Proof.
  intros Hws Hq. rewrite Forall_forall in Hws. by specialize (Hws _ Hq).
Qed.

Lemma not_elem_of_class {a : ascii} (P : ascii -> bool) (l : list ascii) :
  Forall (fun c => P c && bool_decide (c <> a) = true) l -> a ∉ l.
Proof.
  intros Hl Ha. rewrite Forall_forall in Hl. specialize (Hl _ Ha).
  apply andb_true_iff in Hl as [_ Hl]. by apply bool_decide_eq_true in Hl.
Qed.

Lemma class_of_not_elem_of (a : ascii) (l : list ascii) :
  a ∉ l -> Forall (fun c => true && bool_decide (c <> a) = true) l.
Proof.
  intros Ha. apply Forall_forall. intros c Hc. cbn.
  apply bool_decide_eq_true. intros ->. done.
Qed.

Lemma run_closure_agrees f :
  Aux.run_agrees f -> (forall o, ~ transduces f [] o) ->
  forall fuel lower i o r,
    (length i < fuel)%nat ->
    (o, r) ∈ run_closure (run f) fuel lower i
    <-> exists parts : list (list ascii * list ascii),
        (lower <= length parts)%nat
        /\ Forall (fun p => transduces f (fst p) (snd p)) parts
        /\ i = mjoin (fst <$> parts) ++ r /\ o = mjoin (snd <$> parts).
Proof.
  intros Hf Hnull. induction fuel as [|fuel IH]; intros lower i o r Hfuel;
    [lia|].
  cbn [run_closure]. rewrite elem_of_app, list_elem_of_bind. split.
  - intros [H0|((o1 & r1) & Hin & H1)].
    + destruct (Nat.eqb_spec lower 0) as [->|_];
        [|by apply elem_of_nil in H0].
      apply list_elem_of_singleton in H0 as [= -> ->]. by exists [].
    + cbn [fst snd] in Hin.
      destruct (Nat.ltb_spec (length r1) (length i)) as [Hlt|_];
        [|by apply elem_of_nil in Hin].
      apply list_elem_of_fmap in Hin as ((o2 & r2) & [= -> ->] & Hin).
      apply Hf in H1 as (i1 & -> & H1).
      apply IH in Hin as (parts & Hlen & Hparts & -> & ->); [|lia].
      exists ((i1, o1) :: parts). csimpl.
      split; [lia|]. split; [by constructor|]. by rewrite <- app_assoc.
  - intros (parts & Hlen & Hparts & -> & ->).
    destruct Hparts as [|[i1 o1] parts H1 Hparts].
    + left. cbn in *. replace lower with 0%nat by lia. cbn. by left.
    + right. cbn [fst snd] in H1. csimpl. csimpl in Hfuel.
      exists (o1, mjoin (fst <$> parts) ++ r). split.
      * cbn [fst snd]. rewrite <- app_assoc.
        assert (i1 <> []) by (intros ->; by eapply Hnull).
        assert (length (mjoin parts.*1 ++ r)
                < length (i1 ++ mjoin parts.*1 ++ r))%nat as Hlt.
        { rewrite (length_app i1). destruct i1; [done|cbn; lia]. }
        apply Nat.ltb_lt in Hlt. rewrite Hlt.
        apply list_elem_of_fmap.
        exists (mjoin (snd <$> parts), r). split; [done|].
        apply IH.
        { apply Nat.ltb_lt in Hlt. rewrite <- app_assoc in Hfuel. lia. }
        exists parts. cbn in Hlen. split; [lia|done].
      * apply Hf. exists i1. by rewrite <- app_assoc.
Qed.

Lemma run_agrees_productive f : Aux.productive f -> Aux.run_agrees f.
Proof.
  induction f as [s|P|f IHf g IHg|f IHf lower|f IHf g IHg|f IHf];
    cbn [Aux.productive]; intros Hwf i o r.
  - cbn. destruct (decide (take (length s) i = s)) as [E|E].
    + rewrite list_elem_of_singleton. split.
      * intros [= -> ->]. exists s. split; [|done].
        by rewrite <- E at 1; rewrite take_drop.
      * intros (i1 & -> & -> & ->). by rewrite drop_app_length.
    + split; [by intros ?%elem_of_nil|].
      intros (i1 & -> & -> & ->). by rewrite take_app_length in E.
  - cbn. split.
    + destruct i as [|c rest]; [by intros ?%elem_of_nil|].
      destruct (P c) eqn:Hc; [|by intros ?%elem_of_nil].
      intros [= -> ->]%list_elem_of_singleton. exists [c]. eauto.
    + intros (i1 & -> & c & Hc & -> & ->). cbn. rewrite Hc. by left.
  - destruct Hwf as [Hf Hg]. cbn [run transduces].
    rewrite list_elem_of_bind. split.
    + intros ((o1 & r1) & Hin & H1). cbn [fst snd] in Hin.
      apply list_elem_of_fmap in Hin as ((o2 & r2) & [= -> ->] & H2).
      apply (IHf Hf) in H1 as (i1 & -> & H1).
      apply (IHg Hg) in H2 as (i2 & -> & H2).
      exists (i1 ++ i2). split; [by rewrite <- app_assoc|].
      by exists i1, i2, o1, o2.
    + intros (i12 & -> & i1 & i2 & o1 & o2 & -> & -> & H1 & H2).
      exists (o1, i2 ++ r). split.
      * apply list_elem_of_fmap. exists (o2, r). split; [done|].
        apply (IHg Hg). by exists i2.
      * apply (IHf Hf). exists i1. by rewrite <- app_assoc.
  - destruct Hwf as [Hf Hnull]. cbn [run].
    rewrite (run_closure_agrees f (IHf Hf) Hnull) by lia.
    split.
    + intros (parts & Hlen & Hparts & -> & ->).
      exists (mjoin (fst <$> parts)). split; [done|]. by exists parts.
    + intros (i1 & -> & parts & Hlen & Hparts & -> & ->). by exists parts.
  - destruct Hwf as [Hf Hg]. cbn [run transduces].
    rewrite list_elem_of_filter. cbn [snd]. rewrite Forall_forall. split.
    + intros [Hno Hin]. apply (IHf Hf) in Hin as (i1 & -> & H1).
      exists i1. split; [done|]. split; [done|]. intros o' Ho'.
      apply (Hno (o', r)); [|done]. apply (IHg Hg). by exists i1.
    + intros (i1 & -> & H1 & Hno). split.
      * intros [o' r'] Hin Hlen. cbn in Hlen.
        apply (IHg Hg) in Hin as (i1' & E & H1').
        assert (i1' = i1) as ->; [|by eapply Hno].
        apply (f_equal (take (length i1))) in E as E1.
        assert (length i1 = length i1').
        { apply (f_equal length) in E. rewrite !length_app in E. lia. }
        rewrite take_app_length in E1. rewrite H in E1.
        by rewrite take_app_length in E1.
      * apply (IHf Hf). by exists i1.
  - cbn [run transduces]. rewrite list_elem_of_fmap. split.
    + intros ((o' & r') & [= -> ->] & Hin).
      apply (IHf Hwf) in Hin as (i1 & -> & H1). exists i1. eauto.
    + intros (i1 & -> & -> & o' & H1). exists (o', r). split; [done|].
      apply (IHf Hwf). by exists i1.
Qed.

(** On a productive transducer [apply] lists the outputs, and nothing
    else. *)
Lemma apply_agrees f i o :
  Aux.productive f -> o ∈ apply f i <-> transduces f i o.
Proof.
  intros Hf. unfold apply. rewrite list_elem_of_fmap. split.
  - intros ((o' & r) & -> & Hin). apply list_elem_of_filter in Hin as [Hr Hin].
    cbn in Hr. subst r. apply (run_agrees_productive f Hf) in Hin
      as (i1 & -> & H1). by rewrite app_nil_r.
  - intros H. exists (o, []). split; [done|]. apply list_elem_of_filter.
    split; [done|]. apply (run_agrees_productive f Hf). exists i.
    by rewrite app_nil_r.
Qed.

Lemma char_class_not_empty f P : Aux.char_class f P ->
  forall o, ~ transduces f [] o.
Proof. intros Hf o (c & _ & [=] & _)%Hf. Qed.

Lemma punctuation_productive :
  Aux.productive (PunctuationFst.fst PunctuationFst.__init__).
Proof.
  cbn. repeat split;
    first [ apply (char_class_not_empty _ _ (char_class_chars _))
          | apply (char_class_not_empty _ _ (char_class_difference _ _)) ].
Qed.

End FstFacts.

Lemma punctuation_transduces :
  forall ws p s : list ascii,
    Forall (fun c => GraphUtils.is_white_space c = true) ws ->
    p <> [] ->
    Pynini.quote ∉ p ->
    ascii_of_nat 125 ∉ s ->
    forall o,
      Pynini.transduces (PunctuationFst.fst PunctuationFst.__init__)
        (PunctuationFst.token ws p s) o
      <-> o = p.
Proof.
  intros ws p s Hws Hp Hq Hs o.
  pose proof char_class_chars GraphUtils.is_white_space as Cws.
  pose proof char_class_difference (fun _ => true) Pynini.quote as Cq.
  pose proof char_class_difference (fun _ => true) (ascii_of_nat 125) as Cb.
  unfold PunctuationFst.__init__, PunctuationFst.optimize,
    PunctuationFst.fst, PunctuationFst.token.
  cbn [Pynini.transduces]. split.
  - intros (i5 & iz & o5 & oz & Ei & -> & H5 & -> & _).
    destruct H5 as (i4 & ie & o4 & oe & -> & -> & H4 & -> & oe' & -> & _).
    destruct H4 as (i3 & ip & o3 & op & -> & -> & H3 & Hp').
    destruct H3 as (i2 & iq & o2 & oq & -> & -> & H2 & -> & oq' & -> & _).
    destruct H2 as (ia & ids & oa & ods & -> & -> & Ha & -> & ods' & Hds).
    destruct Ha as (-> & oa' & -> & _).
    apply (closure_char_class _ _ _ _ _ Cws) in Hds as (_ & Hws' & _).
    apply (closure_char_class _ _ _ _ _ Cq) in Hp' as (-> & Hp' & _).
    rewrite !app_nil_r. cbn [app].
    rewrite <- !app_assoc in Ei. apply app_inv_head in Ei.
    cbn [app] in Ei.
    pose proof (white_space_not_quote ws Hws) as Hq1.
    pose proof (white_space_not_quote ids Hws') as Hq2.
    pose proof (not_elem_of_class _ ip Hp') as Hq3.
    destruct (app_cons_unique _ _ _ _ _ Hq1 Hq2 Ei) as [_ Ei'].
    by destruct (app_cons_unique _ _ _ _ _ Hq Hq3 Ei') as [-> _].
  - intros ->.
    exists (Pynini.str "name:" ++ ws ++ [Pynini.quote] ++ p
            ++ Pynini.quote :: Pynini.str " pause_length"), s, p, [].
    split; [by rewrite <- !app_assoc|]. split; [by rewrite app_nil_r|].
    split.
    + exists (Pynini.str "name:" ++ ws ++ [Pynini.quote] ++ p),
        (Pynini.quote :: Pynini.str " pause_length"), p, [].
      split; [by rewrite <- !app_assoc|]. split; [by rewrite app_nil_r|].
      split; [|split; [done|eexists; split; reflexivity]].
      exists (Pynini.str "name:" ++ ws ++ [Pynini.quote]), p, [], p.
      split; [by rewrite <- !app_assoc|]. split; [done|]. split.
      * exists (Pynini.str "name:" ++ ws), [Pynini.quote], [], [].
        split; [by rewrite <- !app_assoc|]. split; [done|]. split.
        -- exists (Pynini.str "name:"), ws, [], [].
           split; [done|]. split; [done|]. split.
           ++ split; [done|]. eexists. split; reflexivity.
           ++ split; [done|]. exists ws.
              apply (closure_char_class _ _ _ _ _ Cws).
              split; [done|]. split; [done|lia].
        -- split; [done|]. eexists. split; reflexivity.
      * apply (closure_char_class _ _ _ _ _ Cq).
        split; [done|]. split; [by apply class_of_not_elem_of|].
        destruct p; [done|cbn; lia].
    + split; [done|]. exists s.
      apply (closure_char_class _ _ _ _ _ Cb).
      split; [done|]. split; [by apply class_of_not_elem_of|lia].
Qed.

(** C6: on a token [name:], optional white space, the symbol [p] between
    double quotes, [ pause_length] and a rest without closing brace, the
    transducer has one output, the symbol [p] itself; running the
    transducer on the token finds that output and no other. *)
Theorem C6_punctuation_keeps_symbol :
  forall ws p s : list ascii,
    Forall (fun c => GraphUtils.is_white_space c = true) ws ->
    p <> [] ->
    Pynini.quote ∉ p ->
    ascii_of_nat 125 ∉ s ->
    forall o,
      (Pynini.transduces (PunctuationFst.fst PunctuationFst.__init__)
         (PunctuationFst.token ws p s) o
       <-> o = p)
      /\ (o ∈ Pynini.apply (PunctuationFst.fst PunctuationFst.__init__)
                 (PunctuationFst.token ws p s)
          <-> o = p).
Proof.
  intros ws p s Hws Hp Hq Hs o.
  pose proof (punctuation_transduces ws p s Hws Hp Hq Hs o) as H.
  split; [exact H|].
  by rewrite (apply_agrees _ _ _ punctuation_productive).
Qed.

Lemma C6_punctuation_keeps_symbol_witness :
  Pynini.transduces (PunctuationFst.fst PunctuationFst.__init__)
    (PunctuationFst.token (Pynini.str " ") (Pynini.str ",")
       (Pynini.str ": PAUSE_MEDIUM phrase_break: true type: PUNCT "))
    (Pynini.str ",").
Proof.
  apply (C6_punctuation_keeps_symbol (Pynini.str " ") (Pynini.str ",")
           (Pynini.str ": PAUSE_MEDIUM phrase_break: true type: PUNCT ")).
  - repeat constructor.
  - discriminate.
  - apply (bool_decide_unpack _). vm_compute. exact I.
  - apply (bool_decide_unpack _). vm_compute. exact I.
  - reflexivity.
Defined.

Example punctuation_comma :
  Pynini.apply (PunctuationFst.fst PunctuationFst.__init__)
    (PunctuationFst.token (Pynini.str " ") (Pynini.str ",")
       (Pynini.str ": PAUSE_MEDIUM phrase_break: true type: PUNCT "))
  = [Pynini.str ","].
Proof. vm_compute. reflexivity. Qed.
(** ** ClusterEmbedding *)

Example mode_first_of_ties : Py.mode [3; 1; 1; 3; 2] = Py.Ok 3.
Proof. reflexivity. Qed.

Example get_clus_emb_two_scales :
  exists d base,
    ClusterEmbedding.get_clus_emb Z 0 Samples.int_mean unit
      Samples.first_occurrences 2 Samples.embeddings Samples.lines
      Samples.speaker_mapping Samples.scale_mapping = Py.Ok (d, base)
    /\ (d !! 0) ≫= (.!! "s"%string)
       = Some (ClusterEmbedding.Avg Z {[ "speaker_0"%string := "speaker_a"%string ]}
                 [[10; 30]; [20; 40]])
    /\ (d !! 1) ≫= (.!! "s"%string)
       = Some (ClusterEmbedding.Avg Z {[ "speaker_0"%string := "speaker_a"%string ]}
                 [[1; 4]; [2; 6]]).
Proof. eexists _, _. split; [vm_compute; reflexivity|]. split; vm_compute; reflexivity. Qed.

Section ClusterFacts.
Import Py ClusterEmbedding.
Context {R Time : Type} (zero : R) (mean : list R -> R).
Context (set_iter : list Z -> list Z).
Hypothesis set_iter_elem : forall l x, x ∈ set_iter l <-> x ∈ l.
Hypothesis set_iter_NoDup : forall l, NoDup (set_iter l).

(** With a mapping as long as the base labels, every segment index of the
    mapping gets the mode of the base labels mapped to it. *)
Lemma longer_seg_labels_ok (base mapping : list Z) :
  length mapping = length base ->
  exists labels,
    longer_seg_labels set_iter base mapping = Ok labels
    /\ Forall2 (fun seg lab =>
                  mode (Aux.mapped_to base mapping seg) = Ok lab
                  /\ Aux.is_mode lab (Aux.mapped_to base mapping seg))
               (set_iter mapping) labels.
Proof.
  intros Hlen.
  set (g := fun seg => match mode (Aux.mapped_to base mapping seg) with
                       | Ok m => m
                       | Raise _ => 0
                       end).
  assert (Hg : forall seg, seg ∈ set_iter mapping ->
                 mode (Aux.mapped_to base mapping seg) = Ok (g seg)
                 /\ Aux.is_mode (g seg) (Aux.mapped_to base mapping seg)).
  { intros seg Hseg. apply (proj1 (set_iter_elem _ _)) in Hseg.
    destruct (mode_ok _ (mapped_to_nonempty base mapping seg Hlen Hseg))
      as (m & Hm & Hmode).
    unfold g. by rewrite Hm. }
  exists (g <$> set_iter mapping). split.
  - apply mapM_ok, Forall_forall. intros seg Hseg.
    rewrite mask_select_eq_mask by done. cbn. by apply Hg.
  - apply Forall2_fmap_r, Forall_Forall2_diag, Forall_forall. exact Hg.
Qed.

Lemma assign_session_ok scale_n (base : gmap string (list (BaseEntry Time)))
      u sm (new : gmap Z (gmap string (list Z))) entries :
  1 <= scale_n ->
  (forall s, 0 <= s < scale_n -> is_Some (new !! s)) ->
  base !! u = Some entries ->
  (forall s, 0 <= s < scale_n - 1 ->
             exists mapping, sm !! s = Some mapping
                             /\ length mapping = length entries) ->
  exists new',
    assign_session Time set_iter scale_n base (u, sm) new = Ok new'
    /\ (forall s, is_Some (new' !! s) <-> is_Some (new !! s))
    /\ Aux.get2 new' (scale_n - 1) u = Some (base_labels Time entries)
    /\ (forall s mapping,
           0 <= s < scale_n - 1 -> sm !! s = Some mapping ->
           exists labels,
             longer_seg_labels set_iter (base_labels Time entries) mapping
             = Ok labels
             /\ Aux.get2 new' s u = Some labels)
    /\ (forall s u', u' <> u -> Aux.get2 new' s u' = Aux.get2 new s u').
Proof.
  intros Hn Hdom Hbase Hsm. unfold assign_session. rewrite Hbase. cbn.
  destruct (setitem2_ok new (scale_n - 1) u (base_labels Time entries))
    as (new1 & E1 & Hdom1 & Hget1 & Hother1); [apply Hdom; lia|].
  rewrite E1. cbn.
  destruct (for_each_inv
    (fun (done : list Z) (acc : gmap Z (gmap string (list Z))) =>
       (forall s, is_Some (acc !! s) <-> is_Some (new !! s))
       /\ Aux.get2 acc (scale_n - 1) u = Some (base_labels Time entries)
       /\ (forall s mapping,
              s ∈ done -> sm !! s = Some mapping ->
              exists labels,
                longer_seg_labels set_iter (base_labels Time entries) mapping
                = Ok labels
                /\ Aux.get2 acc s u = Some labels)
       /\ (forall s u', u' <> u -> Aux.get2 acc s u' = Aux.get2 new s u'))
    (fun scale_index new_clus_label_dict =>
       mapping ← getitem sm scale_index;
       new_clus_label ←
         longer_seg_labels set_iter (base_labels Time entries) mapping;
       setitem2 new_clus_label_dict scale_index u new_clus_label)
    (seqZ 0 (scale_n - 1)) new1) as (new' & E' & HP).
  - split; [done|]. split; [done|]. split.
    + by intros s mapping ?%elem_of_nil.
    + intros s u' Hne. apply Hother1. congruence.
  - intros done x rest acc El (Hd & Hb & Hdone & Hoth).
    assert (0 <= x < scale_n - 1) as Hx.
    { assert (x ∈ seqZ 0 (scale_n - 1)) as Hin
        by (rewrite El; apply elem_of_app; right; left).
      apply elem_of_seqZ in Hin. lia. }
    destruct (Hsm x Hx) as (mapping & Emap & Hlen).
    unfold getitem. rewrite Emap. cbn.
    destruct (longer_seg_labels_ok (base_labels Time entries) mapping)
      as (labels & Elab & _).
    { unfold base_labels. by rewrite length_fmap. }
    rewrite Elab. cbn.
    destruct (setitem2_ok acc x u labels)
      as (acc' & Eacc & Hdom' & Hget' & Hother'); [apply Hd, Hdom; lia|].
    exists acc'. split; [done|]. split; [|split; [|split]].
    + intros s. by rewrite Hdom'.
    + rewrite Hother'; [done|]. intros [= ?]. lia.
    + intros s mapping' [Hs| ->%list_elem_of_singleton]%elem_of_app Emap'.
      * destruct (decide (s = x)) as [->|Hne].
        -- rewrite Emap in Emap'. injection Emap' as <-. eauto.
        -- destruct (Hdone s mapping' Hs Emap') as (labels' & ? & ?).
           exists labels'. split; [done|]. rewrite Hother'; [done|].
           congruence.
      * rewrite Emap in Emap'. injection Emap' as <-. eauto.
    + intros s u' Hne. rewrite Hother'; [by apply Hoth|]. congruence.
  - exists new'. split; [done|]. destruct HP as (Hd & Hb & Hdone & Hoth).
    split; [done|]. split; [done|]. split; [|done].
    intros s mapping Hs Emap. apply Hdone; [|done].
    apply elem_of_seqZ. lia.
Qed.

Lemma assign_labels_ok scale_n (base : gmap string (list (BaseEntry Time)))
      (ssm : gmap string (gmap Z (list Z))) :
  1 <= scale_n ->
  (forall u sm,
      ssm !! u = Some sm ->
      exists entries,
        base !! u = Some entries
        /\ forall s, 0 <= s < scale_n - 1 ->
                     exists mapping, sm !! s = Some mapping
                                     /\ length mapping = length entries) ->
  exists new,
    assign_labels_to_longer_segs Time set_iter scale_n base ssm = Ok new
    /\ forall u sm entries,
        ssm !! u = Some sm -> base !! u = Some entries ->
        Aux.get2 new (scale_n - 1) u = Some (base_labels Time entries)
        /\ forall s mapping,
            0 <= s < scale_n - 1 -> sm !! s = Some mapping ->
            exists labels,
              longer_seg_labels set_iter (base_labels Time entries) mapping
              = Ok labels
              /\ Aux.get2 new s u = Some labels.
Proof.
  intros Hn Hwf. unfold assign_labels_to_longer_segs.
  destruct (for_each_inv
    (fun (done : list (string * gmap Z (list Z)))
         (acc : gmap Z (gmap string (list Z))) =>
       (forall s, 0 <= s < scale_n -> is_Some (acc !! s))
       /\ forall u sm entries,
           (u, sm) ∈ done -> base !! u = Some entries ->
           Aux.get2 acc (scale_n - 1) u = Some (base_labels Time entries)
           /\ forall s mapping,
               0 <= s < scale_n - 1 -> sm !! s = Some mapping ->
               exists labels,
                 longer_seg_labels set_iter (base_labels Time entries) mapping
                 = Ok labels
                 /\ Aux.get2 acc s u = Some labels)
    (assign_session Time set_iter scale_n base)
    (map_to_list ssm)
    (list_to_map ((fun scale_index => (scale_index, ∅)) <$> seqZ 0 scale_n)))
    as (new & E & Hdom & Hspec).
  - split; [|by intros u sm entries ?%elem_of_nil].
    intros s Hs.
    destruct (list_to_map _ !! s) as [x|] eqn:El; [by eexists|].
    apply not_elem_of_list_to_map_2 in El. exfalso. apply El.
    rewrite <- list_fmap_compose. apply list_elem_of_fmap.
    exists s. split; [done|]. apply elem_of_seqZ. lia.
  - intros done [u sm] rest acc El (Hdom & Hspec).
    assert (ssm !! u = Some sm) as Hu.
    { apply elem_of_map_to_list. rewrite El. apply elem_of_app. right. left. }
    destruct (Hwf u sm Hu) as (entries & Hbase & Hsm).
    destruct (assign_session_ok scale_n base u sm acc entries Hn Hdom Hbase Hsm)
      as (acc' & Eacc & Hd' & Hb' & Hs' & Hoth').
    exists acc'. split; [done|]. split.
    + intros s Hs. by apply Hd', Hdom.
    + intros u0 sm0 entries0
             [Hin| [= -> ->]%list_elem_of_singleton]%elem_of_app Hbase0.
      * assert (u0 <> u) as Hne.
        { pose proof (NoDup_fst_map_to_list ssm) as Hnd.
          rewrite El, fmap_app, fmap_cons in Hnd.
          apply NoDup_app in Hnd as (_ & Hnd & _). intros ->.
          apply (Hnd u); [|left]. apply list_elem_of_fmap.
          by exists (u, sm0). }
        destruct (Hspec u0 sm0 entries0 Hin Hbase0) as [H1 H2].
        split; [by rewrite Hoth'|].
        intros s mapping Hs Emap.
        destruct (H2 s mapping Hs Emap) as (labels & ? & ?).
        exists labels. split; [done|]. by rewrite Hoth'.
      * rewrite Hbase in Hbase0. injection Hbase0 as <-. done.
  - exists new. split; [done|]. intros u sm entries Hu Hbase.
    apply Hspec; [|done]. by apply elem_of_map_to_list.
Qed.

End ClusterFacts.

Section AvgEmbsFacts.
Import Py ClusterEmbedding.
Context {R : Type} (zero : R) (mean : list R -> R).
Context (set_iter : list Z -> list Z).
Hypothesis set_iter_elem : forall l x, x ∈ set_iter l <-> x ∈ l.
Hypothesis set_iter_NoDup : forall l, NoDup (set_iter l).

Lemma length_mean_dim0 dim (rows : EmbTensor R) :
  rows <> [] -> Forall (fun row => length row = dim) rows ->
  length (mean_dim0 R zero mean rows) = dim.
Proof.
  destruct rows as [|row rows]; [done|]. intros _ Hrows.
  apply Forall_cons in Hrows as [Hrow _]. cbn.
  by rewrite length_fmap, length_seq.
Qed.

Lemma Forall_mapped_to {A} (P : A -> Prop) (xs : list A) arr v :
  Forall P xs -> Forall P (Aux.mapped_to xs arr v).
Proof.
  intros Hxs. unfold Aux.mapped_to. apply Forall_fmap, Forall_forall.
  intros [x a] Hin. apply list_elem_of_filter in Hin as [_ Hin].
  apply elem_of_zip_l in Hin. rewrite Forall_forall in Hxs. by apply Hxs.
Qed.

(** Writing a column leaves the shape and the other columns as they
    were. *)
Lemma set_column_ok (ncols : nat) (m : list (list R)) (k : Z) (v : list R) :
  0 <= k < Z.of_nat ncols ->
  length v = length m ->
  Forall (fun row => length row = ncols) m ->
  exists m',
    set_column R ncols m k v = Ok m'
    /\ length m' = length m
    /\ Forall (fun row => length row = ncols) m'
    /\ forall j, (j < ncols)%nat ->
                 Aux.column zero j m'
                 = if decide (j = Z.to_nat k) then v else Aux.column zero j m.
Proof.
  intros Hk Hlen Hrows. unfold set_column, column_index.
  destruct (decide (0 <= k < Z.of_nat ncols)); [|lia]. cbn.
  rewrite Hlen, Nat.eqb_refl. eexists. split; [done|].
  assert (Z.to_nat k < ncols)%nat as Hj by lia.
  clear Hk. revert v Hlen.
  induction Hrows as [|row m Hrow Hrows IH]; intros [|x v] Hlen; try done.
  { split; [done|]. split; [constructor|]. intros j _.
    by destruct (decide (j = Z.to_nat k)). }
  injection Hlen as Hlen. destruct (IH v Hlen) as (IH1 & IH2 & IH3).
  cbn [zip_with length]. split; [by rewrite IH1|].
  split; [constructor; [by rewrite length_insert|done]|].
  intros j Hjn. unfold Aux.column in *. cbn [fmap list_fmap].
  rewrite (IH3 j Hjn). rewrite nth_lookup.
  destruct (decide (j = Z.to_nat k)) as [->|Hne].
  - by rewrite list_lookup_insert_eq by lia.
  - rewrite list_lookup_insert_ne by done. by rewrite <- nth_lookup.
Qed.

Lemma column_zeros dim ncols j :
  (j < ncols)%nat ->
  Aux.column zero j (replicate dim (replicate ncols zero))
  = replicate dim zero.
Proof.
  intros Hj. unfold Aux.column. rewrite fmap_replicate. f_equal.
  rewrite nth_lookup, lookup_replicate_2; done.
Qed.

Lemma NoDup_bounded_length (l : list Z) (n : nat) :
  NoDup l -> Forall (fun k => 0 <= k < Z.of_nat n) l -> (length l <= n)%nat.
Proof.
  intros Hnd Hl.
  assert (l ⊆+ seqZ 0 (Z.of_nat n)) as Hsub.
  { apply NoDup_submseteq; [done|]. intros x Hx.
    rewrite Forall_forall in Hl. apply elem_of_seqZ. specialize (Hl x Hx). lia. }
  apply submseteq_length in Hsub. rewrite length_seqZ in Hsub. lia.
Qed.

(** The averages of one session: a matrix of [dim] rows and
    [max_num_of_spks] columns; the column of a label that occurs holds the
    mean of the rows with that label, every other column is zero. *)
Lemma session_avg_embs_ok (dim max_num_of_spks : nat) (labels : list Z)
      (emb : EmbTensor R) :
  length labels = length emb ->
  Forall (fun k => 0 <= k < Z.of_nat max_num_of_spks) labels ->
  Forall (fun row => length row = dim) emb ->
  exists avg,
    session_avg_embs R zero mean set_iter dim max_num_of_spks labels emb
    = Ok avg
    /\ length avg = dim
    /\ Forall (fun row => length row = max_num_of_spks) avg
    /\ forall j,
        (j < max_num_of_spks)%nat ->
        Aux.column zero j avg
        = if decide (Z.of_nat j ∈ labels)
          then mean_dim0 R zero mean (Aux.mapped_to emb labels (Z.of_nat j))
          else replicate dim zero.
Proof.
  intros Hlen Hrange Hrows. unfold session_avg_embs.
  assert (Forall (fun k => 0 <= k < Z.of_nat max_num_of_spks)
                 (set_iter labels)) as Hrange'.
  { apply Forall_forall. intros k Hk.
    apply (proj1 (set_iter_elem _ _)) in Hk.
    rewrite Forall_forall in Hrange. by apply Hrange. }
  pose proof (NoDup_bounded_length _ _ (set_iter_NoDup labels) Hrange') as HN.
  apply Nat.leb_le in HN. rewrite HN. cbn [negb].
  destruct (for_each_inv
    (fun (done : list Z) (avg : list (list R)) =>
       length avg = dim
       /\ Forall (fun row => length row = max_num_of_spks) avg
       /\ forall j,
           (j < max_num_of_spks)%nat ->
           Aux.column zero j avg
           = if decide (Z.of_nat j ∈ done)
             then mean_dim0 R zero mean
                    (Aux.mapped_to emb labels (Z.of_nat j))
             else replicate dim zero)
    (fun spk_idx avg_embs =>
       selected_embs ← mask_select emb (eq_mask labels spk_idx);
       set_column R max_num_of_spks avg_embs spk_idx
         (mean_dim0 R zero mean selected_embs))
    (set_iter labels)
    (replicate dim (replicate max_num_of_spks zero)))
    as (avg & E & H1 & H2 & H3).
  - split; [by rewrite length_replicate|]. split.
    + apply Forall_replicate. by rewrite length_replicate.
    + intros j Hj. rewrite column_zeros by done.
      destruct (decide (Z.of_nat j ∈ [])) as [Hin|_]; [|done].
      by apply elem_of_nil in Hin.
  - intros done x rest avg El (H1 & H2 & H3).
    assert (x ∈ labels) as Hx.
    { apply (proj1 (set_iter_elem labels x)). rewrite El.
      apply elem_of_app. right. left. }
    assert (0 <= x < Z.of_nat max_num_of_spks) as Hxr.
    { rewrite Forall_forall in Hrange. by apply Hrange. }
    rewrite mask_select_eq_mask by done. cbn.
    destruct (set_column_ok max_num_of_spks avg x
                (mean_dim0 R zero mean (Aux.mapped_to emb labels x)))
      as (avg' & E' & H1' & H2' & H3'); [done| |done|].
    { rewrite H1. apply length_mean_dim0.
      - by apply mapped_to_nonempty.
      - by apply Forall_mapped_to. }
    exists avg'. split; [done|]. split; [lia|]. split; [done|].
    intros j Hj. rewrite (H3' j Hj), (H3 j Hj).
    destruct (decide (j = Z.to_nat x)) as [->|Hne].
    + rewrite Z2Nat.id by lia.
      destruct (decide (x ∈ done ++ [x])) as [|Hn]; [done|].
      exfalso. apply Hn, elem_of_app. right. left.
    + destruct (decide (Z.of_nat j ∈ done)) as [Hin|Hn],
               (decide (Z.of_nat j ∈ done ++ [x])) as [Hin'|Hn']; try done.
      * exfalso. apply Hn', elem_of_app. by left.
      * apply elem_of_app in Hin' as [?|Hin']; [done|].
        apply list_elem_of_singleton in Hin'. lia.
  - exists avg. split; [done|]. split; [done|]. split; [done|].
    intros j Hj. rewrite (H3 j Hj).
    destruct (decide (Z.of_nat j ∈ set_iter labels)) as [Hin|Hn],
             (decide (Z.of_nat j ∈ labels)) as [Hin'|Hn']; try done.
    + by apply (proj1 (set_iter_elem _ _)) in Hin.
    + by apply (proj2 (set_iter_elem _ _)) in Hin'.
Qed.

End AvgEmbsFacts.

Section GetClusEmbFacts.
Import Py ClusterEmbedding.
Context {R Time : Type} (zero : R) (mean : list R -> R).
Context (set_iter : list Z -> list Z).
Hypothesis set_iter_elem : forall l x, x ∈ set_iter l <-> x ∈ l.
Hypothesis set_iter_NoDup : forall l, NoDup (set_iter l).

Lemma get2_Some `{Countable K1} `{Countable K2} {V}
      (d : gmap K1 (gmap K2 V)) k1 k2 v :
  Aux.get2 d k1 k2 = Some v <->
  exists inner, d !! k1 = Some inner /\ inner !! k2 = Some v.
Proof.
  unfold Aux.get2. destruct (d !! k1) as [inner|]; cbn.
  - split; [eauto|]. by intros (? & [= <-] & ?).
  - split; [done|]. by intros (? & ? & _).
Qed.

Lemma NoDup_fst_middle {A B} (done rest : list (A * B)) k v v' :
  NoDup (fst <$> (done ++ (k, v) :: rest)) -> (k, v') ∈ done -> False.
Proof.
  rewrite fmap_app, fmap_cons. intros (_ & Hnd & _)%NoDup_app Hin.
  apply (Hnd k); [|left]. apply list_elem_of_fmap. by exists (k, v').
Qed.

(** The loop over the scales and sessions of [get_clus_emb] stores, for
    every session of every scale, the averages [session_avg_embs]
    computes from the labels of that session at that scale. *)
Lemma get_clus_emb_loop (dim max_num_of_spks : nat)
      (emb : gmap Z (gmap string (EmbTensor R)))
      (all : gmap Z (gmap string (list Z)))
      (spk : gmap string (gmap string string))
      (acc0 : gmap Z (gmap string (SessAvg R))) :
  (forall k, is_Some (acc0 !! k) <-> is_Some (emb !! k)) ->
  (forall s sessions u e,
      emb !! s = Some sessions -> sessions !! u = Some e ->
      is_Some (spk !! u)
      /\ Forall (fun row => length row = dim) e
      /\ exists labels,
          Aux.get2 all s u = Some labels
          /\ length labels = length e
          /\ Forall (fun k => 0 <= k < Z.of_nat max_num_of_spks) labels) ->
  exists d,
    for_each (map_to_list emb)
      (fun scale emb_sess_avg_dict =>
         for_each (map_to_list (snd scale))
           (fun session emb_sess_avg_dict =>
              labels ← getitem all (fst scale);
              clus_label_list ← getitem labels (fst session);
              avg_embs ← session_avg_embs R zero mean set_iter dim
                           max_num_of_spks clus_label_list (snd session);
              rttm ← getitem spk (fst session);
              let inv_map := invert rttm in
              setitem2 emb_sess_avg_dict (fst scale) (fst session)
                (Avg R inv_map avg_embs))
           emb_sess_avg_dict)
      acc0 = Ok d
    /\ forall s sessions u e,
        emb !! s = Some sessions -> sessions !! u = Some e ->
        exists labels rttm avg,
          Aux.get2 all s u = Some labels
          /\ spk !! u = Some rttm
          /\ session_avg_embs R zero mean set_iter dim max_num_of_spks
               labels e = Ok avg
          /\ Aux.get2 d s u = Some (Avg R (invert rttm) avg).
Proof.
  intros Hdom0 Hwf.
  set (good := fun s u (e : EmbTensor R) (acc : gmap Z (gmap string (SessAvg R))) =>
    exists labels rttm avg,
      Aux.get2 all s u = Some labels
      /\ spk !! u = Some rttm
      /\ session_avg_embs R zero mean set_iter dim max_num_of_spks
           labels e = Ok avg
      /\ Aux.get2 acc s u = Some (Avg R (invert rttm) avg)).
  match goal with
  | |- exists d, for_each ?L ?body ?a = Ok d /\ _ =>
      destruct (for_each_inv
        (fun (done : list (Z * gmap string (EmbTensor R))) acc =>
           (forall k, is_Some (acc !! k) <-> is_Some (emb !! k))
           /\ forall s sessions,
               (s, sessions) ∈ done ->
               forall u e, sessions !! u = Some e -> good s u e acc)
        body L a) as (d & E & Hd & Hgood)
  end.
  - split; [done|]. by intros s sessions ?%elem_of_nil.
  - intros done [s sessions] rest acc El (Hdom & Hdone). cbn [fst snd].
    assert (emb !! s = Some sessions) as Hs.
    { apply elem_of_map_to_list. rewrite El. apply elem_of_app. right. left. }
    match goal with
    | |- exists d, for_each ?L ?body ?a = Ok d /\ _ =>
        destruct (for_each_inv
          (fun (done' : list (string * EmbTensor R)) acc' =>
             (forall k, is_Some (acc' !! k) <-> is_Some (emb !! k))
             /\ (forall u e, (u, e) ∈ done' -> good s u e acc')
             /\ (forall s' u', s' <> s ->
                               Aux.get2 acc' s' u' = Aux.get2 acc s' u'))
          body L a) as (acc'' & E'' & Hdom'' & Hgood'' & Hframe'')
    end.
    + split; [done|]. split; [|done]. by intros u e ?%elem_of_nil.
    + intros done' [u e] rest' acc' El' (Hdom' & Hdone' & Hframe').
      cbn [fst snd].
      assert (sessions !! u = Some e) as Hu.
      { apply elem_of_map_to_list. rewrite El'. apply elem_of_app.
        right. left. }
      destruct (Hwf s sessions u e Hs Hu)
        as ([rttm Hrttm] & Hrows & labels & Hlab & Hlen & Hrange).
      apply get2_Some in Hlab as Hlab'.
      destruct Hlab' as (inner & Hall & Hinner).
      unfold getitem. rewrite Hall. cbn. rewrite Hinner. cbn.
      destruct (session_avg_embs_ok zero mean set_iter set_iter_elem
                  set_iter_NoDup dim max_num_of_spks labels e Hlen Hrange
                  Hrows) as (avg & Eavg & _).
      rewrite Eavg. cbn. rewrite Hrttm. cbn.
      destruct (setitem2_ok acc' s u (Avg R (invert rttm) avg))
        as (acc3 & E3 & Hdom3 & Hget3 & Hother3).
      { apply Hdom'. by eexists. }
      exists acc3. split; [done|]. split; [|split].
      * intros k. by rewrite Hdom3.
      * intros u0 e0 [Hin|[= -> ->]%list_elem_of_singleton]%elem_of_app.
        -- destruct (Hdone' u0 e0 Hin) as (l0 & r0 & a0 & ? & ? & ? & Hg).
           exists l0, r0, a0. repeat (split; [done|]).
           rewrite Hother3; [done|]. intros [= ->].
           pose proof (NoDup_fst_map_to_list sessions) as Hnd.
           rewrite El' in Hnd. by eapply NoDup_fst_middle.
        -- by exists labels, rttm, avg.
      * intros s' u' Hne. rewrite Hother3; [by apply Hframe'|]. congruence.
    + exists acc''. split; [done|]. split; [done|].
      intros s0 sessions0
             [Hin|[= -> ->]%list_elem_of_singleton]%elem_of_app u e Hu.
      * destruct (Hdone s0 sessions0 Hin u e Hu)
          as (l0 & r0 & a0 & ? & ? & ? & Hg).
        exists l0, r0, a0. repeat (split; [done|]).
        rewrite Hframe''; [done|]. intros ->.
        pose proof (NoDup_fst_map_to_list emb) as Hnd.
        rewrite El in Hnd. by eapply NoDup_fst_middle.
      * apply Hgood''. by apply elem_of_map_to_list.
  - exists d. split; [done|]. intros s sessions u e Hs Hu.
    apply (Hgood s sessions); [|done]. by apply elem_of_map_to_list.
Qed.

End GetClusEmbFacts.

Lemma first_occurrences_elem l x : x ∈ Samples.first_occurrences l <-> x ∈ l.
Proof. apply elem_of_remove_dups. Qed.

Lemma first_occurrences_NoDup l : NoDup (Samples.first_occurrences l).
Proof. apply NoDup_remove_dups. Qed.





(** ** EncDecDiarLabelModel *)

(** C10: [__init__] takes the topology from the trainer: with a trainer the
    world size is [num_nodes * num_gpus], without one it is 1. *)
Theorem C10_world_size_from_trainer :
  forall (Dict : Type) (cfg : EncDecDiarLabelModel.Cfg)
         (e : EncDecDiarLabelModel.EmbClus Dict),
    (forall t : EncDecDiarLabelModel.Trainer,
        EncDecDiarLabelModel.world_size
          (EncDecDiarLabelModel.__init__ cfg e (Some t))
        = EncDecDiarLabelModel.num_nodes t * EncDecDiarLabelModel.num_gpus t)
    /\ EncDecDiarLabelModel.world_size
         (EncDecDiarLabelModel.__init__ cfg e None) = 1.
Proof.
  intros Dict cfg e. split.
  - intros [nodes gpus]. reflexivity.
  - reflexivity.
Qed.

(** C8: whatever the input, the TS-VAD module is called on the feature
    sequence cut to its first 3000 frames and on lengths that are all
    3000. *)
Theorem C8_forward_fixed_length :
  forall (R Audio Ivectors Preds : Type)
         (preprocessor : Audio -> list Z -> EncDecDiarLabelModel.Signal R * list Z)
         (tsvad : EncDecDiarLabelModel.Signal R -> list Z -> Ivectors -> Preds)
         (input_signal : Audio) (input_signal_length : list Z)
         (ivectors : Ivectors),
    let pre := preprocessor input_signal input_signal_length in
    let sent_signal := map (map (take 3000)) (fst pre) in
    let sent_len := replicate (length (snd pre)) 3000 in
    EncDecDiarLabelModel.forward R Audio Ivectors Preds preprocessor tsvad
      input_signal input_signal_length ivectors
    = tsvad sent_signal sent_len ivectors
    /\ Forall (Forall (fun frames => (length frames <= 3000)%nat)) sent_signal
    /\ length sent_len = length (snd pre)
    /\ Forall (fun l => l = 3000) sent_len.
Proof.
  intros R Audio Ivectors Preds preprocessor tsvad sig len iv pre S L.
  repeat split.
  - unfold EncDecDiarLabelModel.forward, EncDecDiarLabelModel.tsvad_inputs.
    subst S L pre. destruct (preprocessor sig len) as [ps pl]; simpl.
    f_equal. unfold EncDecDiarLabelModel.scalar_mul, EncDecDiarLabelModel.ones_like.
    rewrite map_map. clear. induction pl as [|x pl IH]; simpl; [done|].
    by rewrite IH.
  - subst S. apply Forall_forall. intros row Hrow.
    apply list_elem_of_fmap in Hrow as (row0 & -> & _).
    apply Forall_forall. intros fr Hfr.
    apply list_elem_of_fmap in Hfr as (fr0 & -> & _).
    rewrite length_take. lia.
  - subst L. apply length_replicate.
  - subst L. apply Forall_replicate. reflexivity.
Qed.

(** ** PromptTable and PromptEmbedding *)

Section PromptTableFacts.
Context {R : Type} (zero : R) (scale : Q -> R -> R).

Import Py PromptTable.

Lemma embedding_lookup_all (pre w : Tensor R) :
  embedding_lookup R (pre ++ w) (seq (length pre) (length w)) = Ok w.
Proof.
  revert pre. induction w as [|row w IH]; intros pre; [reflexivity|].
  specialize (IH (pre ++ [row])).
  rewrite <- app_assoc, length_app, Nat.add_1_r in IH. cbn in IH.
  unfold embedding_lookup in *. cbn.
  rewrite IH. unfold index.
  rewrite (list_lookup_middle pre w row (length pre) eq_refl). reflexivity.
Qed.

Lemma embedding_lookup_full (w : Tensor R) :
  embedding_lookup R w (seq 0 (length w)) = Ok w.
Proof. exact (embedding_lookup_all [] w). Qed.

Lemma Embedding_shape draw rows cols :
  has_shape R rows cols (Embedding R draw rows cols).
Proof.
  unfold has_shape, Embedding. split.
  - by rewrite length_map, length_seq.
  - apply Forall_forall. intros row Hrow.
    apply list_elem_of_fmap in Hrow as (i & -> & _).
    by rewrite length_map, length_seq.
Qed.

Lemma init_in_place_shape init rows cols (t : Tensor R) :
  has_shape R rows cols t -> has_shape R rows cols (init_in_place R init t).
Proof.
  unfold has_shape, init_in_place. intros [Hlen Hrows]. split.
  - by rewrite length_imap.
  - apply Forall_forall. intros row Hrow.
    apply list_elem_of_lookup in Hrow as (i & Hi).
    rewrite list_lookup_imap in Hi.
    apply fmap_Some in Hi as (row0 & E & ->).
    rewrite length_imap.
    rewrite Forall_forall in Hrows. apply Hrows.
    apply list_elem_of_lookup. eauto.
Qed.

Lemma Dropout_zero p training keep (x : Tensor R) :
  (p == 0)%Q -> Dropout R zero scale p training keep x = x.
Proof.
  intros Hp. unfold Dropout.
  apply Qeq_bool_iff in Hp. rewrite Hp. by rewrite orb_true_r.
Qed.

End PromptTableFacts.

(** C9: [remove_prompt] reads the bare name [prompt_table], which is bound
    neither in the function nor in the module, before it does anything
    else: every call raises [NameError] and leaves the object as it was,
    whether or not the task is in the table. *)
Theorem C9_remove_prompt_raises_NameError :
  forall (R : Type) (have_apex : bool) (self : PromptTable.PromptTable R)
         (taskname : string),
    PromptTable.remove_prompt R have_apex self taskname
    = (self, Py.Raise Py.NameError).
Proof.
  intros R have_apex self taskname.
  unfold PromptTable.remove_prompt.
  replace (PromptTable.load_global have_apex "prompt_table")
    with (@Py.Raise PromptTable.global_obj Py.NameError);
    [reflexivity|].
  unfold PromptTable.load_global. by destruct have_apex.
Qed.

(** C7, as stated, fails: a [PromptEmbedding] built from a prompt text whose
    weights have one row while [total_soft_tokens] is 2 has no row 1 to
    return, and [forward] raises [IndexError]. *)
Lemma C7_counterexample :
  let pe := PromptTable.PromptEmbedding__init__ Z (fun _ _ => 0)
              true 1%nat 2%nat [[5]] (fun _ _ _ => 0) 0%Q in
  PromptTable.forward Z 0 (fun _ v => v) pe (fun _ _ => true)
  = Py.Raise Py.IndexError
  /\ ~ (exists t, PromptTable.forward Z 0 (fun _ v => v) pe (fun _ _ => true)
                  = Py.Ok t
                  /\ PromptTable.has_shape Z 2 1 t).
Proof.
  cbv zeta. split; [reflexivity|].
  intros (t & Ht & _). discriminate Ht.
Qed.

(** C7 (amended): for a [PromptEmbedding] with dropout probability 0 that is
    initialised at random, or from weights of shape
    [(total_soft_tokens, hidden_size)], [forward] returns the embedding
    table itself: a tensor of that shape whose row [i] is row [i] of the
    table. *)
Theorem C7_forward_returns_table :
  forall (R : Type) (zero : R) (scale : Q -> R -> R)
         (draw : nat -> nat -> R) (init_from_prompt_text : bool)
         (hidden_size total_soft_tokens : nat)
         (word_embedding_weights : PromptTable.Tensor R)
         (init_method : PromptTable.Tensor R -> nat -> nat -> R)
         (p : Q) (keep : nat -> nat -> bool),
    (p == 0)%Q ->
    (init_from_prompt_text = true ->
     PromptTable.has_shape R total_soft_tokens hidden_size
       word_embedding_weights) ->
    let pe := PromptTable.PromptEmbedding__init__ R draw init_from_prompt_text
                hidden_size total_soft_tokens word_embedding_weights
                init_method p in
    exists t,
      PromptTable.forward R zero scale pe keep = Py.Ok t
      /\ PromptTable.has_shape R total_soft_tokens hidden_size t
      /\ forall i, (i < total_soft_tokens)%nat ->
                   t !! i = PromptTable.prompt_embeddings_weight R pe !! i.
Proof.
  intros R zero scale draw ifpt hidden total wew init_method p keep Hp Hshape pe.
  assert (Hw : PromptTable.has_shape R total hidden
                 (PromptTable.prompt_embeddings_weight R pe)).
  { subst pe. cbn. destruct ifpt; [by apply Hshape|].
    apply init_in_place_shape, Embedding_shape. }
  exists (PromptTable.prompt_embeddings_weight R pe).
  split; [|split; [exact Hw|reflexivity]].
  unfold PromptTable.forward.
  replace (PromptTable.indices R pe)
    with (seq 0 (length (PromptTable.prompt_embeddings_weight R pe)))
    by (destruct Hw as [-> _]; reflexivity).
  rewrite embedding_lookup_full. cbn.
  by rewrite (Dropout_zero zero scale).
Qed.

Lemma C7_forward_returns_table_witness :
  exists t,
    PromptTable.forward Z 0 (fun _ v => v)
      (PromptTable.PromptEmbedding__init__ Z (fun _ _ => 0) true 2%nat 2%nat
         [[1; 2]; [3; 4]] (fun _ _ _ => 0) 0%Q) (fun _ _ => true) = Py.Ok t
    /\ PromptTable.has_shape Z 2 2 t
    /\ forall i, (i < 2)%nat -> t !! i = [[1; 2]; [3; 4]] !! i.
Proof.
  apply (C7_forward_returns_table Z 0 (fun _ v => v) (fun _ _ => 0) true
           2%nat 2%nat [[1; 2]; [3; 4]] (fun _ _ _ => 0) 0%Q (fun _ _ => true)).
  - reflexivity.
  - intros _. split; [reflexivity|]. repeat constructor.
Defined.
(** ** Two stable sorts in a row *)

Section TwoSorts.
Context {A K1 K2 : Type}.
Context (leb1 : K1 -> K1 -> bool) (key1 : A -> K1).
Context (leb2 : K2 -> K2 -> bool) (key2 : A -> K2).
Hypothesis leb1_total : forall a b, leb1 a b = true \/ leb1 b a = true.
Hypothesis leb1_trans :
  forall a b c, leb1 a b = true -> leb1 b c = true -> leb1 a c = true.
Hypothesis leb2_total : forall a b, leb2 a b = true \/ leb2 b a = true.
Hypothesis leb2_trans :
  forall a b c, leb2 a b = true -> leb2 b c = true -> leb2 a c = true.

Local Notation "'lex'" := (Spec.lex_leb leb1 key1 leb2 key2).

Lemma lex_total a b : lex a b = true \/ lex b a = true.
Proof.
  unfold Spec.lex_leb.
  destruct (leb2_total (key2 a) (key2 b)) as [H|H],
           (leb1_total (key1 a) (key1 b)) as [H'|H']; rewrite ?H, ?H';
    destruct (leb2 (key2 a) (key2 b)), (leb2 (key2 b) (key2 a));
    rewrite ?H'; auto; discriminate.
Qed.

Lemma lex_trans a b c : lex a b = true -> lex b c = true -> lex a c = true.
Proof.
  unfold Spec.lex_leb.
  destruct (leb2 (key2 a) (key2 b)) eqn:Hab; [|done].
  destruct (leb2 (key2 b) (key2 c)) eqn:Hbc; [|by destruct (leb2 _ _)].
  rewrite (leb2_trans _ _ _ Hab Hbc).
  destruct (leb2 (key2 c) (key2 a)) eqn:Hca; [|done].
  rewrite (leb2_trans _ _ _ Hbc Hca), (leb2_trans _ _ _ Hca Hab).
  apply leb1_trans.
Qed.

Lemma first_min_cons {K} (leb : K -> K -> bool) (key : A -> K) x l :
  Aux.first_min leb key (x :: l)
  = Spec.earlier_opt leb key (Some x) (Aux.first_min leb key l).
Proof.
  cbn. destruct (Aux.first_min leb key l) as [m|]; [|done].
  cbn. unfold Spec.earlier. by destruct (leb (key x) (key m)).
Qed.

Lemma earlier_opt_assoc (a b c : option A) :
  Spec.earlier_opt leb2 key2 a (Spec.earlier_opt leb2 key2 b c)
  = Spec.earlier_opt leb2 key2 (Spec.earlier_opt leb2 key2 a b) c.
Proof.
  destruct a as [a|], b as [b|], c as [c|]; try done. cbn. f_equal.
  unfold Spec.earlier.
  destruct (leb2 (key2 b) (key2 c)) eqn:Hbc,
           (leb2 (key2 a) (key2 b)) eqn:Hab; rewrite ?Hbc, ?Hab; try done.
  - by rewrite (leb2_trans _ _ _ Hab Hbc).
  - destruct (leb2 (key2 a) (key2 c)) eqn:Hac; [|done].
    destruct (leb2_total (key2 b) (key2 c)) as [H|H]; [congruence|].
    by rewrite (leb2_trans _ _ _ Hac H) in Hab.
Qed.

Lemma first_min_app (l1 l2 : list A) :
  Aux.first_min leb2 key2 (l1 ++ l2)
  = Spec.earlier_opt leb2 key2 (Aux.first_min leb2 key2 l1)
                (Aux.first_min leb2 key2 l2).
Proof.
  induction l1 as [|x l1 IH].
  - cbn. by destruct (Aux.first_min leb2 key2 l2).
  - rewrite <- app_comm_cons, !first_min_cons, IH. apply earlier_opt_assoc.
Qed.

Lemma first_min_elem {K} (leb : K -> K -> bool) (key : A -> K) l m :
  Aux.first_min leb key l = Some m -> m ∈ l.
Proof.
  revert m. induction l as [|x l IH]; intros m; cbn; [done|].
  destruct (Aux.first_min leb key l) as [m'|].
  - destruct (leb (key x) (key m')); intros [= <-]; [left|right; by apply IH].
  - intros [= <-]. left.
Qed.

(** Where the stable insertion puts an item in a sorted list: after the
    items of strictly smaller key, before the others. *)
Lemma insert_by_split x (S : list A) :
  StronglySorted (Aux.key_le leb1 key1) S ->
  exists pre post,
    S = pre ++ post
    /\ Py.insert_by leb1 key1 x S = pre ++ x :: post
    /\ Forall (fun y => leb1 (key1 x) (key1 y) = false) pre
    /\ Forall (fun y => leb1 (key1 x) (key1 y) = true) post.
Proof.
  induction 1 as [|y S HS IH Hy]; cbn.
  - exists [], []. repeat split; constructor.
  - destruct (leb1 (key1 x) (key1 y)) eqn:E.
    + exists [], (y :: S). repeat split; [constructor|].
      constructor; [done|]. eapply Forall_impl; [exact Hy|].
      intros z Hz. by eapply leb1_trans.
    + destruct IH as (pre & post & -> & -> & Hpre & Hpost).
      exists (y :: pre), post. repeat split; [|done]. by constructor.
Qed.

(** A stable sort by [key1] followed by a stable sort by [key2] puts first
    the leftmost item that is smallest by [key2] and then [key1]. *)
Lemma first_min_sorted (l : list A) :
  Aux.first_min leb2 key2 (Py.sorted leb1 key1 l)
  = Aux.first_min lex id l.
Proof.
  induction l as [|x l IH]; [done|].
  rewrite first_min_cons, <- IH. cbn [Py.sorted foldr].
  fold (Py.sorted leb1 key1 l).
  destruct (insert_by_split x (Py.sorted leb1 key1 l))
    as (pre & post & ES & -> & Hpre & Hpost).
  { by apply sorted_sorted. }
  rewrite ES, !first_min_app, first_min_cons.
  destruct (Aux.first_min leb2 key2 pre) as [a|] eqn:Ea,
           (Aux.first_min leb2 key2 post) as [b|] eqn:Eb; cbn;
    try (apply first_min_elem in Ea; rewrite Forall_forall in Hpre;
         specialize (Hpre a Ea));
    try (apply first_min_elem in Eb; rewrite Forall_forall in Hpost;
         specialize (Hpost b Eb));
    try done; f_equal; unfold Spec.earlier, Spec.lex_leb; cbn.
  - destruct (leb2 (key2 a) (key2 b)) eqn:Hab,
             (leb2 (key2 b) (key2 a)) eqn:Hba,
             (leb2 (key2 a) (key2 x)) eqn:Hax,
             (leb2 (key2 x) (key2 a)) eqn:Hxa,
             (leb2 (key2 b) (key2 x)) eqn:Hbx,
             (leb2 (key2 x) (key2 b)) eqn:Hxb;
      rewrite ?Hab, ?Hba, ?Hax, ?Hxa, ?Hbx, ?Hxb, ?Hpre, ?Hpost;
      try done; exfalso;
      match goal with
      | H1 : leb2 ?p ?q = false, H2 : leb2 ?q ?p = false |- _ =>
          destruct (leb2_total p q); congruence
      | H1 : leb2 ?p ?q = true, H2 : leb2 ?q ?r = true,
        H3 : leb2 ?p ?r = false |- _ =>
          rewrite (leb2_trans _ _ _ H1 H2) in H3; discriminate H3
      end.
  - destruct (leb2 (key2 a) (key2 x)) eqn:Hax,
             (leb2 (key2 x) (key2 a)) eqn:Hxa;
      rewrite ?Hax, ?Hxa, ?Hpre; try done.
    destruct (leb2_total (key2 a) (key2 x)); congruence.
  - destruct (leb2 (key2 x) (key2 b)) eqn:Hxb,
             (leb2 (key2 b) (key2 x)) eqn:Hbx;
      rewrite ?Hxb, ?Hbx, ?Hpost; done.
Qed.

End TwoSorts.
(** ** More on the voting of the punctuation script *)

Section VotingMore.
Import Py Punctuate.

Lemma match_head {A B} (l : list A) (e : B) (f : A -> B) :
  match l with [] => e | x :: _ => f x end
  = match head l with None => e | Some x => f x end.
Proof. by destruct l. Qed.

(** With counts that are not 0, [select_best_label] returns the label of
    the leftmost item that ranks first. *)
Lemma select_best_label_first_min (votes : votes) :
  Forall (fun x => 0 < fst (snd x)) votes ->
  select_best_label votes
  = match Aux.first_min Spec.ranks_before id votes with
    | Some x => Ok (fst x)
    | None => Raise IndexError
    end.
Proof.
  intros Hpos. rewrite (select_best_label_sorted _ Hpos).
  rewrite (match_head _ (Raise IndexError) (fun x => Ok (fst x))).
  rewrite head_sorted.
  by rewrite (first_min_sorted Qle_bool Aux.ratio Z.leb key_count
                Qle_bool_total Qle_bool_trans Zleb_total Zleb_trans).
Qed.

Lemma ranks_before_total a b :
  Spec.ranks_before a b = true \/ Spec.ranks_before b a = true.
Proof.
  apply lex_total; [apply Qle_bool_total|apply Zleb_total].
Qed.

Lemma ranks_before_trans a b c :
  Spec.ranks_before a b = true -> Spec.ranks_before b c = true ->
  Spec.ranks_before a c = true.
Proof. apply lex_trans; [apply Qle_bool_trans|apply Zleb_trans]. Qed.

Lemma ratio_lt_flip (x y : string * (Z * Z)) :
  0 < fst (snd x) -> 0 < fst (snd y) ->
  Qle_bool (Aux.ratio y) (Aux.ratio x) = false ->
  (inject_Z (snd (snd y)) / inject_Z (fst (snd y))
   < inject_Z (snd (snd x)) / inject_Z (fst (snd x)))%Q.
Proof.
  destruct x as [lx [cx sx]], y as [ly [cy sy]]. unfold Aux.ratio. cbn.
  intros Hx Hy Hle.
  assert (~ (inject_Z (- sy) / inject_Z cy
             <= inject_Z (- sx) / inject_Z cx)%Q) as Hn.
  { intros H. apply Qle_bool_iff in H. congruence. }
  apply Qnot_le_lt in Hn. revert Hn.
  destruct cx as [|px|px]; try lia. destruct cy as [|py|py]; try lia.
  unfold Qlt, Qdiv, Qmult, Qinv, inject_Z. cbn. nia.
Qed.

(** What ranking first and ranking strictly first mean for the counts and
    the scores. *)
Lemma ranks_before_true (x y : string * (Z * Z)) :
  0 < fst (snd x) -> 0 < fst (snd y) ->
  Spec.ranks_before x y = true ->
  fst (snd y) < fst (snd x)
  \/ (fst (snd y) = fst (snd x)
      /\ (inject_Z (snd (snd y)) / inject_Z (fst (snd y))
          <= inject_Z (snd (snd x)) / inject_Z (fst (snd x)))%Q).
Proof.
  intros Hx Hy. unfold Spec.ranks_before, Spec.lex_leb, key_count.
  destruct (Z.leb_spec (- fst (snd x)) (- fst (snd y))); [|done].
  destruct (Z.leb_spec (- fst (snd y)) (- fst (snd x))).
  - intros Hr. right. split; [lia|]. by apply ratio_le_flip.
  - intros _. left. lia.
Qed.

Lemma ranks_before_false (x y : string * (Z * Z)) :
  0 < fst (snd x) -> 0 < fst (snd y) ->
  Spec.ranks_before y x = false ->
  fst (snd y) < fst (snd x)
  \/ (fst (snd y) = fst (snd x)
      /\ (inject_Z (snd (snd y)) / inject_Z (fst (snd y))
          < inject_Z (snd (snd x)) / inject_Z (fst (snd x)))%Q).
Proof.
  intros Hx Hy. unfold Spec.ranks_before, Spec.lex_leb, key_count.
  destruct (Z.leb_spec (- fst (snd y)) (- fst (snd x))); [|intros _; left; lia].
  destruct (Z.leb_spec (- fst (snd x)) (- fst (snd y))); [|done].
  intros Hr. right. split; [lia|]. by apply ratio_lt_flip.
Qed.

Lemma mapM_raise {A B} (f : A -> result B) (l : list A) (e : exn) :
  (forall x e', x ∈ l -> f x = Raise e' -> e' = e) ->
  (exists x, x ∈ l /\ f x = Raise e) ->
  mapM f l = Raise e.
Proof.
  induction l as [|y l IH]; intros Hall (x & Hx & Ex).
  - by apply elem_of_nil in Hx.
  - cbn. destruct (f y) as [b|e'] eqn:Ey; cbn.
    + apply elem_of_cons in Hx as [->|Hx]; [congruence|].
      unfold mbind, result_bind in *. rewrite IH; [done| |by exists x].
      intros z e'' Hz. apply Hall. by right.
    + f_equal. eapply Hall; [left|done].
Qed.

Lemma update_label_counter_total counter lbl n w :
  Spec.total_count (update_label_counter counter lbl n w)
  = Spec.total_count counter + 1
  /\ Spec.total_score (update_label_counter counter lbl n w)
     = Spec.total_score counter + vote_score n w.
Proof.
  unfold Spec.total_count, Spec.total_score.
  induction counter as [|[l [c s]] counter [IH1 IH2]]; cbn; [lia|].
  destruct (decide (l = lbl)); cbn; [lia|]. cbn in IH1, IH2.
  rewrite IH1, IH2. lia.
Qed.

Lemma cast_votes_accumulated c l :
  accumulated c -> accumulated (Spec.cast_votes c l).
Proof.
  revert c. induction l as [|v l IH]; intros c Hc; [done|].
  cbn. apply IH. by constructor.
Qed.

End VotingMore.





(** X3: [update_label_counter] is the dictionary update it stands for: a
    label that is present gets its count raised by 1 and its score by the
    score of the vote, a new label enters with the count 1 and the score
    of the vote, and no other label changes. *)
Theorem X3_update_label_counter_dict :
  forall (counter : Punctuate.votes) lbl n w,
    Spec.as_dict (Punctuate.update_label_counter counter lbl n w)
    = <[lbl := match Spec.as_dict counter !! lbl with
               | Some (count, score) =>
                   (count + 1, score + Punctuate.vote_score n w)
               | None => (1, Punctuate.vote_score n w)
               end]> (Spec.as_dict counter).
Proof.
  intros counter lbl n w. unfold Spec.as_dict.
  induction counter as [|[l [c s]] counter IH]; cbn.
  - by rewrite lookup_empty.
  - destruct (decide (l = lbl)) as [->|Hne]; cbn.
    + by rewrite lookup_insert_eq, insert_insert_eq.
    + rewrite IH, lookup_insert_ne by done. by rewrite insert_insert_ne.
Qed.

(** X4: votes are conserved. After a list of votes cast on the empty
    dictionary, the counts add up to the number of votes and the scores to
    the sum of the scores of the votes; the dictionary is one that
    [select_best_label] accepts. *)
Theorem X4_votes_conserved :
  forall l : list Spec.vote,
    Spec.total_count (Spec.cast_votes [] l) = Z.of_nat (length l)
    /\ Spec.total_score (Spec.cast_votes [] l)
       = foldr Z.add 0
           ((fun v => Punctuate.vote_score (snd (fst v)) (snd v)) <$> l)
    /\ Punctuate.accumulated (Spec.cast_votes [] l).
Proof.
  intros l. split; [|split].
  - assert (forall c, Spec.total_count (Spec.cast_votes c l)
                      = Spec.total_count c + Z.of_nat (length l)) as H.
    { induction l as [|v l IH]; intros c; cbn [Spec.cast_votes foldl length].
      - lia.
      - fold (Spec.cast_votes
                (Punctuate.update_label_counter c v.1.1 v.1.2 v.2) l).
        rewrite IH, (proj1 (update_label_counter_total _ _ _ _)). lia. }
    by rewrite H.
  - assert (forall c, Spec.total_score (Spec.cast_votes c l)
                      = Spec.total_score c
                        + foldr Z.add 0
                            ((fun v => Punctuate.vote_score (snd (fst v))
                                         (snd v)) <$> l)) as H.
    { induction l as [|v l IH]; intros c; cbn [Spec.cast_votes foldl].
      - cbn. lia.
      - fold (Spec.cast_votes
                (Punctuate.update_label_counter c v.1.1 v.1.2 v.2) l).
        rewrite IH, (proj2 (update_label_counter_total _ _ _ _)).
        cbn. lia. }
    by rewrite H.
  - apply cast_votes_accumulated. constructor.
Qed.
(** ** More on the windows of the punctuation script *)

Section SegmentsMore.
Import Py Punctuate.

(** The loop over one query, with a positive step, in full: the windows it
    records and where each of them ends. *)
Lemma while_segments_exact fuel words q_i max_seq_length step st :
  (0 < step)%nat ->
  (length words <= fuel + segment_start st + max_seq_length)%nat ->
  exists n,
    while_segments fuel words q_i max_seq_length step st
    = Some
        {| segments :=
             segments st
             ++ ((fun k =>
                    join " " (slice words (segment_start st + k * step)
                                (segment_start st + k * step
                                 + max_seq_length)))
                   <$> seq 0 n);
           query_indices := query_indices st ++ replicate n q_i;
           start_word_i :=
             start_word_i st
             ++ ((fun k => segment_start st + k * step)%nat <$> seq 0 n);
           segment_start := (segment_start st + n * step)%nat |}
    /\ forall k, (k < n)%nat ->
                 (segment_start st + k * step + max_seq_length
                  < length words)%nat.
Proof.
  intros Hstep. revert st.
  induction fuel as [|fuel IH]; intros st Hfuel; cbn [while_segments].
  - destruct (Nat.ltb_spec (segment_start st + max_seq_length)
                           (length words)); [lia|].
    exists 0%nat. split; [|lia]. destruct st; cbn.
    by rewrite !app_nil_r, Nat.add_0_r.
  - destruct (Nat.ltb_spec (segment_start st + max_seq_length)
                           (length words)) as [Hlt|Hge].
    + destruct (IH (emit words q_i max_seq_length step st)) as (n & E & Hn).
      { cbn. lia. }
      exists (S n). rewrite E. cbn [emit segments query_indices start_word_i
                                        segment_start].
      split.
      * f_equal. f_equal.
        -- rewrite <- app_assoc. f_equal. cbn [seq fmap list_fmap app].
           rewrite Nat.mul_0_l, Nat.add_0_r. f_equal.
           rewrite <- fmap_S_seq, <- list_fmap_compose.
           apply list_fmap_ext. intros _ k _. cbn. do 2 f_equal; lia.
        -- by rewrite <- app_assoc.
        -- rewrite <- app_assoc. f_equal. cbn [seq fmap list_fmap app].
           rewrite Nat.mul_0_l, Nat.add_0_r. f_equal.
           rewrite <- fmap_S_seq, <- list_fmap_compose.
           apply list_fmap_ext. intros _ k _. cbn. lia.
        -- lia.
      * intros [|k] Hk; [lia|].
        specialize (Hn k ltac:(lia)). cbn in Hn. lia.
    + exists 0%nat. split; [|lia]. destruct st; cbn.
      by rewrite !app_nil_r, Nat.add_0_r.
Qed.

Lemma sorted_replicate (n q : nat) : StronglySorted le (replicate n q).
Proof.
  induction n as [|n IH]; cbn; constructor; [done|].
  apply Forall_forall. intros x Hx. apply elem_of_replicate_inv in Hx. lia.
Qed.

(** The loop over the queries, with a positive step. *)
Lemma for_queries_exact texts q0 max_seq_length step st :
  (0 < step)%nat ->
  exists n segs qis,
    for_queries texts q0 max_seq_length step st
    = Some
        {| segments := segments st ++ segs;
           query_indices := query_indices st ++ qis;
           start_word_i :=
             start_word_i st
             ++ ((fun k => segment_start st + k * step)%nat <$> seq 0 n);
           segment_start := (segment_start st + n * step)%nat |}
    /\ length segs = n /\ length qis = n
    /\ StronglySorted le qis
    /\ Forall (fun q => q0 <= q < q0 + length texts)%nat qis
    /\ forall k seg q,
        segs !! k = Some seg -> qis !! k = Some q ->
        exists query,
          texts !! (q - q0)%nat = Some query
          /\ seg = join " " (slice (split query) (segment_start st + k * step)
                               (segment_start st + k * step + max_seq_length))
          /\ (segment_start st + k * step + max_seq_length
              < length (split query))%nat.
Proof.
  intros Hstep. revert q0 st.
  induction texts as [|query texts IH]; intros q0 st; cbn [for_queries].
  - exists 0%nat, [], []. split.
    { destruct st; cbn. by rewrite !app_nil_r, Nat.add_0_r. }
    repeat split; try constructor. intros k seg q Hk. by destruct k.
  - destruct (while_segments_exact (length (split query)) (split query) q0
                max_seq_length step st Hstep) as (n1 & E1 & Hn1); [lia|].
    rewrite E1.
    match goal with
    | |- context [for_queries texts (S q0) _ _ ?st1] =>
        destruct (IH (S q0) st1)
          as (n2 & segs2 & qis2 & E2 & Hl1 & Hl2 & Hsort & Hrange & Hcont)
    end.
    rewrite E2. cbn [segments query_indices start_word_i segment_start] in *.
    exists (n1 + n2)%nat,
      (((fun k => join " " (slice (split query) (segment_start st + k * step)
                              (segment_start st + k * step + max_seq_length)))
          <$> seq 0 n1) ++ segs2),
      (replicate n1 q0 ++ qis2).
    split; [|split; [|split; [|split; [|split]]]].
    + f_equal. f_equal.
      * by rewrite <- app_assoc.
      * by rewrite <- app_assoc.
      * rewrite <- app_assoc. f_equal. rewrite seq_app, fmap_app. f_equal.
        cbn. replace (seq n1 n2) with ((fun k => n1 + k)%nat <$> seq 0 n2).
        2:{ by rewrite fmap_add_seq, Nat.add_0_r. }
        rewrite <- list_fmap_compose. apply list_fmap_ext.
        intros _ k _. cbn. lia.
      * lia.
    + rewrite length_app, length_fmap, length_seq. lia.
    + rewrite length_app, length_replicate. lia.
    + apply StronglySorted_app_2; [|apply sorted_replicate|done].
      intros a b Ha Hb. apply elem_of_replicate in Ha as [-> _].
      rewrite Forall_forall in Hrange. specialize (Hrange b Hb). lia.
    + apply Forall_app. split.
      * apply Forall_replicate. cbn. lia.
      * eapply Forall_impl; [exact Hrange|]. intros q Hq. cbn in *. lia.
    + intros k seg q Hseg Hq.
      destruct (decide (k < n1)%nat) as [Hk|Hk].
      * rewrite lookup_app_l in Hseg by (by rewrite length_fmap, length_seq).
        rewrite lookup_app_l in Hq by (by rewrite length_replicate).
        apply lookup_replicate in Hq as [-> _].
        rewrite list_lookup_fmap, lookup_seq_lt in Hseg by done.
        cbn in Hseg. injection Hseg as <-.
        exists query. rewrite Nat.sub_diag. split; [done|].
        split; [done|]. by apply Hn1.
      * rewrite lookup_app_r in Hseg
          by (rewrite length_fmap, length_seq; lia).
        rewrite lookup_app_r in Hq by (rewrite length_replicate; lia).
        rewrite length_fmap, length_seq in Hseg.
        rewrite length_replicate in Hq.
        destruct (Hcont (k - n1)%nat seg q Hseg Hq) as (qr & Hqr & -> & Hb).
        assert (S q0 <= q)%nat as Hq0.
        { rewrite Forall_forall in Hrange.
          apply list_elem_of_lookup_2 in Hq. specialize (Hrange q Hq). lia. }
        assert (segment_start st + n1 * step + (k - n1) * step
                = segment_start st + k * step)%nat as Hk'.
        { replace k with (n1 + (k - n1))%nat at 2 by lia.
          rewrite Nat.mul_add_distr_r. lia. }
        rewrite Hk' in Hb |- *.
        exists qr. split; [|split; [done|lia]].
        replace (q - q0)%nat with (S (q - S q0)) by lia. done.
Qed.

(** With [step = 0] a loop that is entered is never left, whatever the
    fuel. *)
Lemma while_segments_step_0 fuel words q_i max_seq_length st :
  (segment_start st + max_seq_length < length words)%nat ->
  while_segments fuel words q_i max_seq_length 0 st = None.
Proof.
  revert st. induction fuel as [|fuel IH]; intros st Hlt;
    cbn [while_segments];
    destruct (Nat.ltb_spec (segment_start st + max_seq_length)
                           (length words)); try lia; [done|].
  apply IH. cbn. lia.
Qed.

Lemma while_segments_short fuel words q_i max_seq_length step st :
  (length words <= segment_start st + max_seq_length)%nat ->
  while_segments fuel words q_i max_seq_length step st = Some st.
Proof.
  intros Hle.
  destruct fuel; cbn [while_segments];
    destruct (Nat.ltb_spec (segment_start st + max_seq_length)
                           (length words)); (lia || done).
Qed.

Lemma for_queries_short texts q0 max_seq_length step st :
  Forall (fun text => length (split text) <= max_seq_length)%nat texts ->
  for_queries texts q0 max_seq_length step st = Some st.
Proof.
  intros Hshort. revert q0.
  induction Hshort as [|text texts Ht _ IH]; intros q0; [done|].
  cbn. rewrite while_segments_short by lia. apply IH.
Qed.

End SegmentsMore.

(** X5: with a positive step [split_into_segments] returns, its three lists
    have one entry per segment, the query indices are in range and never
    decrease, and the segment number [i], counted over all queries, starts
    at word [i * step]. *)
Theorem X5_split_into_segments_shape :
  forall (texts : list string) (max_seq_length step : nat),
    (0 < step)%nat ->
    exists segments query_indices start_word_i,
      Punctuate.split_into_segments texts max_seq_length step
      = Some (segments, query_indices, start_word_i)
      /\ length query_indices = length segments
      /\ length start_word_i = length segments
      /\ StronglySorted le query_indices
      /\ Forall (fun q => q < length texts)%nat query_indices
      /\ forall i start,
          start_word_i !! i = Some start -> start = (i * step)%nat.
Proof.
  intros texts msl step Hstep. unfold Punctuate.split_into_segments.
  destruct (for_queries_exact texts 0 msl step
              {| Punctuate.segments := []; Punctuate.query_indices := [];
                 Punctuate.start_word_i := []; Punctuate.segment_start := 0 |}
              Hstep)
    as (n & segs & qis & E & Hl1 & Hl2 & Hsort & Hrange & _).
  rewrite E. cbn. eexists _, _, _. split; [reflexivity|].
  split; [lia|]. split; [by rewrite length_fmap, length_seq|].
  split; [done|]. split.
  - eapply Forall_impl; [exact Hrange|]. intros q Hq. cbn in Hq. lia.
  - intros i start Hi. rewrite list_lookup_fmap in Hi.
    destruct (seq 0 n !! i) as [k|] eqn:Ek; [|done].
    apply lookup_seq in Ek as [-> _]. cbn in Hi. by injection Hi as <-.
Qed.

Lemma X5_split_into_segments_shape_witness :
  exists segments query_indices start_word_i,
    Punctuate.split_into_segments ["a b c"; "d e f g h"]%string 2 1
    = Some (segments, query_indices, start_word_i)
    /\ length query_indices = length segments
    /\ length start_word_i = length segments
    /\ StronglySorted le query_indices
    /\ Forall (fun q => q < 2)%nat query_indices
    /\ forall i start, start_word_i !! i = Some start -> start = (i * 1)%nat.
Proof.
  apply (X5_split_into_segments_shape ["a b c"; "d e f g h"]%string 2 1).
  lia.
Defined.

(** X6: with a positive step every segment returned is the window of
    [max_seq_length] consecutive words of its own query that begins at the
    recorded start, and the window ends before the last word of the
    query. *)
Theorem X6_split_into_segments_windows :
  forall (texts : list string) (max_seq_length step : nat)
         segments query_indices start_word_i,
    (0 < step)%nat ->
    Punctuate.split_into_segments texts max_seq_length step
    = Some (segments, query_indices, start_word_i) ->
    forall i segment q_i start,
      segments !! i = Some segment ->
      query_indices !! i = Some q_i ->
      start_word_i !! i = Some start ->
      exists query,
        texts !! q_i = Some query
        /\ segment
           = Py.join " " (Py.slice (Py.split query) start
                            (start + max_seq_length))
        /\ length (Py.slice (Py.split query) start (start + max_seq_length))
           = max_seq_length
        /\ (start + max_seq_length < length (Py.split query))%nat.
Proof.
  intros texts msl step segments qis starts Hstep Hres i seg q start Hs Hq Hst.
  unfold Punctuate.split_into_segments in Hres.
  destruct (for_queries_exact texts 0 msl step
              {| Punctuate.segments := []; Punctuate.query_indices := [];
                 Punctuate.start_word_i := []; Punctuate.segment_start := 0 |}
              Hstep)
    as (n & segs & qis' & E & Hl1 & Hl2 & _ & _ & Hcont).
  rewrite E in Hres. cbn in Hres. injection Hres as <- <- <-.
  destruct (Hcont i seg q Hs Hq) as (query & Hquery & -> & Hb).
  cbn in Hquery, Hb. rewrite Nat.sub_0_r in Hquery.
  rewrite list_lookup_fmap in Hst.
  destruct (seq 0 n !! i) as [k|] eqn:Ek; [|done].
  apply lookup_seq in Ek as [-> _]. cbn in Hst. injection Hst as <-.
  exists query. split; [done|]. split; [done|]. split; [|done].
  unfold Py.slice. rewrite length_take, length_drop. lia.
Qed.

Lemma X6_split_into_segments_windows_witness :
  exists query,
    ["a b c"; "d e f g h"]%string !! 1%nat = Some query
    /\ "e f"%string = Py.join " " (Py.slice (Py.split query) 1 (1 + 2))
    /\ length (Py.slice (Py.split query) 1 (1 + 2)) = 2%nat
    /\ (1 + 2 < length (Py.split query))%nat.
Proof.
  apply (X6_split_into_segments_windows ["a b c"; "d e f g h"]%string 2 1
           ["a b"; "e f"; "f g"]%string [0; 1; 1]%nat [0; 1; 2]%nat
           ltac:(lia) eq_refl 1%nat "e f"%string 1%nat 1%nat);
    reflexivity.
Defined.



(** X8: with [step = 0] the loop over a query of more than
    [max_seq_length] words never ends, whatever the number of turns it is
    given, and [split_into_segments] does not return as soon as one text
    is that long. *)
Theorem X8_split_into_segments_step_0 :
  forall (texts : list string) (max_seq_length : nat),
    Exists (fun text => max_seq_length < length (Py.split text))%nat texts ->
    Punctuate.split_into_segments texts max_seq_length 0 = None
    /\ forall fuel words q_i st,
        (Punctuate.segment_start st + max_seq_length < length words)%nat ->
        Punctuate.while_segments fuel words q_i max_seq_length 0 st = None.
Proof.
  intros texts msl Hlong. split; [|intros; by apply while_segments_step_0].
  unfold Punctuate.split_into_segments.
  assert (forall q0,
             Punctuate.for_queries texts q0 msl 0
               {| Punctuate.segments := []; Punctuate.query_indices := [];
                  Punctuate.start_word_i := [];
                  Punctuate.segment_start := 0 |} = None) as H.
  { induction Hlong as [text texts Ht|text texts _ IH]; intros q0; cbn.
    - by rewrite while_segments_step_0.
    - destruct (decide (length (Py.split text) <= msl)%nat).
      + rewrite while_segments_short by (cbn; lia). apply IH.
      + by rewrite while_segments_step_0 by (cbn; lia). }
  by rewrite H.
Qed.

Lemma X8_split_into_segments_step_0_witness :
  Punctuate.split_into_segments ["a"; "b c d"]%string 2 0 = None.
Proof.
  apply (proj1 (X8_split_into_segments_step_0 ["a"; "b c d"]%string 2
                  ltac:(right; left; vm_compute; lia))).
Defined.
(** ** Segments, split again *)

Section SplitJoin.
Import Py.

Lemma append_empty_r (s : string) : s +:+ EmptyString = s.
Proof.
  induction s as [|c s IH]; [done|].
  change (String c (s +:+ EmptyString) = String c s). by f_equal.
Qed.

Lemma append_snoc (a : string) (c : ascii) (b : string) :
  (a +:+ String c EmptyString) +:+ b = a +:+ String c b.
Proof.
  induction a as [|x a IH]; [done|].
  change (String x ((a +:+ String c EmptyString) +:+ b)
          = String x (a +:+ String c b)).
  by f_equal.
Qed.

Lemma append_not_empty (a : string) (c : ascii) :
  a +:+ String c EmptyString <> EmptyString.
Proof. by destruct a. Qed.

Lemma no_space_snoc (a : string) (c : ascii) :
  Forall (fun c => is_space c = false) (list_ascii_of_string a) ->
  is_space c = false ->
  Forall (fun c => is_space c = false)
         (list_ascii_of_string (a +:+ String c EmptyString)).
Proof.
  intros Ha Hc. induction a as [|x a IH].
  - by repeat constructor.
  - change (Forall (fun c => is_space c = false)
              (x :: list_ascii_of_string (a +:+ String c EmptyString))).
    change (Forall (fun c => is_space c = false)
              (x :: list_ascii_of_string a)) in Ha.
    apply Forall_cons in Ha as [Hx Ha]. constructor; [done|]. by apply IH.
Qed.

(** The words [str.split] returns are not empty and hold no white
    space. *)
Lemma split_from_words (s cur : string) :
  Forall (fun c => is_space c = false) (list_ascii_of_string cur) ->
  Forall (fun w => w <> EmptyString
                   /\ Forall (fun c => is_space c = false)
                             (list_ascii_of_string w))
         (split_from cur s).
Proof.
  revert cur. induction s as [|c s IH]; intros cur Hcur; cbn.
  - destruct (decide (cur = EmptyString)); [constructor|].
    by repeat constructor.
  - destruct (is_space c) eqn:Hc.
    + destruct (decide (cur = EmptyString)).
      * apply IH. constructor.
      * constructor; [done|]. apply IH. constructor.
    + apply IH. by apply no_space_snoc.
Qed.

(** Reading a word. *)
Lemma split_from_word (w cur rest : string) :
  Forall (fun c => is_space c = false) (list_ascii_of_string w) ->
  split_from cur (w +:+ rest) = split_from (cur +:+ w) rest.
Proof.
  revert cur. induction w as [|c w IH]; intros cur Hw.
  - change (EmptyString +:+ rest) with rest. by rewrite append_empty_r.
  - change (String c w +:+ rest) with (String c (w +:+ rest)).
    change (Forall (fun c => is_space c = false)
              (c :: list_ascii_of_string w)) in Hw.
    apply Forall_cons in Hw as [Hc Hw]. cbn [split_from]. rewrite Hc.
    rewrite IH by done. by rewrite append_snoc.
Qed.

(** Words joined by single spaces and split again. *)
Lemma split_join (ws : list string) :
  Forall (fun w => w <> EmptyString
                   /\ Forall (fun c => is_space c = false)
                             (list_ascii_of_string w)) ws ->
  split (join " " ws) = ws.
Proof.
  unfold split, join.
  induction 1 as [|w ws [Hne Hw] Hws IH]; [done|].
  destruct ws as [|w2 ws].
  - cbn [String.concat].
    rewrite <- (append_empty_r w) at 1.
    rewrite split_from_word by done.
    change (EmptyString +:+ w) with w. cbn [split_from].
    by rewrite decide_False.
  - change (String.concat " " (w :: w2 :: ws))
      with (w +:+ String " " (String.concat " " (w2 :: ws))).
    rewrite split_from_word by done.
    change (EmptyString +:+ w) with w.
    cbn [split_from].
    change (is_space " ") with true. cbn iota.
    rewrite decide_False by done. by rewrite IH.
Qed.

End SplitJoin.

(** X30: a segment of [split_into_segments], split again, gives back the
    words of its window, [max_seq_length] of them: joining the words by
    single spaces loses nothing. *)
Theorem X30_segments_split_back :
  forall (texts : list string) (max_seq_length step : nat)
         segments query_indices start_word_i,
    (0 < step)%nat ->
    Punctuate.split_into_segments texts max_seq_length step
    = Some (segments, query_indices, start_word_i) ->
    forall i segment q_i start,
      segments !! i = Some segment ->
      query_indices !! i = Some q_i ->
      start_word_i !! i = Some start ->
      exists query,
        texts !! q_i = Some query
        /\ Py.split segment
           = Py.slice (Py.split query) start (start + max_seq_length)
        /\ length (Py.split segment) = max_seq_length.
Proof.
  intros texts msl step segments qis starts Hstep Hres i seg q start Hs Hq Hst.
  unfold Punctuate.split_into_segments in Hres.
  destruct (for_queries_exact texts 0 msl step
              {| Punctuate.segments := []; Punctuate.query_indices := [];
                 Punctuate.start_word_i := []; Punctuate.segment_start := 0 |}
              Hstep)
    as (n & segs & qis' & E & Hl1 & Hl2 & _ & _ & Hcont).
  rewrite E in Hres. cbn in Hres. injection Hres as <- <- <-.
  destruct (Hcont i seg q Hs Hq) as (query & Hquery & -> & Hb).
  cbn in Hquery, Hb. rewrite Nat.sub_0_r in Hquery.
  rewrite list_lookup_fmap in Hst.
  destruct (seq 0 n !! i) as [k|] eqn:Ek; [|done].
  apply lookup_seq in Ek as [-> _]. cbn in Hst. injection Hst as <-.
  exists query. split; [done|].
  assert (Py.split
            (Py.join " " (Py.slice (Py.split query) (0 + i * step)
                            (0 + i * step + msl)))
          = Py.slice (Py.split query) (0 + i * step) (0 + i * step + msl))
    as Hback.
  { apply split_join. unfold Py.slice.
    apply Forall_take, Forall_drop. apply split_from_words. constructor. }
  cbn in Hback |- *. rewrite Hback. split; [done|].
  unfold Py.slice. rewrite length_take, length_drop. lia.
Qed.

Lemma X30_segments_split_back_witness :
  exists query,
    ["a b c"; "d e f g h"]%string !! 1%nat = Some query
    /\ Py.split "e f" = Py.slice (Py.split query) 1 (1 + 2)
    /\ length (Py.split "e f") = 2%nat.
Proof.
  apply (X30_segments_split_back ["a b c"; "d e f g h"]%string 2 1
           ["a b"; "e f"; "f g"]%string [0; 1; 1]%nat [0; 1; 2]%nat
           ltac:(lia) eq_refl 1%nat "e f"%string 1%nat 1%nat);
    reflexivity.
Defined.
(** ** More on the punctuation verbalizer *)

(** Whatever the verbalizer maps is a token, and it is mapped to its
    symbol. *)
Lemma punctuation_accepted (i o : list ascii) :
  Pynini.transduces (PunctuationFst.fst PunctuationFst.__init__) i o ->
  exists ws p s,
    i = PunctuationFst.token ws p s
    /\ Forall (fun c => GraphUtils.is_white_space c = true) ws
    /\ p <> []
    /\ (Pynini.quote ∉ p)
    /\ (ascii_of_nat 125 ∉ s)
    /\ o = p.
Proof.
  pose proof char_class_chars GraphUtils.is_white_space as Cws.
  pose proof char_class_difference (fun _ => true) Pynini.quote as Cq.
  pose proof char_class_difference (fun _ => true) (ascii_of_nat 125) as Cb.
  unfold PunctuationFst.__init__, PunctuationFst.optimize,
    PunctuationFst.fst, PunctuationFst.token.
  cbn [Pynini.transduces].
  intros (i5 & iz & o5 & oz & -> & -> & H5 & -> & oz' & Hz).
  destruct H5 as (i4 & ie & o4 & oe & -> & -> & H4 & -> & oe' & -> & _).
  destruct H4 as (i3 & ip & o3 & op & -> & -> & H3 & Hp).
  destruct H3 as (i2 & iq & o2 & oq & -> & -> & H2 & -> & oq' & -> & _).
  destruct H2 as (ia & ids & oa & ods & -> & -> & Ha & -> & ods' & Hds).
  destruct Ha as (-> & oa' & -> & _).
  apply (closure_char_class _ _ _ _ _ Cws) in Hds as (_ & Hws & _).
  apply (closure_char_class _ _ _ _ _ Cq) in Hp as (-> & Hp & Hlen).
  apply (closure_char_class _ _ _ _ _ Cb) in Hz as (_ & Hs & _).
  exists ids, ip, iz. split; [by rewrite <- !app_assoc|].
  split; [done|]. split; [by intros ->; cbn in Hlen; lia|].
  split; [by apply (not_elem_of_class _ _ Hp)|].
  split; [by apply (not_elem_of_class _ _ Hs)|].
  by rewrite !app_nil_r.
Qed.

(** A token is read in one way only. *)
Lemma token_unique ws p s ws' p' s' :
  Forall (fun c => GraphUtils.is_white_space c = true) ws ->
  Forall (fun c => GraphUtils.is_white_space c = true) ws' ->
  Pynini.quote ∉ p -> Pynini.quote ∉ p' ->
  PunctuationFst.token ws p s = PunctuationFst.token ws' p' s' ->
  ws = ws' /\ p = p' /\ s = s'.
Proof.
  intros Hws Hws' Hp Hp' E. unfold PunctuationFst.token in E.
  apply app_inv_head in E. cbn [app] in E.
  destruct (app_cons_unique _ _ _ _ _ (white_space_not_quote _ Hws)
              (white_space_not_quote _ Hws') E) as [-> E'].
  destruct (app_cons_unique _ _ _ _ _ Hp Hp' E') as [-> E''].
  by apply app_inv_head in E''.
Qed.

(** X9: whatever the punctuation verbalizer gives an output for is a
    token [name:], white space, a symbol between double quotes,
    [ pause_length] and a rest without closing brace; the output is the
    symbol, so it is never empty and holds no double quote. *)
Theorem X9_punctuation_accepts_tokens_only :
  forall i o : list ascii,
    o ∈ Pynini.apply (PunctuationFst.fst PunctuationFst.__init__) i ->
    (exists ws p s,
        i = PunctuationFst.token ws p s
        /\ Forall (fun c => GraphUtils.is_white_space c = true) ws
        /\ (ascii_of_nat 125 ∉ s)
        /\ o = p)
    /\ o <> [] /\ Pynini.quote ∉ o.
Proof.
  intros i o Ho.
  apply (apply_agrees _ _ _ punctuation_productive) in Ho.
  destruct (punctuation_accepted i o Ho)
    as (ws & p & s & -> & Hws & Hp & Hq & Hs & ->).
  split; [|done]. by exists ws, p, s.
Qed.

Lemma X9_punctuation_accepts_tokens_only_witness :
  (exists ws p s,
      PunctuationFst.token [] (Pynini.str "!") (Pynini.str ": x")
      = PunctuationFst.token ws p s
      /\ Forall (fun c => GraphUtils.is_white_space c = true) ws
      /\ (ascii_of_nat 125 ∉ s)
      /\ Pynini.str "!" = p)
  /\ Pynini.str "!" <> [] /\ Pynini.quote ∉ Pynini.str "!".
Proof.
  apply (X9_punctuation_accepts_tokens_only
           (PunctuationFst.token [] (Pynini.str "!") (Pynini.str ": x"))
           (Pynini.str "!")).
  vm_compute. left.
Defined.

(** X10: the punctuation verbalizer is a function: an input has at most
    one output, in the relation and among the outputs [apply] lists. *)
Theorem X10_punctuation_functional :
  forall i o o' : list ascii,
    (Pynini.transduces (PunctuationFst.fst PunctuationFst.__init__) i o ->
     Pynini.transduces (PunctuationFst.fst PunctuationFst.__init__) i o' ->
     o = o')
    /\ (o ∈ Pynini.apply (PunctuationFst.fst PunctuationFst.__init__) i ->
        o' ∈ Pynini.apply (PunctuationFst.fst PunctuationFst.__init__) i ->
        o = o').
Proof.
  assert (forall i o o',
             Pynini.transduces (PunctuationFst.fst PunctuationFst.__init__)
               i o ->
             Pynini.transduces (PunctuationFst.fst PunctuationFst.__init__)
               i o' -> o = o') as H.
  { intros i o o' Ho Ho'.
    destruct (punctuation_accepted i o Ho)
      as (ws & p & s & -> & Hws & _ & Hq & _ & ->).
    destruct (punctuation_accepted _ o' Ho')
      as (ws' & p' & s' & E & Hws' & _ & Hq' & _ & ->).
    by destruct (token_unique _ _ _ _ _ _ Hws Hws' Hq Hq' E) as (_ & -> & _). }
  intros i o o'. split; [apply H|].
  intros Ho Ho'. apply (apply_agrees _ _ _ punctuation_productive) in Ho, Ho'.
  by apply (H i).
Qed.

Lemma X10_punctuation_functional_witness :
  Pynini.str "!" = Pynini.str "!".
Proof.
  apply (proj2 (X10_punctuation_functional
                  (PunctuationFst.token [] (Pynini.str "!")
                     (Pynini.str ": x"))
                  (Pynini.str "!") (Pynini.str "!")));
    vm_compute; left.
Defined.
(** ** More on ClusterEmbedding *)

Section ClusterMore.
Import Py ClusterEmbedding.
Context {R Time : Type} (zero : R) (mean : list R -> R).
Context (set_iter : list Z -> list Z).

(** The loop over the lines, line by line. *)
Lemma collect_base_labels_spec (clus_label : list (Line Time))
      (d0 : gmap string (list (BaseEntry Time))) :
  collect_base_labels Time clus_label d0
  = if decide (Forall (fun line => is_Some (d0 !! line_uniq_id Time line))
                      clus_label)
    then Ok (map_imap (fun u es =>
                         Some (es ++ ClusterSpec.session_entries clus_label u))
                      d0)
    else Raise KeyError.
Proof.
  revert d0. induction clus_label as [|line rest IH]; intros d0.
  - cbn. rewrite decide_True by constructor. f_equal.
    apply map_eq. intros u. rewrite map_lookup_imap.
    destruct (d0 !! u) as [es|]; cbn; [|done].
    unfold ClusterSpec.session_entries. cbn. by rewrite app_nil_r.
  - unfold collect_base_labels in *. cbn [for_each].
    unfold getitem at 1.
    destruct (d0 !! line_uniq_id Time line) as [es|] eqn:E; cbn.
    + rewrite IH.
      set (d1 := <[line_uniq_id Time line :=
                     es ++ [(line_stt Time line, line_end Time line,
                             line_label Time line)]]> d0).
      assert (forall u, is_Some (d1 !! u) <-> is_Some (d0 !! u)) as Hdom.
      { intros u. subst d1.
        destruct (decide (u = line_uniq_id Time line)) as [->|Hne].
        - rewrite lookup_insert_eq, E. split; eauto.
        - by rewrite lookup_insert_ne. }
      destruct (decide (Forall _ rest)) as [Hall|Hnot].
      * rewrite decide_True.
        2:{ constructor; [by rewrite E|].
            eapply Forall_impl; [exact Hall|]. intros l Hl. by apply Hdom. }
        f_equal. apply map_eq. intros u. rewrite !map_lookup_imap.
        subst d1. unfold ClusterSpec.session_entries.
        destruct (decide (u = line_uniq_id Time line)) as [->|Hne].
        -- rewrite lookup_insert_eq, E.
           rewrite ?filter_cons, decide_True by done. cbn.
           by rewrite <- app_assoc.
        -- rewrite lookup_insert_ne by done.
           rewrite ?filter_cons, decide_False by done. done.
      * rewrite decide_False; [done|].
        intros Hall. apply Hnot. apply Forall_cons in Hall as [_ Hall].
        eapply Forall_impl; [exact Hall|]. intros l Hl. by apply Hdom.
    + rewrite decide_False; [done|].
      intros Hall. apply Forall_cons in Hall as [[? Hl] _]. congruence.
Qed.

(** The inverse dictionary, entry by entry. *)
Lemma invert_foldl (l : list (string * string)) (acc : gmap string string) :
  let inv := foldl (fun inv kv => <[snd kv := fst kv]> inv) acc l in
  (forall v k, inv !! v = Some k -> (k, v) ∈ l \/ acc !! v = Some k)
  /\ (forall v, (is_Some (acc !! v) \/ exists k, (k, v) ∈ l) ->
                is_Some (inv !! v)).
Proof.
  revert acc. induction l as [|[k0 v0] l IH]; intros acc; cbn.
  - split; [by right|]. intros v [H|[k H]]; [done|].
    by apply elem_of_nil in H.
  - destruct (IH (<[v0 := k0]> acc)) as [IH1 IH2]. split.
    + intros v k H. apply IH1 in H as [H|H]; [left; by right|].
      destruct (decide (v = v0)) as [->|Hne].
      * rewrite lookup_insert_eq in H. injection H as <-. left. left.
      * rewrite lookup_insert_ne in H by done. by right.
    + intros v H. apply IH2.
      destruct (decide (v = v0)) as [->|Hne].
      * left. rewrite lookup_insert_eq. eauto.
      * rewrite lookup_insert_ne by done.
        destruct H as [H|[k H]]; [by left|]. right. exists k.
        apply elem_of_cons in H as [[= -> ->]|H]; [done|exact H].
Qed.

Lemma invert_Some (d : gmap string string) v k :
  invert d !! v = Some k -> d !! k = Some v.
Proof.
  intros H. apply (proj1 (invert_foldl (map_to_list d) ∅)) in H as [H|H].
  - by apply elem_of_map_to_list in H.
  - by rewrite lookup_empty in H.
Qed.

Lemma invert_is_Some (d : gmap string string) k v :
  d !! k = Some v -> is_Some (invert d !! v).
Proof.
  intros H. apply (proj2 (invert_foldl (map_to_list d) ∅)).
  right. exists k. by apply elem_of_map_to_list.
Qed.

Lemma invert_one_to_one (d : gmap string string) :
  ClusterSpec.one_to_one (invert d).
Proof.
  intros v v' k H H'. apply invert_Some in H, H'. congruence.
Qed.

Lemma invert_Some_iff (d : gmap string string) v k :
  ClusterSpec.one_to_one d ->
  invert d !! v = Some k <-> d !! k = Some v.
Proof.
  intros Hd. split; [apply invert_Some|].
  intros H. destruct (invert_is_Some d k v H) as [k' Hk'].
  rewrite Hk'. f_equal. apply invert_Some in Hk'. by apply (Hd k' k v).
Qed.

End ClusterMore.

(** X11: the loop of [get_clus_emb] over the lines of the clustering
    output appends to every session the entries of its lines, in the
    order of the lines; it raises [KeyError] exactly when a line names a
    session that is not a key of the dictionary. *)
Theorem X11_collect_base_labels_groups_lines :
  forall (Time : Type) (clus_label : list (ClusterEmbedding.Line Time))
         (d0 : gmap string (list (ClusterEmbedding.BaseEntry Time))),
    (Forall (fun line =>
               is_Some (d0 !! ClusterEmbedding.line_uniq_id Time line))
            clus_label ->
     exists d,
       ClusterEmbedding.collect_base_labels Time clus_label d0 = Py.Ok d
       /\ forall uniq_id,
           d !! uniq_id
           = (fun entries =>
                entries ++ ClusterSpec.session_entries clus_label uniq_id)
               <$> d0 !! uniq_id)
    /\ (Exists (fun line => d0 !! ClusterEmbedding.line_uniq_id Time line = None)
               clus_label ->
        ClusterEmbedding.collect_base_labels Time clus_label d0
        = Py.Raise Py.KeyError).
Proof.
  intros Time clus_label d0. rewrite collect_base_labels_spec. split.
  - intros Hall. rewrite decide_True by done. eexists. split; [done|].
    intros u. rewrite map_lookup_imap. by destruct (d0 !! u).
  - intros Hex. rewrite decide_False; [done|]. intros Hall.
    apply Exists_exists in Hex as (line & Hin & Hnone).
    rewrite Forall_forall in Hall. specialize (Hall line Hin).
    rewrite Hnone in Hall. by destruct Hall.
Qed.

Lemma X11_collect_base_labels_groups_lines_witness :
  exists d,
    ClusterEmbedding.collect_base_labels unit Samples.lines
      {[ "s"%string := [] ]} = Py.Ok d
    /\ forall uniq_id,
        d !! uniq_id
        = (fun entries =>
             entries ++ ClusterSpec.session_entries Samples.lines uniq_id)
            <$> ({[ "s"%string := [] ]} : gmap string _) !! uniq_id.
Proof.
  apply (proj1 (X11_collect_base_labels_groups_lines unit Samples.lines
                  {[ "s"%string := [] ]})).
  repeat constructor; vm_compute; eauto.
Defined.

(** X12: the dictionary [inv_map] of [get_clus_emb] maps a value of the
    speaker mapping to a key that has this value, and every value is a
    key of it. For a one-to-one speaker mapping it is the inverse:
    inverting it again gives the speaker mapping back. *)
Theorem X12_invert_inverse :
  forall d : gmap string string,
    (forall clus_key rttm_key,
        ClusterEmbedding.invert d !! clus_key = Some rttm_key ->
        d !! rttm_key = Some clus_key)
    /\ (forall rttm_key clus_key,
           d !! rttm_key = Some clus_key ->
           is_Some (ClusterEmbedding.invert d !! clus_key))
    /\ (ClusterSpec.one_to_one d ->
        ClusterEmbedding.invert (ClusterEmbedding.invert d) = d).
Proof.
  intros d. split; [apply invert_Some|]. split; [apply invert_is_Some|].
  intros Hd. apply map_eq. intros k. apply option_eq. intros v.
  rewrite (invert_Some_iff _ _ _ (invert_one_to_one d)).
  by apply invert_Some_iff.
Qed.

Lemma X12_invert_inverse_witness :
  ClusterEmbedding.invert
    (ClusterEmbedding.invert
       {[ "speaker_a"%string := "speaker_0"%string;
          "speaker_b"%string := "speaker_1"%string ]})
  = {[ "speaker_a"%string := "speaker_0"%string;
       "speaker_b"%string := "speaker_1"%string ]}.
Proof.
  apply (proj2 (proj2 (X12_invert_inverse
                         {[ "speaker_a"%string := "speaker_0"%string;
                            "speaker_b"%string := "speaker_1"%string ]}))).
  intros k k' v Hk Hk'.
  destruct (decide (k = "speaker_a"%string)) as [->|Ha];
    destruct (decide (k' = "speaker_a"%string)) as [->|Ha']; [done| | |].
  - rewrite lookup_insert_eq in Hk. injection Hk as <-.
    rewrite lookup_insert_ne in Hk' by done.
    apply lookup_singleton_Some in Hk' as [_ [=]].
  - rewrite lookup_insert_eq in Hk'. injection Hk' as <-.
    rewrite lookup_insert_ne in Hk by done.
    apply lookup_singleton_Some in Hk as [_ [=]].
  - rewrite lookup_insert_ne in Hk, Hk' by done.
    apply lookup_singleton_Some in Hk as [<- _].
    by apply lookup_singleton_Some in Hk' as [<- _].
Defined.


Section ClusterErrors.
Import Py ClusterEmbedding.
Context {R : Type} (zero : R) (mean : list R -> R).
Context (set_iter : list Z -> list Z).
Hypothesis set_iter_elem : forall l x, x ∈ set_iter l <-> x ∈ l.

(** A loop whose turns keep an invariant, except for some that raise
    [e], raises [e] as soon as it meets one of those. *)
Lemma for_each_first_bad {A S} (Inv : S -> Prop) (good bad : A -> Prop)
      (body : A -> S -> result S) (e : exn) (l : list A) (s : S) :
  Inv s ->
  (forall x s, x ∈ l -> good x -> Inv s ->
               exists s', body x s = Ok s' /\ Inv s') ->
  (forall x s, x ∈ l -> bad x -> Inv s -> body x s = Raise e) ->
  (forall x, x ∈ l -> good x \/ bad x) ->
  (exists x, x ∈ l /\ bad x) ->
  for_each l body s = Raise e.
Proof.
  revert s. induction l as [|x l IH]; intros s Hs Hgood Hbad Hall Hex.
  - destruct Hex as (x & Hx & _). by apply elem_of_nil in Hx.
  - cbn [for_each]. destruct (Hall x (list_elem_of_here _ _)) as [Hx|Hx].
    + destruct (Hgood x s (list_elem_of_here _ _) Hx Hs) as (s' & E & Hs').
      rewrite E. cbn. apply IH; [done| | | |].
      * intros y s0 Hy. apply Hgood. by right.
      * intros y s0 Hy. apply Hbad. by right.
      * intros y Hy. apply Hall. by right.
      * destruct Hex as (y & Hy & Hb).
        apply elem_of_cons in Hy as [->|Hy]; [|by exists y].
        pose proof (Hbad x s (list_elem_of_here _ _) Hb Hs). congruence.
    + by rewrite (Hbad x s (list_elem_of_here _ _) Hx Hs).
Qed.

Lemma session_avg_embs_bad_label (dim max_num_of_spks : nat)
      (labels : list Z) (emb : EmbTensor R) :
  length labels = length emb ->
  Forall (fun row => length row = dim) emb ->
  Forall (fun k => 0 <= k) labels ->
  Exists (fun k => Z.of_nat max_num_of_spks <= k) labels ->
  (length (set_iter labels) <= max_num_of_spks)%nat ->
  session_avg_embs R zero mean set_iter dim max_num_of_spks labels emb
  = Raise IndexError.
Proof.
  intros Hlen Hrows Hpos Hex Hcount. unfold session_avg_embs.
  destruct (Nat.leb_spec (length (set_iter labels)) max_num_of_spks);
    [|lia]. cbn [negb].
  apply (for_each_first_bad
           (fun avg => length avg = dim
                       /\ Forall (fun row => length row = max_num_of_spks) avg)
           (fun k => 0 <= k < Z.of_nat max_num_of_spks)
           (fun k => Z.of_nat max_num_of_spks <= k)).
  - rewrite length_replicate. split; [done|].
    apply Forall_replicate, length_replicate.
  - intros k avg Hk Hgood [Havg1 Havg2].
    rewrite mask_select_eq_mask by done. cbn.
    apply (proj1 (set_iter_elem _ _)) in Hk.
    destruct (set_column_ok zero max_num_of_spks avg k
                (mean_dim0 R zero mean (Aux.mapped_to emb labels k)))
      as (avg' & -> & H1 & H2 & _); [done| |done|].
    + rewrite Havg1. apply length_mean_dim0.
      * by apply mapped_to_nonempty.
      * by apply Forall_mapped_to.
    + exists avg'. split; [done|]. split; [congruence|done].
  - intros k avg Hk Hbad _.
    rewrite mask_select_eq_mask by done. cbn.
    unfold set_column, column_index.
    rewrite decide_False by lia. rewrite decide_False by lia. done.
  - intros k Hk. apply (proj1 (set_iter_elem _ _)) in Hk.
    rewrite Forall_forall in Hpos. specialize (Hpos k Hk). lia.
  - apply Exists_exists in Hex as (k & Hk & Hbad). exists k.
    split; [by apply (proj2 (set_iter_elem _ _))|done].
Qed.

End ClusterErrors.

(** X14: what [get_clus_emb] refuses in a session. More distinct labels
    than [max_num_of_spks] fail the assertion. Labels that are few enough
    but not all below [max_num_of_spks] pass it, and the write to the
    column of such a label raises [IndexError]. *)
Theorem X14_session_avg_embs_errors :
  forall (R : Type) (zero : R) (mean : list R -> R)
         (set_iter : list Z -> list Z) (dim max_num_of_spks : nat)
         (labels : list Z) (emb : ClusterEmbedding.EmbTensor R),
    (forall l x, x ∈ set_iter l <-> x ∈ l) ->
    ((max_num_of_spks < length (set_iter labels))%nat ->
     ClusterEmbedding.session_avg_embs R zero mean set_iter dim
       max_num_of_spks labels emb = Py.Raise Py.AssertionError)
    /\ ((length (set_iter labels) <= max_num_of_spks)%nat ->
        length labels = length emb ->
        Forall (fun row => length row = dim) emb ->
        Forall (fun k => 0 <= k) labels ->
        Exists (fun k => Z.of_nat max_num_of_spks <= k) labels ->
        ClusterEmbedding.session_avg_embs R zero mean set_iter dim
          max_num_of_spks labels emb = Py.Raise Py.IndexError).
Proof.
  intros R zero mean set_iter dim max labels emb Helem. split.
  - intros Hlt. unfold ClusterEmbedding.session_avg_embs.
    by destruct (Nat.leb_spec (length (set_iter labels)) max); [lia|].
  - intros Hcount Hlen Hrows Hpos Hex.
    by apply session_avg_embs_bad_label.
Qed.

Lemma X14_session_avg_embs_errors_witness :
  ClusterEmbedding.session_avg_embs Z 0 Samples.int_mean
    Samples.first_occurrences 2 2 [0; 1; 2] [[1; 2]; [3; 4]; [5; 6]]
  = Py.Raise Py.AssertionError
  /\ ClusterEmbedding.session_avg_embs Z 0 Samples.int_mean
       Samples.first_occurrences 2 2 [0; 5] [[1; 2]; [3; 4]]
     = Py.Raise Py.IndexError.
Proof.
  split.
  - apply (proj1 (X14_session_avg_embs_errors Z 0 Samples.int_mean
                    Samples.first_occurrences 2 2 [0; 1; 2]
                    [[1; 2]; [3; 4]; [5; 6]] first_occurrences_elem)).
    vm_compute. lia.
  - apply (proj2 (X14_session_avg_embs_errors Z 0 Samples.int_mean
                    Samples.first_occurrences 2 2 [0; 5]
                    [[1; 2]; [3; 4]] first_occurrences_elem)).
    + vm_compute. lia.
    + reflexivity.
    + repeat constructor.
    + repeat constructor; lia.
    + right. left. cbn. lia.
Defined.
(** ** More on StreamWrapper *)

Section StreamModesFacts.
Import Py StreamWrapper StreamModes.
Context {R Out : Type} (mul_zero : R -> R) (add : R -> R -> R).
Context (nonzero : R -> bool).
Context (_is_global_time_dim_op : Callable R Out -> bool).
Context (shape_rank : Tensor R -> result nat).
Context (_non_streaming_padding :
           bool -> nat -> StreamWrapper R Out -> list (Tensor R) ->
           outcome R Out).
Context (build_states_body :
           StreamWrapper R Out -> list (Tensor R) -> outcome R Out).

Local Notation "'modes'" :=
  (forward_modes R mul_zero add Out nonzero _is_global_time_dim_op shape_rank
     _non_streaming_padding).
Local Notation "'forward'" :=
  (forward R mul_zero add Out build_states_body modes).
Local Notation "'internal'" := (_streaming_internal_state R mul_zero add Out).

(** No attribute of the object is called [use_one_step]. *)
Lemma getattr_use_one_step (self : StreamWrapper R Out) :
  getattr_truth R Out nonzero self "use_one_step" = Raise AttributeError.
Proof. reflexivity. Qed.

Lemma getattr_pad_time_dim (self : StreamWrapper R Out) :
  getattr_truth R Out nonzero self "pad_time_dim"
  = Ok (match pad_time_dim R Out self with
        | Some s => negb (bool_decide (s = EmptyString))
        | None => false
        end).
Proof. reflexivity. Qed.

(** [_streaming_internal_state] changes nothing but [states], and that
    only in a call that ends at [self.cell]; it never returns. *)
Lemma internal_outcome (self : StreamWrapper R Out) inputs :
  (exists e, internal self inputs = (self, Raise e))
  \/ (exists s', internal self inputs
                 = (set_states R Out self s', Raise AttributeError)).
Proof.
  unfold _streaming_internal_state.
  destruct (samplewise_inference R Out self).
  - destruct inputs as [|input rest]; [eauto|].
    destruct (negb _); [eauto|].
    destruct (getattr_states R Out self) as [s|e]; cbn; [|eauto].
    destruct (cat_time R _ input) as [m|e]; cbn; [|eauto].
    destruct (plus R add _ m) as [s'|e]; cbn; eauto.
  - destruct (ring_buffer_size_in_time_dim R Out self) as [[|size]|].
    + destruct inputs; cbn; eauto.
    + destruct inputs as [|input rest]; [eauto|].
      destruct (getattr_states R Out self) as [s|e]; cbn; [|eauto].
      destruct (cat_time R s input) as [m|e]; cbn; [|eauto].
      destruct (plus R add _ _) as [s'|e]; cbn; eauto.
    + destruct inputs; cbn; eauto.
Qed.

(** [_non_streaming] never gets to the padding. *)
Lemma non_streaming_outcome (self : StreamWrapper R Out) inputs :
  exists e,
    _non_streaming R Out nonzero _is_global_time_dim_op shape_rank
      _non_streaming_padding self inputs = (self, Raise e)
    /\ (e = ValueError \/ e = IndexError \/ e = AttributeError
        \/ exists input rest, inputs = input :: rest
                              /\ shape_rank input = Raise e).
Proof.
  unfold _non_streaming.
  destruct (getattr_truth R Out nonzero self "pad_time_dim") as [p|e] eqn:Ep;
    [|discriminate Ep]. cbn.
  destruct (p && _); [eauto 6|].
  destruct inputs as [|input rest]; [eauto 6|].
  destruct (shape_rank input) as [rank|e] eqn:Er; cbn; [eauto 6|].
  exists e. split; [done|]. do 3 right. by exists input, rest.
Qed.

(** The branches of [forward] for a wrapper in external-state mode. *)
Lemma external_outcome (self : StreamWrapper R Out) inputs :
  mode R Out self = STREAM_EXTERNAL_STATE_INFERENCE ->
  modes self inputs
  = (self,
     Raise (match ring_buffer_size_in_time_dim R Out self with
            | Some (S _) => TypeError
            | _ => AttributeError
            end)).
Proof.
  intros Hmode. unfold forward_modes. rewrite Hmode.
  unfold getattr_truth. cbn.
  by destruct (ring_buffer_size_in_time_dim R Out self) as [[|size]|].
Qed.

Lemma modes_outcome (self : StreamWrapper R Out) inputs :
  (exists e, modes self inputs = (self, Raise e))
  \/ (exists s', modes self inputs
                 = (set_states R Out self s', Raise AttributeError)).
Proof.
  destruct (mode R Out self) eqn:Hmode.
  - left. unfold forward_modes. rewrite Hmode.
    destruct (non_streaming_outcome self inputs) as (e & -> & _). eauto.
  - unfold forward_modes. rewrite Hmode. apply internal_outcome.
  - left. rewrite external_outcome by done. eauto.
  - left. unfold forward_modes. rewrite Hmode.
    destruct (non_streaming_outcome self inputs) as (e & -> & _). eauto.
Qed.

(** One call of a chunk of [T] time steps on a buffer of [size] time
    steps, in internal-state mode with several samples per call. *)
Lemma internal_chunk (self : StreamWrapper R Out) input rest size s :
  (forall x m, add (mul_zero x) m = m) ->
  samplewise_inference R Out self = false ->
  ring_buffer_size_in_time_dim R Out self = Some size ->
  (1 <= size)%nat ->
  states R Out self = Some s ->
  time R s = size ->
  batch R input = batch R s ->
  feat R input = feat R s ->
  exists s',
    internal self (input :: rest)
    = (set_states R Out self s', Raise AttributeError)
    /\ batch R s' = batch R s
    /\ time R s' = size
    /\ feat R s' = feat R s
    /\ forall b i f,
        (b < batch R s)%nat -> (i < size)%nat -> (f < feat R s)%nat ->
        at_ R s' b i f
        = if (i + time R input <? size)%nat
          then at_ R s b (i + time R input)%nat f
          else at_ R input b (i + time R input - size)%nat f.
Proof.
  intros Hadd Hsw Hring Hsize Hs Hts Hb Hf.
  unfold _streaming_internal_state. rewrite Hsw, Hring.
  destruct size as [|size']; [lia|].
  unfold getattr_states. rewrite Hs. cbn [mbind result_bind Py.bind].
  unfold cat_time. rewrite Hb, Hf, !Nat.eqb_refl.
  cbn [andb mbind result_bind Py.bind].
  unfold plus, times_zero, slice_time.
  cbn [batch time feat at_].
  rewrite Hts.
  replace (S size' + time R input - (S size' + time R input - S size'))%nat
    with (S size') by lia.
  rewrite !broadcast_same. cbn [mbind result_bind Py.bind].
  eexists. split; [reflexivity|]. cbn [batch time feat at_].
  split; [done|]. split; [done|]. split; [done|].
  intros b i f Hbi Hi Hfi. rewrite Hadd.
  rewrite !pick_in_range by lia.
  replace (i + (S size' + time R input - S size'))%nat
    with (i + time R input)%nat by lia.
  by destruct (Nat.ltb_spec (i + time R input) (S size')).
Qed.

End StreamModesFacts.

(** X15: [forward] never returns, in any of the four modes, on any
    object and any inputs: every branch ends at a name the class does not
    bind ([self.cell], [self.use_one_step]) or, in external-state mode
    with a ring buffer, at the call that passes [state] by position. *)
Theorem X15_forward_never_returns :
  forall (R Out : Type) (mul_zero : R -> R) (add : R -> R -> R)
         (nonzero : R -> bool)
         (_is_global_time_dim_op : StreamWrapper.Callable R Out -> bool)
         (shape_rank : StreamWrapper.Tensor R -> Py.result nat)
         (_non_streaming_padding :
            bool -> nat -> StreamWrapper.StreamWrapper R Out ->
            list (StreamWrapper.Tensor R) -> StreamWrapper.outcome R Out)
         (build_states_body :
            StreamWrapper.StreamWrapper R Out ->
            list (StreamWrapper.Tensor R) -> StreamWrapper.outcome R Out)
         (self : StreamWrapper.StreamWrapper R Out)
         (inputs : list (StreamWrapper.Tensor R)),
  exists e,
    snd (StreamWrapper.forward R mul_zero add Out build_states_body
           (StreamModes.forward_modes R mul_zero add Out nonzero
              _is_global_time_dim_op shape_rank _non_streaming_padding)
           self inputs)
    = Py.Raise e.
Proof.
  intros R Out mul_zero add nonzero glob rank pad bsb self inputs.
  unfold StreamWrapper.forward, StreamWrapper._build_states.
  assert (forall self',
             exists e,
               snd (match StreamWrapper.mode R Out self' with
                    | StreamWrapper.STREAM_INTERNAL_STATE_INFERENCE =>
                        StreamWrapper._streaming_internal_state R mul_zero add
                          Out self' inputs
                    | _ => StreamModes.forward_modes R mul_zero add Out nonzero
                             glob rank pad self' inputs
                    end) = Py.Raise e) as H.
  { intros self'.
    destruct (StreamWrapper.mode R Out self');
      first [ destruct (modes_outcome mul_zero add nonzero glob rank pad
                          self' inputs) as [[e ->]|[s' ->]]
            | destruct (internal_outcome mul_zero add self' inputs)
                as [[e ->]|[s' ->]] ]; cbn; eauto. }
  destruct (StreamWrapper.built R Out self); [apply H|].
  destruct (bsb self inputs) as [self' [o|e]]; [apply H|cbn; eauto].
Qed.

(** X16: what a built wrapper raises outside internal-state mode, the
    object being left as it was. In external-state mode: [TypeError] with
    a ring buffer, [AttributeError] without. In the two modes without
    streaming: [ValueError] for padding in time around a layer that is
    global in time, else [IndexError] without inputs, else
    [AttributeError] when the rank of the input can be read. *)
Theorem X16_forward_other_modes_raise :
  forall (R Out : Type) (mul_zero : R -> R) (add : R -> R -> R)
         (nonzero : R -> bool)
         (_is_global_time_dim_op : StreamWrapper.Callable R Out -> bool)
         (shape_rank : StreamWrapper.Tensor R -> Py.result nat)
         (_non_streaming_padding :
            bool -> nat -> StreamWrapper.StreamWrapper R Out ->
            list (StreamWrapper.Tensor R) -> StreamWrapper.outcome R Out)
         (build_states_body :
            StreamWrapper.StreamWrapper R Out ->
            list (StreamWrapper.Tensor R) -> StreamWrapper.outcome R Out)
         (self : StreamWrapper.StreamWrapper R Out)
         (inputs : list (StreamWrapper.Tensor R)),
    StreamWrapper.built R Out self = true ->
    let forward :=
      StreamWrapper.forward R mul_zero add Out build_states_body
        (StreamModes.forward_modes R mul_zero add Out nonzero
           _is_global_time_dim_op shape_rank _non_streaming_padding) in
    (StreamWrapper.mode R Out self
     = StreamWrapper.STREAM_EXTERNAL_STATE_INFERENCE ->
     forward self inputs
     = (self,
        Py.Raise
          (match StreamWrapper.ring_buffer_size_in_time_dim R Out self with
           | Some (S _) => Py.TypeError
           | _ => Py.AttributeError
           end)))
    /\ (StreamWrapper.mode R Out self = StreamWrapper.TRAINING
        \/ StreamWrapper.mode R Out self = StreamWrapper.NON_STREAM_INFERENCE ->
        forward self inputs
        = (self,
           Py.Raise
             (match StreamWrapper.pad_time_dim R Out self, inputs with
              | Some pad, _ =>
                  if negb (bool_decide (pad = EmptyString))
                     && _is_global_time_dim_op
                          (StreamWrapper.inner_module R Out self)
                  then Py.ValueError
                  else match inputs with
                       | [] => Py.IndexError
                       | input :: _ =>
                           match shape_rank input with
                           | Py.Ok _ => Py.AttributeError
                           | Py.Raise e => e
                           end
                       end
              | None, [] => Py.IndexError
              | None, input :: _ =>
                  match shape_rank input with
                  | Py.Ok _ => Py.AttributeError
                  | Py.Raise e => e
                  end
              end))).
Proof.
  intros R Out mul_zero add nonzero glob rank pad bsb self inputs Hbuilt
         forward.
  subst forward. unfold StreamWrapper.forward, StreamWrapper._build_states.
  rewrite Hbuilt. split.
  - intros Hmode. rewrite Hmode. by apply external_outcome.
  - intros Hmode.
    assert (StreamModes.forward_modes R mul_zero add Out nonzero glob rank pad
              self inputs
            = StreamModes._non_streaming R Out nonzero glob rank pad self
                inputs) as ->.
    { unfold StreamModes.forward_modes. by destruct Hmode as [-> | ->]. }
    assert (match StreamWrapper.mode R Out self with
            | StreamWrapper.STREAM_INTERNAL_STATE_INFERENCE =>
                StreamWrapper._streaming_internal_state R mul_zero add Out
                  self inputs
            | _ => StreamModes._non_streaming R Out nonzero glob rank pad self
                     inputs
            end
            = StreamModes._non_streaming R Out nonzero glob rank pad self
                inputs) as ->.
    { by destruct Hmode as [-> | ->]. }
    unfold StreamModes._non_streaming.
    rewrite getattr_pad_time_dim, getattr_use_one_step.
    cbn [mbind result_bind Py.bind].
    destruct (StreamWrapper.pad_time_dim R Out self) as [p|];
      cbn [andb mbind result_bind Py.bind].
    + destruct (negb (bool_decide (p = EmptyString)) && _); [done|].
      destruct inputs as [|input rest]; [done|].
      by destruct (rank input).
    + destruct inputs as [|input rest]; [done|].
      by destruct (rank input).
Qed.
Lemma X16_forward_other_modes_raise_witness :
  StreamWrapper.forward Z Samples.mul_zero Z.add Z Samples.unreached
    (StreamModes.forward_modes Z Samples.mul_zero Z.add Z (fun x => negb (x =? 0))
       SamplesMore.not_global SamplesMore.rank3 SamplesMore.no_padding)
    (SamplesMore.with_mode StreamWrapper.STREAM_EXTERNAL_STATE_INFERENCE true)
    [Samples.step3]
  = (SamplesMore.with_mode StreamWrapper.STREAM_EXTERNAL_STATE_INFERENCE true,
     Py.Raise Py.TypeError)
  /\ StreamWrapper.forward Z Samples.mul_zero Z.add Z Samples.unreached
       (StreamModes.forward_modes Z Samples.mul_zero Z.add Z
          (fun x => negb (x =? 0))
          SamplesMore.not_global SamplesMore.rank3 SamplesMore.no_padding)
       (SamplesMore.with_mode StreamWrapper.TRAINING true) [Samples.step3]
     = (SamplesMore.with_mode StreamWrapper.TRAINING true,
        Py.Raise Py.AttributeError).
Proof.
  split.
  - apply (proj1 (X16_forward_other_modes_raise Z Z Samples.mul_zero Z.add
                    (fun x => negb (x =? 0)) SamplesMore.not_global
                    SamplesMore.rank3 SamplesMore.no_padding Samples.unreached
                    (SamplesMore.with_mode
                       StreamWrapper.STREAM_EXTERNAL_STATE_INFERENCE true)
                    [Samples.step3] eq_refl)).
    reflexivity.
  - apply (proj2 (X16_forward_other_modes_raise Z Z Samples.mul_zero Z.add
                    (fun x => negb (x =? 0)) SamplesMore.not_global
                    SamplesMore.rank3 SamplesMore.no_padding Samples.unreached
                    (SamplesMore.with_mode StreamWrapper.TRAINING true)
                    [Samples.step3] eq_refl)).
    left. reflexivity.
Defined.



(** X18: a call of [forward] on a built wrapper changes no attribute
    other than [states]: the object after the call is the object before
    it, or that object with new [states], and the latter only in
    internal-state mode and in a call that ends in [AttributeError]. *)
Theorem X18_forward_changes_states_only :
  forall (R Out : Type) (mul_zero : R -> R) (add : R -> R -> R)
         (nonzero : R -> bool)
         (_is_global_time_dim_op : StreamWrapper.Callable R Out -> bool)
         (shape_rank : StreamWrapper.Tensor R -> Py.result nat)
         (_non_streaming_padding :
            bool -> nat -> StreamWrapper.StreamWrapper R Out ->
            list (StreamWrapper.Tensor R) -> StreamWrapper.outcome R Out)
         (build_states_body :
            StreamWrapper.StreamWrapper R Out ->
            list (StreamWrapper.Tensor R) -> StreamWrapper.outcome R Out)
         (self : StreamWrapper.StreamWrapper R Out)
         (inputs : list (StreamWrapper.Tensor R)),
    StreamWrapper.built R Out self = true ->
    let after :=
      StreamWrapper.forward R mul_zero add Out build_states_body
        (StreamModes.forward_modes R mul_zero add Out nonzero
           _is_global_time_dim_op shape_rank _non_streaming_padding)
        self inputs in
    fst after = self
    \/ (StreamWrapper.mode R Out self
        = StreamWrapper.STREAM_INTERNAL_STATE_INFERENCE
        /\ snd after = Py.Raise Py.AttributeError
        /\ exists s', fst after = StreamWrapper.set_states R Out self s').
Proof.
  intros R Out mul_zero add nonzero glob rank pad bsb self inputs Hbuilt after.
  subst after. unfold StreamWrapper.forward, StreamWrapper._build_states.
  rewrite Hbuilt.
  destruct (StreamWrapper.mode R Out self) eqn:Hmode.
  - left. unfold StreamModes.forward_modes. rewrite Hmode.
    by destruct (non_streaming_outcome nonzero glob rank pad self inputs)
      as (e & -> & _).
  - destruct (internal_outcome mul_zero add self inputs) as [[e ->]|[s' ->]];
      [by left|right]. cbn. eauto.
  - left. by rewrite (external_outcome mul_zero add nonzero glob rank pad).
  - left. unfold StreamModes.forward_modes. rewrite Hmode.
    by destruct (non_streaming_outcome nonzero glob rank pad self inputs)
      as (e & -> & _).
Qed.

Lemma X18_forward_changes_states_only_witness :
  let after :=
    StreamWrapper.forward Z Samples.mul_zero Z.add Z Samples.unreached
      (StreamModes.forward_modes Z Samples.mul_zero Z.add Z
         (fun x => negb (x =? 0))
         SamplesMore.not_global SamplesMore.rank3 SamplesMore.no_padding)
      Samples.wrapper [Samples.step3] in
  fst after = Samples.wrapper
  \/ (StreamWrapper.mode Z Z Samples.wrapper
      = StreamWrapper.STREAM_INTERNAL_STATE_INFERENCE
      /\ snd after = Py.Raise Py.AttributeError
      /\ exists s', fst after = StreamWrapper.set_states Z Z Samples.wrapper s').
Proof.
  apply (X18_forward_changes_states_only Z Z Samples.mul_zero Z.add
           (fun x => negb (x =? 0)) SamplesMore.not_global SamplesMore.rank3
           SamplesMore.no_padding Samples.unreached Samples.wrapper
           [Samples.step3]).
  reflexivity.
Defined.
(** X19: [__init__] around a convolution, in one of the two streaming
    modes and without a ring buffer size given: the object is built
    exactly when the padding is the integer 0 and, with one sample per
    call, the stride in time is at most 1; otherwise [ValueError] is
    raised, so always for a padding held as a tuple. The object built has
    the stride of the layer and, as ring buffer size, the effective
    kernel size [d * (k - 1) + 1] with one sample per call and
    [max(0, d * (k - 1) - (s - 1))] with several. *)
Theorem X19_init_conv_streaming :
  forall (padding : StreamModes.Padding) (s d k : Z)
         (strides dilation_rate kernel_size : list Z)
         (inference_batch_size : Z) (mode : StreamWrapper.StreamInferenceMode)
         (pad_time_dim : option string) (state_shape : option (list Z))
         (samplewise_inference : bool),
    StreamModes.streaming mode = true ->
    let built :=
      StreamModes.__init__
        (StreamModes.Conv padding (s :: strides) (d :: dilation_rate)
           (k :: kernel_size))
        inference_batch_size mode pad_time_dim state_shape None
        samplewise_inference in
    let accepted :=
      padding = StreamModes.PadInt 0
      /\ (samplewise_inference = true -> s <= 1) in
    (accepted ->
     exists self,
       built = Py.Ok self
       /\ StreamModes.i_stride self = s
       /\ StreamModes.i_ring_buffer_size_in_time_dim self
          = Some (if samplewise_inference then d * (k - 1) + 1
                  else Z.max 0 (d * (k - 1) - (s - 1))))
    /\ (~ accepted -> built = Py.Raise Py.ValueError)
    /\ (forall t, padding = StreamModes.PadTuple t ->
                  built = Py.Raise Py.ValueError).
Proof.
  intros padding s d k strides dil ker ibs mode ptd shape sw Hmode built
         accepted.
  assert (Hrefused : ~ accepted -> built = Py.Raise Py.ValueError).
  { intros Hno. subst built accepted. unfold StreamModes.__init__.
    rewrite andb_false_r. cbn. rewrite Hmode.
    destruct padding as [n| |]; cbn; try done.
    destruct (Z.eqb_spec n 0) as [->|Hn]; cbn; [|done].
    destruct sw; cbn.
    - destruct (Z.ltb_spec 1 s); [done|]. exfalso. apply Hno. by split.
    - exfalso. apply Hno. by split. }
  split; [|split; [exact Hrefused|]].
  - intros [-> Hs]. subst built. unfold StreamModes.__init__.
    rewrite andb_false_r. cbn. rewrite Hmode. cbn.
    destruct sw; cbn.
    + destruct (Z.ltb_spec 1 s); [specialize (Hs eq_refl); lia|].
      cbn. eauto.
    + eauto.
  - intros t ->. apply Hrefused. by intros [[=] _].
Qed.

Lemma X19_init_conv_streaming_witness :
  (exists self,
      StreamModes.__init__ (StreamModes.Conv (StreamModes.PadInt 0) [2] [1] [5])
        1 StreamWrapper.STREAM_INTERNAL_STATE_INFERENCE None None None false
      = Py.Ok self
      /\ StreamModes.i_stride self = 2
      /\ StreamModes.i_ring_buffer_size_in_time_dim self
         = Some (Z.max 0 (1 * (5 - 1) - (2 - 1))))
  /\ StreamModes.__init__ (StreamModes.Conv (StreamModes.PadTuple [0]) [1] [1] [5])
       1 StreamWrapper.STREAM_INTERNAL_STATE_INFERENCE None None None true
     = Py.Raise Py.ValueError.
Proof.
  split.
  - apply (proj1 (X19_init_conv_streaming (StreamModes.PadInt 0) 2 1 5 [] [] []
                    1 StreamWrapper.STREAM_INTERNAL_STATE_INFERENCE None None
                    false eq_refl)).
    split; [reflexivity|discriminate].
  - apply (proj2 (proj2 (X19_init_conv_streaming (StreamModes.PadTuple [0])
                           1 1 5 [] [] [] 1
                           StreamWrapper.STREAM_INTERNAL_STATE_INFERENCE None
                           None true eq_refl)) [0]).
    reflexivity.
Defined.

(** X20: what holds of every object [__init__] builds. It is not built
    yet and keeps the mode and the flag it was given. Its ring buffer size
    is set, unless the layer is global in time and no state shape was
    given. A layer of no supported class is taken only with a ring buffer
    size given, and several samples per call never go with a layer that
    is global in time. *)
Theorem X20_init_postconditions :
  forall (module : StreamModes.Module) (inference_batch_size : Z)
         (mode : StreamWrapper.StreamInferenceMode)
         (pad_time_dim : option string) (state_shape : option (list Z))
         (ring_buffer_size_in_time_dim : option Z)
         (samplewise_inference : bool) (self : StreamModes.Init),
    StreamModes.__init__ module inference_batch_size mode pad_time_dim
      state_shape ring_buffer_size_in_time_dim samplewise_inference
    = Py.Ok self ->
    StreamModes.i_built self = false
    /\ StreamModes.i_mode self = mode
    /\ StreamModes.i_samplewise_inference self = samplewise_inference
    /\ (StreamModes.i_ring_buffer_size_in_time_dim self = None ->
        module = StreamModes.GlobalTimeDim
        /\ (state_shape = None \/ state_shape = Some []))
    /\ (module = StreamModes.Other -> is_Some ring_buffer_size_in_time_dim)
    /\ (module = StreamModes.GlobalTimeDim -> samplewise_inference = true).
Proof.
  intros module ibs mode ptd shape ring sw self.
  unfold StreamModes.__init__,
    StreamModes._initialize_ring_buffer_size_in_time_dim.
  cbn [StreamModes.i_ring_buffer_size_in_time_dim StreamModes.i_mode
         StreamModes.i_samplewise_inference StreamModes.i_state_shape].
  destruct sw, module as [padding strides dil ker|strides ker| |],
      ring as [size|]; cbn [negb andb StreamModes._is_global_time_dim_op];
    try discriminate;
    repeat (first
              [ progress cbn [mbind result_bind Py.bind StreamModes.set_stride
                                StreamModes.set_ring StreamModes.i_mode
                                StreamModes.i_samplewise_inference
                                StreamModes.i_built
                                StreamModes.i_ring_buffer_size_in_time_dim]
              | match goal with
                | |- context [StreamModes.item ?t ?i] =>
                    destruct (StreamModes.item t i)
                | |- context [if ?b then _ else _] => destruct b
                | |- context [match ?x with _ => _ end] =>
                    is_var x; destruct x
                end ]);
    try discriminate;
    intros [= <-]; cbn; repeat split; try done; eauto.
Qed.

Lemma X20_init_postconditions_witness :
  StreamModes.i_built
    {| StreamModes.i_inner_module := StreamModes.Pool [2] [2];
       StreamModes.i_inference_batch_size := 1;
       StreamModes.i_mode := StreamWrapper.STREAM_EXTERNAL_STATE_INFERENCE;
       StreamModes.i_pad_time_dim := None;
       StreamModes.i_state_shape := None;
       StreamModes.i_ring_buffer_size_in_time_dim := Some 2;
       StreamModes.i_samplewise_inference := true;
       StreamModes.i_stride := 2;
       StreamModes.i_built := false |} = false.
Proof.
  apply (X20_init_postconditions (StreamModes.Pool [2] [2]) 1
           StreamWrapper.STREAM_EXTERNAL_STATE_INFERENCE None None None true).
  reflexivity.
Defined.
Section FeedFacts.
Import Py StreamWrapper StreamFeed.
Context {R Out : Type} (mul_zero : R -> R) (add : R -> R -> R).
Context (build_states_body forward_other_modes :
           StreamWrapper R Out -> list (Tensor R) -> outcome R Out).
Hypothesis add_mul_zero : forall x m, add (mul_zero x) m = m.

Local Notation "'feed'" :=
  (feed mul_zero add build_states_body forward_other_modes).

Lemma feed_ring_buffer (xs : list (Tensor R)) :
  forall (self : StreamWrapper R Out) (size : nat) (s : Tensor R),
    built R Out self = true ->
    mode R Out self = STREAM_INTERNAL_STATE_INFERENCE ->
    samplewise_inference R Out self = true ->
    ring_buffer_size_in_time_dim R Out self = Some size ->
    (1 <= size)%nat ->
    states R Out self = Some s ->
    time R s = size ->
    Forall (fun x => batch R x = batch R s /\ feat R x = feat R s
                     /\ time R x = 1%nat) xs ->
    exists s',
      states R Out (feed self xs) = Some s'
      /\ batch R s' = batch R s /\ time R s' = size /\ feat R s' = feat R s
      /\ forall b i f,
          (b < batch R s)%nat -> (i < size)%nat -> (f < feat R s)%nat ->
          ((i + length xs < size)%nat ->
           at_ R s' b i f = at_ R s b (i + length xs)%nat f)
          /\ (forall x,
                 (size <= i + length xs)%nat ->
                 xs !! (i + length xs - size)%nat = Some x ->
                 at_ R s' b i f = at_ R x b 0%nat f).
Proof.
  induction xs as [|x xs IH];
    intros self size s Hbuilt Hmode Hsw Hring Hsize Hs Hts Hxs.
  - exists s. cbn. split; [done|]. split; [done|]. split; [done|].
    split; [done|]. intros b i f Hb Hi Hf. split.
    + intros _. by rewrite Nat.add_0_r.
    + intros x' Hge. lia.
  - apply Forall_cons in Hxs as [(Hxb & Hxf & Hxt) Hxs].
    destruct (forward_one_step mul_zero add build_states_body
                forward_other_modes self x [] size s add_mul_zero Hbuilt
                Hmode Hsw Hring Hsize Hs Hts Hxb Hxf Hxt)
      as (s1 & E & Hb1 & Ht1 & Hf1 & Hat1).
    unfold StreamFeed.feed. cbn [foldl]. rewrite E. cbn [fst].
    destruct (IH (set_states R Out self s1) size s1)
      as (s' & Es' & Hb' & Ht' & Hf' & Hat'); try done.
    { eapply Forall_impl; [exact Hxs|]. intros y. cbn.
      rewrite Hb1, Hf1. done. }
    exists s'. split; [exact Es'|]. split; [congruence|].
    split; [done|]. split; [congruence|].
    intros b i f Hb Hi Hf.
    destruct (Hat' b i f) as [Hold Hnew]; [lia|lia|lia|].
    cbn [length]. split.
    + intros Hlt. rewrite Hold by lia. rewrite Hat1 by lia.
      destruct (Nat.ltb_spec (i + length xs) (size - 1)); [|lia].
      f_equal. lia.
    + intros x' Hge Hx'.
      destruct (decide (i + length xs < size)%nat) as [Hlt|Hge'].
      * rewrite Hold by lia. rewrite Hat1 by lia.
        destruct (Nat.ltb_spec (i + length xs) (size - 1)); [lia|].
        replace (i + S (length xs) - size)%nat with 0%nat in Hx' by lia.
        cbn in Hx'. by injection Hx' as <-.
      * apply Hnew; [lia|].
        replace (i + S (length xs) - size)%nat
          with (S (i + length xs - size)) in Hx' by lia.
        exact Hx'.
Qed.

End FeedFacts.


(** ** More on PromptTable and PromptEmbedding *)

Section PromptMore.
Context {R : Type} (zero : R) (scale : Q -> R -> R).
Context (xavier_normal_ : PromptTable.Tensor R -> nat -> nat -> R).
Context (ceil_div : nat -> nat -> Z).
Context (broadcast_data : list Z -> list Z).
Context (module_name_ok : string -> bool).

Import Py PromptTable PromptTableOps.

(** Looking up the first rows of a table. *)
Lemma embedding_lookup_prefix (pre w rest : Tensor R) :
  embedding_lookup R (pre ++ w ++ rest) (seq (length pre) (length w)) = Ok w.
Proof.
  revert pre. induction w as [|row w IH]; intros pre; [reflexivity|].
  specialize (IH (pre ++ [row])).
  rewrite <- app_assoc, length_app, Nat.add_1_r in IH. cbn in IH.
  unfold embedding_lookup in *. cbn.
  rewrite IH. unfold index.
  rewrite (list_lookup_middle pre (w ++ rest) row (length pre) eq_refl).
  reflexivity.
Qed.

Lemma embedding_lookup_take (w : Tensor R) (n : nat) :
  (n <= length w)%nat -> embedding_lookup R w (seq 0 n) = Ok (take n w).
Proof.
  intros Hn.
  pose proof (embedding_lookup_prefix [] (take n w) (drop n w)) as H.
  cbn [app length] in H. rewrite take_drop, length_take in H.
  by replace (n `min` length w)%nat with n in H by lia.
Qed.

Lemma embedding_lookup_short (w : Tensor R) (n : nat) :
  (length w < n)%nat -> embedding_lookup R w (seq 0 n) = Raise IndexError.
Proof.
  intros Hn. unfold embedding_lookup. apply mapM_raise.
  - intros i e _. unfold index. intros H. case_match; by simplify_eq.
  - exists (length w). split; [apply elem_of_seq; lia|].
    unfold index. by rewrite lookup_ge_None_2.
Qed.

(** A list repeated, entry by entry. *)
Lemma repeat_list_lookup {A} (ids : list A) (k i : nat) :
  (i < k * length ids)%nat ->
  mjoin (replicate k ids) !! i = ids !! (i mod length ids)%nat.
Proof.
  revert i. induction k as [|k IH]; intros i Hi; [lia|].
  cbn [replicate mjoin list_join].
  destruct (decide (i < length ids)%nat) as [Hlt|Hge].
  - rewrite lookup_app_l by done. by rewrite Nat.mod_small.
  - rewrite lookup_app_r by lia. rewrite IH by lia. f_equal.
    replace i with ((i - length ids) + 1 * length ids)%nat at 2 by lia.
    by rewrite Nat.Div0.mod_add.
Qed.

Lemma length_repeat_list {A} (ids : list A) (k : nat) :
  length (mjoin (replicate k ids)) = (k * length ids)%nat.
Proof.
  induction k as [|k IH]; [done|].
  change (mjoin (replicate (S k) ids)) with (ids ++ mjoin (replicate k ids)).
  rewrite length_app, IH. lia.
Qed.

Lemma fit_token_ids_ok (ids : list Z) (total : nat) :
  (0 < length ids)%nat ->
  ((length ids < total)%nat ->
   Z.of_nat total <= ceil_div total (length ids) * Z.of_nat (length ids)) ->
  exists l,
    fit_token_ids ceil_div ids total = Ok l
    /\ length l = total
    /\ forall i, (i < total)%nat -> l !! i = ids !! (i mod length ids)%nat.
Proof.
  intros Hpos Hceil. unfold fit_token_ids.
  destruct (Nat.ltb_spec total (length ids)) as [Hlt|Hge].
  - cbn. eexists. split; [done|]. rewrite take_take, Nat.min_id.
    split; [rewrite length_take; lia|].
    intros i Hi. rewrite lookup_take_lt by done.
    by rewrite Nat.mod_small by lia.
  - destruct (Nat.ltb_spec (length ids) total) as [Hlt|Hge'].
    + destruct (Nat.eqb_spec (length ids) 0); [lia|]. cbn.
      specialize (Hceil Hlt). unfold repeat_list.
      set (k := Z.to_nat (ceil_div total (length ids))).
      assert (total <= k * length ids)%nat as Hk by (subst k; nia).
      eexists. split; [done|]. split.
      * rewrite length_take, length_repeat_list. lia.
      * intros i Hi. rewrite lookup_take_lt by done.
        apply repeat_list_lookup. lia.
    + cbn. eexists. split; [done|].
      assert (length ids = total) as Hlen by lia.
      rewrite take_ge by lia. split; [done|].
      intros i Hi. by rewrite Nat.mod_small by lia.
Qed.

Lemma fit_token_ids_cases (ids : list Z) (total : nat) :
  fit_token_ids ceil_div ids total
  = (if (length ids =? 0)%nat && (0 <? total)%nat
     then Raise ZeroDivisionError
     else fit_token_ids ceil_div ids total)
  /\ ((length ids =? 0)%nat && (0 <? total)%nat = false ->
      exists l, fit_token_ids ceil_div ids total = Ok l).
Proof.
  unfold fit_token_ids.
  destruct (Nat.ltb_spec total (length ids)),
           (Nat.ltb_spec (length ids) total),
           (Nat.eqb_spec (length ids) 0),
           (Nat.ltb_spec 0 total);
    try lia; cbn; split; try done; eauto.
Qed.

(** [remove_prompt] leaves the object as it was. *)
Lemma remove_prompt_unchanged have_apex (self : PromptTable R) taskname :
  fst (remove_prompt R have_apex self taskname) = self.
Proof.
  unfold remove_prompt.
  replace (load_global have_apex "prompt_table")
    with (@Raise global_obj NameError); [reflexivity|].
  unfold load_global. by destruct have_apex.
Qed.

Lemma for_each_preserves {A S} (P : S -> Prop) (body : A -> S -> result S)
      (l : list A) (s s' : S) :
  (forall x s s', body x s = Ok s' -> P s -> P s') ->
  P s -> for_each l body s = Ok s' -> P s'.
Proof.
  intros Hbody. revert s. induction l as [|x l IH]; intros s Hs; cbn.
  - by intros [= <-].
  - destruct (body x s) as [s1|e] eqn:E; cbn; [|done].
    apply IH. by eapply Hbody.
Qed.

Lemma set_prompt_no_task_id (self self' : PromptTable R) taskname prompt :
  set_prompt R module_name_ok self taskname prompt = Ok self' ->
  task_id_num_to_name R self' = task_id_num_to_name R self.
Proof.
  unfold set_prompt. destruct (module_name_ok taskname); [|done].
  by intros [= <-].
Qed.

Lemma after_no_task_id (self : PromptTable R) (r : result (PromptTable R)) :
  (forall self', r = Ok self' ->
                 task_id_num_to_name R self' = task_id_num_to_name R self) ->
  task_id_num_to_name R (fst (after R self r)) = task_id_num_to_name R self.
Proof. destruct r as [self'|e]; cbn; [|done]. intros H. by apply H. Qed.

(** No method of the class puts a task into [task_id_num_to_name]. *)
Lemma reachable_no_task_id (self : PromptTable R) :
  reachable R xavier_normal_ ceil_div broadcast_data module_name_ok self ->
  task_id_num_to_name R self = [].
Proof.
  induction 1 as [draw tasks total hidden self Hinit
                 |draw self taskname _ IH
                 |have_apex draw self taskname ids we _ IH
                 |draw self taskname emb _ IH
                 |have_apex self taskname _ IH].
  - unfold __init__ in Hinit.
    destruct tasks as [[|[name|] tasks]|]; try by injection Hinit as <-.
    revert Hinit.
    apply (for_each_preserves (fun s => task_id_num_to_name R s = []));
      [|done].
    intros [k [name'|]] s s'; cbn; [|done]. intros H Hs.
    by rewrite (set_prompt_no_task_id _ _ _ _ H).
  - unfold init_prompt_from_random. rewrite after_no_task_id; [done|].
    intros self'. apply set_prompt_no_task_id.
  - unfold init_prompt_from_text. rewrite after_no_task_id; [done|].
    intros self'.
    destruct (fit_token_ids _ _ _) as [l|e]; cbn; [|done].
    destruct (load_global _ _) as [o|e]; cbn; [|done].
    destruct (we _) as [w|e]; cbn; [|done].
    apply set_prompt_no_task_id.
  - unfold add_prompt_from_p_tuning_encoder.
    rewrite after_no_task_id; [done|].
    intros self'. apply set_prompt_no_task_id.
  - by rewrite remove_prompt_unchanged.
Qed.

End PromptMore.

(** X21: the token ids [init_prompt_from_text] looks up are
    [total_soft_tokens] of them, the given ids cut or repeated in a
    cycle: the id number [i] is the given id number
    [i mod num_text_tokens]. This holds when the number of repetitions
    computed is large enough, as it is when the division is exact. Without
    any id and with a positive [total_soft_tokens] the division is by
    zero. *)
Theorem X21_fit_token_ids_cycles :
  forall (ceil_div : nat -> nat -> Z) (init_token_ids : list Z)
         (total_soft_tokens : nat),
    let num_text_tokens := length init_token_ids in
    ((0 < num_text_tokens)%nat ->
     ((num_text_tokens < total_soft_tokens)%nat ->
      Z.of_nat total_soft_tokens
      <= ceil_div total_soft_tokens num_text_tokens
         * Z.of_nat num_text_tokens) ->
     exists ids,
       PromptTableOps.fit_token_ids ceil_div init_token_ids total_soft_tokens
       = Py.Ok ids
       /\ length ids = total_soft_tokens
       /\ forall i, (i < total_soft_tokens)%nat ->
                    ids !! i = init_token_ids !! (i mod num_text_tokens)%nat)
    /\ (num_text_tokens = 0%nat -> (0 < total_soft_tokens)%nat ->
        PromptTableOps.fit_token_ids ceil_div init_token_ids total_soft_tokens
        = Py.Raise Py.ZeroDivisionError).
Proof.
  intros ceil_div ids total n. split.
  - apply fit_token_ids_ok.
  - intros Hn Ht. subst n.
    rewrite (proj1 (fit_token_ids_cases ceil_div ids total)).
    rewrite Hn. by destruct (Nat.ltb_spec 0 total); [|lia].
Qed.

Lemma X21_fit_token_ids_cycles_witness :
  (exists ids,
      PromptTableOps.fit_token_ids
        (fun a b => (Z.of_nat a + Z.of_nat b - 1) / Z.of_nat b) [7; 8; 9] 7
      = Py.Ok ids
      /\ length ids = 7%nat
      /\ forall i, (i < 7)%nat -> ids !! i = [7; 8; 9] !! (i mod 3)%nat)
  /\ PromptTableOps.fit_token_ids
       (fun a b => (Z.of_nat a + Z.of_nat b - 1) / Z.of_nat b) [] 7
     = Py.Raise Py.ZeroDivisionError.
Proof.
  split.
  - apply (proj1 (X21_fit_token_ids_cycles
                    (fun a b => (Z.of_nat a + Z.of_nat b - 1) / Z.of_nat b)
                    [7; 8; 9] 7)).
    + cbn. lia.
    + intros _. vm_compute. discriminate.
  - apply (proj2 (X21_fit_token_ids_cycles
                    (fun a b => (Z.of_nat a + Z.of_nat b - 1) / Z.of_nat b)
                    [] 7)).
    + reflexivity.
    + lia.
Defined.


(** X23: no method of [PromptTable] enters a task into
    [task_id_num_to_name]: on an object obtained from [__init__] by calls
    of [init_prompt_from_random], [init_prompt_from_text],
    [add_prompt_from_p_tuning_encoder] and [remove_prompt], the dictionary
    is empty and [forward] raises [KeyError] for every task number. *)
Theorem X23_forward_unknown_task_id :
  forall (R : Type) (zero : R) (scale : Q -> R -> R)
         (xavier_normal_ : PromptTable.Tensor R -> nat -> nat -> R)
         (ceil_div : nat -> nat -> Z) (broadcast_data : list Z -> list Z)
         (module_name_ok : string -> bool)
         (self : PromptTable.PromptTable R),
    PromptTableOps.reachable R xavier_normal_ ceil_div broadcast_data
      module_name_ok self ->
    PromptTable.task_id_num_to_name R self = []
    /\ forall (task_id_num : Z) (keep : nat -> nat -> bool),
        PromptTableOps.forward R zero scale self task_id_num keep
        = Py.Raise Py.KeyError.
Proof.
  intros R zero scale xavier ceil_div bd ok self Hreach.
  pose proof (reachable_no_task_id xavier ceil_div bd ok self Hreach) as E.
  split; [exact E|]. intros id keep. unfold PromptTableOps.forward.
  by rewrite E.
Qed.

Lemma X23_forward_unknown_task_id_witness :
  PromptTableOps.forward Z 0 (fun _ v => v)
    (fst (PromptTableOps.init_prompt_from_random Z (fun _ _ _ => 0)
            (fun _ => true) (fun _ _ => 1)
            {| PromptTable.pt_total_soft_tokens := 2;
               PromptTable.pt_hidden_size := 1;
               PromptTable.prompt_table := ∅;
               PromptTable.task_id_num_to_name := [] |} "task"))
    0 (fun _ _ => true)
  = Py.Raise Py.KeyError.
Proof.
  apply (X23_forward_unknown_task_id Z 0 (fun _ v => v) (fun _ _ _ => 0)
           (fun _ _ => 0) (fun l => l) (fun _ => true)).
  apply PromptTableOps.reach_random.
  apply (PromptTableOps.reach_init Z _ _ _ _ (fun _ _ _ => 0) None
           2%nat 1%nat).
  reflexivity.
Defined.


Section PromptInit.
Context {R : Type} (zero : R) (scale : Q -> R -> R).
Context (xavier_normal_ : PromptTable.Tensor R -> nat -> nat -> R).
Context (module_name_ok : string -> bool).

Import Py PromptTable PromptTableOps.

(** The embedding of a task initialised at random has the shape asked
    for. *)
Lemma forward_random_shape draw hidden total w keep :
  exists t,
    PromptTable.forward R zero scale
      (PromptEmbedding__init__ R draw false hidden total w xavier_normal_ 0%Q)
      keep = Ok t
    /\ has_shape R total hidden t.
Proof.
  set (weight := init_in_place R xavier_normal_ (Embedding R draw total hidden)).
  assert (Hw : has_shape R total hidden weight)
    by apply init_in_place_shape, Embedding_shape.
  exists weight. split; [|done].
  unfold PromptTable.forward, PromptEmbedding__init__.
  cbn [prompt_embeddings_weight indices embedding_dropout_p training].
  fold weight.
  replace (seq 0 total) with (seq 0 (length weight))
    by (by destruct Hw as [-> _]).
  rewrite embedding_lookup_full. cbn.
  by rewrite (Dropout_zero zero scale).
Qed.

(** The loop of [PromptTable.__init__] over task names that the module
    dictionary takes. *)
Lemma init_loop (draw : nat -> nat -> nat -> R) (names : list string)
      (g : nat -> nat) (self : PromptTable R) :
  Forall (fun name => module_name_ok name = true) names ->
  exists self',
    for_each (imap (fun k taskname => (g k, taskname)) (Some <$> names))
      (fun item self =>
         match snd item with
         | Some taskname =>
             set_prompt R module_name_ok self taskname
               (PromptEmbedding__init__ R (draw (fst item)) false
                  (pt_hidden_size R self) (pt_total_soft_tokens R self)
                  [] xavier_normal_ 0%Q)
         | None => Raise TypeError
         end) self = Ok self'
    /\ pt_total_soft_tokens R self' = pt_total_soft_tokens R self
    /\ pt_hidden_size R self' = pt_hidden_size R self
    /\ task_id_num_to_name R self' = task_id_num_to_name R self
    /\ (forall name,
           is_Some (prompt_table R self' !! name)
           <-> name ∈ names \/ is_Some (prompt_table R self !! name))
    /\ (forall name prompt,
           prompt_table R self' !! name = Some prompt ->
           (exists d : nat -> nat -> R,
               prompt = PromptEmbedding__init__ R d false
                          (pt_hidden_size R self)
                          (pt_total_soft_tokens R self)
                          [] xavier_normal_ 0%Q)
           \/ prompt_table R self !! name = Some prompt).
Proof.
  intros Hok. revert g self.
  induction Hok as [|n names Hn _ IH]; intros g self.
  - exists self. split; [done|]. split; [done|]. split; [done|].
    split; [done|]. split.
    + intros name. split; [by right|]. intros [H|H]; [|done].
      by apply elem_of_nil in H.
    + intros name prompt H. by right.
  - cbn [fmap list_fmap imap for_each snd fst].
    unfold set_prompt at 1. rewrite Hn. cbn [Py.bind].
    match goal with
    | |- context [for_each _ _ ?s1] =>
        destruct (IH (fun k => g (S k)) s1)
          as (self' & E & Ht & Hh & Hid & Hkeys & Hvals)
    end.
    exists self'. split; [exact E|]. cbn in Ht, Hh, Hid, Hkeys, Hvals.
    split; [done|]. split; [done|]. split; [done|]. split.
    + intros name. rewrite Hkeys. rewrite elem_of_cons.
      destruct (decide (name = n)) as [->|Hne].
      * rewrite lookup_insert_eq. split; [intros _; by left; left|eauto].
      * rewrite lookup_insert_ne by done.
        split; [intros [H|H]; [left; by right|by right]|].
        intros [[H|H]|H]; [done|by left|by right].
    + intros name prompt H. apply Hvals in H as [H|H]; [by left|].
      destruct (decide (name = n)) as [->|Hne].
      * rewrite lookup_insert_eq in H. injection H as <-. left. eauto.
      * rewrite lookup_insert_ne in H by done. by right.
Qed.

End PromptInit.

(** X25: [PromptTable.__init__] on a list of task names that the module
    dictionary takes as keys builds a table whose tasks are the names of
    the list, with no task number, and the prompt of each task is a
    tensor of shape [(total_soft_tokens, hidden_size)]. Without a list,
    with an empty list or with a list that starts with [None] the table
    is empty, whatever follows in the list. *)
Theorem X25_init_builds_tables :
  forall (R : Type) (zero : R) (scale : Q -> R -> R)
         (xavier_normal_ : PromptTable.Tensor R -> nat -> nat -> R)
         (module_name_ok : string -> bool)
         (draw : nat -> nat -> nat -> R) (names : list string)
         (others : list (option string))
         (total_soft_tokens hidden_size : nat),
    Forall (fun name => module_name_ok name = true) names ->
    (exists self,
        PromptTableOps.__init__ R xavier_normal_ module_name_ok draw
          (Some (Some <$> names)) total_soft_tokens hidden_size = Py.Ok self
        /\ PromptTable.task_id_num_to_name R self = []
        /\ (forall name,
               is_Some (PromptTable.prompt_table R self !! name)
               <-> name ∈ names)
        /\ forall name prompt keep,
            PromptTable.prompt_table R self !! name = Some prompt ->
            exists t,
              PromptTable.forward R zero scale prompt keep = Py.Ok t
              /\ PromptTable.has_shape R total_soft_tokens hidden_size t)
    /\ (forall existing_tasks,
           existing_tasks = None \/ existing_tasks = Some []
           \/ existing_tasks = Some (None :: others) ->
           PromptTableOps.__init__ R xavier_normal_ module_name_ok draw
             existing_tasks total_soft_tokens hidden_size
           = Py.Ok {| PromptTable.pt_total_soft_tokens := total_soft_tokens;
                      PromptTable.pt_hidden_size := hidden_size;
                      PromptTable.prompt_table := ∅;
                      PromptTable.task_id_num_to_name := [] |}).
Proof.
  intros R zero scale xavier ok draw names others total hidden Hok. split.
  - unfold PromptTableOps.__init__.
    destruct names as [|n names].
    { eexists. split; [reflexivity|]. cbn. split; [done|]. split.
      - intros name. rewrite lookup_empty. split; [by intros [? ?]|].
        by intros ?%elem_of_nil.
      - intros name prompt keep H. by rewrite lookup_empty in H. }
    change (Some <$> n :: names) with (Some n :: (Some <$> names)).
    change (Some n :: (Some <$> names)) with (Some <$> n :: names) at 2.
    destruct (init_loop xavier ok draw (n :: names) (fun k => k)
                {| PromptTable.pt_total_soft_tokens := total;
                   PromptTable.pt_hidden_size := hidden;
                   PromptTable.prompt_table := ∅;
                   PromptTable.task_id_num_to_name := [] |} Hok)
      as (self & E & Ht & Hh & Hid & Hkeys & Hvals).
    exists self. split; [exact E|]. split; [exact Hid|]. split.
    + intros name. rewrite Hkeys. cbn. rewrite lookup_empty.
      split; [intros [H|[? H]]; done|by left].
    + intros name prompt keep H. apply Hvals in H as [[d ->]|H].
      * exact (forward_random_shape zero scale xavier d hidden total [] keep).
      * cbn in H. by rewrite lookup_empty in H.
  - intros tasks [->|[->| ->]]; reflexivity.
Qed.

Lemma X25_init_builds_tables_witness :
  exists self,
    PromptTableOps.__init__ Z (fun _ _ _ => 0)
      (fun name => negb (bool_decide (name = EmptyString)))
      (fun _ _ _ => 1) (Some (Some <$> ["a"; "b"; "a"]%string)) 2 3
    = Py.Ok self
    /\ PromptTable.task_id_num_to_name Z self = []
    /\ (forall name,
           is_Some (PromptTable.prompt_table Z self !! name)
           <-> name ∈ ["a"; "b"; "a"]%string)
    /\ forall name prompt keep,
        PromptTable.prompt_table Z self !! name = Some prompt ->
        exists t,
          PromptTable.forward Z 0 (fun _ v => v) prompt keep = Py.Ok t
          /\ PromptTable.has_shape Z 2 3 t.
Proof.
  apply (X25_init_builds_tables Z 0 (fun _ v => v) (fun _ _ _ => 0)
           (fun name => negb (bool_decide (name = EmptyString)))
           (fun _ _ _ => 1) ["a"; "b"; "a"]%string [] 2%nat 3%nat).
  repeat constructor.
Defined.
(** ** The loops of [apply_autoregressive_labels] *)

Section ApplyFacts.
Import Py PunctuateApply.
Context {Voting : Type} (empty_voting : string -> Voting).
Context (count_segment :
           string -> nat -> nat -> nat -> Voting -> result Voting).
Context (label_query : string -> nat -> Voting -> result (string * string)).

(** The [while] loop ends without exception only in front of an entry
    that differs from [q_i]. *)
Lemma while_votes_Ok rest query q_i seg cur voting voting' cur' :
  while_votes Voting count_segment rest query q_i seg cur voting
  = Ok (voting', cur') ->
  exists k q,
    cur' = (cur + k)%nat /\ rest !! k = Some q /\ q <> q_i.
Proof.
  revert seg cur voting. induction rest as [|q rest IH];
    intros seg cur voting; cbn; [done|].
  destruct (Nat.eqb_spec q q_i) as [->|Hne].
  - destruct (count_segment _ _ _ _ _) as [v|e]; cbn; [|done].
    intros H. apply IH in H as (k & q & -> & Hk & Hq).
    exists (S k), q. split; [lia|done].
  - intros [= <- <-]. exists 0%nat, q. split; [lia|done].
Qed.

Lemma sorted_lookup_le (l : list nat) (i j x y : nat) :
  StronglySorted le l -> (i <= j)%nat ->
  l !! i = Some x -> l !! j = Some y -> (x <= y)%nat.
Proof.
  intros Hsorted. revert i j.
  induction Hsorted as [|a l _ IH Hall]; intros i j Hij Hi Hj; [done|].
  destruct i as [|i], j as [|j]; cbn in Hi, Hj.
  - assert (x = y) by congruence. lia.
  - injection Hi as <-. rewrite Forall_forall in Hall. apply Hall.
    by apply list_elem_of_lookup_2 in Hj.
  - lia.
  - apply (IH i j); [lia|done|done].
Qed.

(** When every entry from [current_segment_i] on is at least [q_i] and
    below the number of the queries, the loop over the queries that are
    left raises, provided there is one. *)
Lemma for_queries_raises queries q_i cur query_indices processed united :
  queries <> [] ->
  StronglySorted le query_indices ->
  Forall (fun q => q_i <= q < q_i + length queries)%nat
         (drop cur query_indices) ->
  exists e,
    for_queries Voting empty_voting count_segment label_query queries q_i cur
      query_indices processed united = Raise e.
Proof.
  intros Hne Hsorted. revert q_i cur processed united Hne.
  induction queries as [|query queries IH];
    intros q_i cur processed united Hne Hrange; [done|].
  cbn [for_queries]. unfold get_label_votes.
  destruct (while_votes _ _ _ _ _ _ _ _) as [[voting cur']|e] eqn:E;
    cbn; [|eauto].
  apply while_votes_Ok in E as (k & q & -> & Hk & Hq).
  destruct (label_query _ _ _) as [labelled|e]; cbn; [|eauto].
  rewrite lookup_drop in Hk.
  assert (q_i < q)%nat as Hlt.
  { rewrite Forall_forall in Hrange.
    assert (q ∈ drop cur query_indices) as Hin.
    { apply list_elem_of_lookup. exists k. by rewrite lookup_drop. }
    specialize (Hrange q Hin). lia. }
  apply IH.
  - intros ->. rewrite Forall_forall in Hrange.
    assert (q ∈ drop cur query_indices) as Hin.
    { apply list_elem_of_lookup. exists k. by rewrite lookup_drop. }
    specialize (Hrange q Hin). cbn in Hrange. lia.
  - apply Forall_forall. intros q' Hq'.
    apply list_elem_of_lookup in Hq' as (j & Hj). rewrite lookup_drop in Hj.
    assert (q <= q')%nat as Hle.
    { apply (sorted_lookup_le query_indices (cur + k) (cur + k + j));
        [done|lia|done|done]. }
    rewrite Forall_forall in Hrange.
    assert (q' ∈ drop cur query_indices) as Hin.
    { apply list_elem_of_lookup. exists (k + j)%nat.
      rewrite lookup_drop, <- Hj. f_equal. lia. }
    specialize (Hrange q' Hin). cbn in Hrange. lia.
Qed.

End ApplyFacts.

(** X26: [apply_autoregressive_labels] never returns on one query or
    more, when the query indices never decrease and are below the number
    of the queries: for the last query the loop of [get_label_votes] finds
    no entry that differs from its number, and reads past the end of
    [query_indices] unless an exception comes first. The indices
    [split_into_segments] returns for a list of texts that is not longer
    than the list of the queries are of this kind. *)
Theorem X26_apply_autoregressive_labels_raises :
  forall (Voting : Type) (empty_voting : string -> Voting)
         (count_segment :
            string -> nat -> nat -> nat -> Voting -> Py.result Voting)
         (label_query :
            string -> nat -> Voting -> Py.result (string * string))
         (queries : list string),
    queries <> [] ->
    (forall query_indices,
        StronglySorted le query_indices ->
        Forall (fun q => q < length queries)%nat query_indices ->
        exists e,
          PunctuateApply.apply_autoregressive_labels Voting empty_voting
            count_segment label_query queries query_indices = Py.Raise e)
    /\ (forall (texts : list string) (max_seq_length step : nat),
           (0 < step)%nat ->
           (length texts <= length queries)%nat ->
           exists segments query_indices start_word_i e,
             Punctuate.split_into_segments texts max_seq_length
               step = Some (segments, query_indices, start_word_i)
             /\ PunctuateApply.apply_autoregressive_labels Voting empty_voting
                  count_segment label_query queries query_indices
                = Py.Raise e).
Proof.
  intros Voting empty count label queries Hne.
  assert (forall query_indices,
             StronglySorted le query_indices ->
             Forall (fun q => q < length queries)%nat query_indices ->
             exists e,
               PunctuateApply.apply_autoregressive_labels Voting empty
                 count label queries query_indices = Py.Raise e) as H.
  { intros qis Hsorted Hrange.
    apply for_queries_raises; [done|done|].
    rewrite drop_0. eapply Forall_impl; [exact Hrange|].
    intros q Hq. cbn in *. lia. }
  split; [exact H|].
  intros texts msl step Hstep Hlen.
  destruct (for_queries_exact texts 0 msl step
              {| Punctuate.segments := []; Punctuate.query_indices := [];
                 Punctuate.start_word_i := []; Punctuate.segment_start := 0 |}
              Hstep)
    as (m & segs & qis & E & _ & _ & Hsorted & Hrange & _).
  destruct (H qis Hsorted) as [e He].
  { eapply Forall_impl; [exact Hrange|]. intros q Hq. cbn in Hq. lia. }
  unfold Punctuate.split_into_segments. rewrite E. cbn.
  eexists _, _, _, e. split; [reflexivity|exact He].
Qed.

Lemma X26_apply_autoregressive_labels_raises_witness :
  exists e,
    PunctuateApply.apply_autoregressive_labels nat (fun _ => 0%nat)
      (fun _ _ _ _ v => Py.Ok (S v)) (fun q _ _ => Py.Ok (q, q))
      ["a b c"; "d e f g h"]%string [0; 1; 1]%nat = Py.Raise e.
Proof.
  apply (proj1 (X26_apply_autoregressive_labels_raises nat (fun _ => 0%nat)
                  (fun _ _ _ _ v => Py.Ok (S v)) (fun q _ _ => Py.Ok (q, q))
                  ["a b c"; "d e f g h"]%string ltac:(discriminate))).
  - repeat constructor.
  - repeat constructor.
Defined.
(** ** [adjust_predicted_labels_length] *)

Section AdjustFacts.
Import Py PunctuateAdjust.
Context (c0 : ascii) (others : list ascii).

Local Notation "'is_label'" := (is_label c0 others).
Local Notation "'num_labels'" := (num_labels c0 others).
Local Notation "'while_trim'" := (while_trim c0 others).

Lemma getchar_middle (l1 l2 : list ascii) (x : ascii) :
  getchar (l1 ++ x :: l2) (Z.of_nat (length l1)) = Ok x.
Proof.
  unfold getchar. cbv zeta.
  destruct (Z.ltb_spec (Z.of_nat (length l1)) 0); [lia|].
  destruct (Z.ltb_spec (Z.of_nat (length l1)) 0); [lia|].
  rewrite Nat2Z.id.
  by rewrite (list_lookup_middle l1 l2 x (length l1) eq_refl).
Qed.

Lemma getchar_Ok (s : list ascii) (pos : Z) (c : ascii) :
  getchar s pos = Ok c -> - Z.of_nat (length s) <= pos.
Proof.
  unfold getchar. cbv zeta. destruct (Z.ltb_spec pos 0); [|lia].
  destruct (Z.ltb_spec (pos + Z.of_nat (length s)) 0); [done|lia].
Qed.

Lemma num_labels_snoc (s : list ascii) (x : ascii) :
  num_labels (s ++ [x])
  = (num_labels s + if is_label x then 1 else 0)%nat.
Proof.
  unfold PunctuateAdjust.num_labels.
  rewrite filter_app, length_app, filter_cons, filter_nil.
  destruct (decide (is_label x = true)) as [->|Hx]; [done|].
  by destruct (is_label x).
Qed.

(** The loop scans the labels from the end and stops in front of the
    label that brings the count down to [num_words]. *)
Lemma while_trim_scan (suf : list ascii) :
  forall (fuel : nat) (pre back : list ascii) (c : ascii) (i num_words : nat),
    is_label c = true ->
    (num_words < i)%nat ->
    num_labels suf = (i - num_words - 1)%nat ->
    (length suf < fuel)%nat ->
    while_trim fuel (pre ++ c :: suf ++ back) num_words i
      (Z.of_nat (length (pre ++ c :: suf)) - 1)
    = Some (Ok (Z.of_nat (length pre) - 1)).
Proof.
  induction suf as [|x suf IH] using rev_ind;
    intros fuel pre back c i nw Hc Hi Hn Hfuel.
  - destruct fuel as [|fuel]; [cbn in Hfuel; lia|].
    cbn [PunctuateAdjust.while_trim app].
    destruct (Nat.ltb_spec nw i); [|lia].
    replace (Z.of_nat (length (pre ++ [c])) - 1) with (Z.of_nat (length pre))
      by (rewrite length_app; cbn; lia).
    rewrite getchar_middle, Hc.
    cbn in Hn. replace (i - 1)%nat with nw by lia.
    destruct fuel; cbn [PunctuateAdjust.while_trim];
      by rewrite Nat.ltb_irrefl.
  - destruct fuel as [|fuel]; [lia|].
    rewrite length_app in Hfuel. cbn in Hfuel.
    cbn [PunctuateAdjust.while_trim].
    destruct (Nat.ltb_spec nw i); [|lia].
    replace (pre ++ c :: (suf ++ [x]) ++ back)
      with ((pre ++ c :: suf) ++ x :: back)
      by (by rewrite <- !app_assoc).
    replace (Z.of_nat (length (pre ++ c :: suf ++ [x])) - 1)
      with (Z.of_nat (length (pre ++ c :: suf)))
      by (rewrite !length_app; cbn; rewrite length_app; cbn; lia).
    rewrite getchar_middle.
    rewrite num_labels_snoc in Hn.
    replace ((pre ++ c :: suf) ++ x :: back)
      with (pre ++ c :: suf ++ (x :: back))
      by (by rewrite <- !app_assoc).
    destruct (is_label x).
    + apply IH; [done|lia|lia|lia].
    + apply IH; [done|lia|lia|lia].
Qed.

(** The loop ends: every turn moves [pos] down, and [labels[pos]] raises
    [IndexError] below [-len(labels)]. *)
Lemma while_trim_ends (labels : list ascii) (num_words : nat) :
  forall (fuel i : nat) (pos : Z),
    - Z.of_nat (length labels) - 1 <= pos ->
    pos + Z.of_nat (length labels) + 1 < Z.of_nat fuel ->
    exists r, while_trim fuel labels num_words i pos = Some r.
Proof.
  induction fuel as [|fuel IH]; intros i pos Hlow Hfuel; [lia|].
  cbn [PunctuateAdjust.while_trim].
  destruct (num_words <? i)%nat; [|eauto].
  destruct (getchar labels pos) as [c|e] eqn:E; [|eauto].
  apply getchar_Ok in E. apply IH; lia.
Qed.

End AdjustFacts.


(** ** More on EncDecDiarLabelModel *)

(** X28: what [forward] returns depends on the processed signal through
    its first 3000 frames only, and on the processed lengths through
    their number only: two inputs whose processed signals agree on these
    frames, with as many lengths, give the same predictions. *)
Theorem X28_forward_reads_3000_frames :
  forall (R Audio Ivectors Preds : Type)
         (preprocessor : Audio -> list Z -> EncDecDiarLabelModel.Signal R * list Z)
         (tsvad : EncDecDiarLabelModel.Signal R -> list Z -> Ivectors -> Preds)
         (input_signal input_signal' : Audio)
         (input_signal_length input_signal_length' : list Z)
         (ivectors : Ivectors),
    let pre := preprocessor input_signal input_signal_length in
    let pre' := preprocessor input_signal' input_signal_length' in
    map (map (take 3000)) (fst pre) = map (map (take 3000)) (fst pre') ->
    length (snd pre) = length (snd pre') ->
    EncDecDiarLabelModel.forward R Audio Ivectors Preds preprocessor tsvad
      input_signal input_signal_length ivectors
    = EncDecDiarLabelModel.forward R Audio Ivectors Preds preprocessor tsvad
        input_signal' input_signal_length' ivectors.
Proof.
  intros R Audio Ivectors Preds preprocessor tsvad sig sig' len len' iv
         pre pre' Hsig Hlen.
  unfold EncDecDiarLabelModel.forward, EncDecDiarLabelModel.tsvad_inputs.
  fold pre pre'. destruct pre as [ps pl], pre' as [ps' pl'].
  cbn [fst snd] in *.
  unfold EncDecDiarLabelModel.slice_time. rewrite Hsig. f_equal.
  unfold EncDecDiarLabelModel.scalar_mul, EncDecDiarLabelModel.ones_like.
  rewrite !map_map. clear Hsig. revert pl' Hlen.
  induction pl as [|x pl IH]; intros [|x' pl'] Hlen; try done.
  cbn. f_equal. apply IH. by injection Hlen.
Qed.

Lemma X28_forward_reads_3000_frames_witness :
  EncDecDiarLabelModel.forward Z (list Z) unit (list (list (list Z)) * list Z)
    (fun audio lengths => ([[audio]], lengths)) (fun s l _ => (s, l))
    (replicate 3000 1 ++ [2]) [3001] tt
  = EncDecDiarLabelModel.forward Z (list Z) unit
      (list (list (list Z)) * list Z)
      (fun audio lengths => ([[audio]], lengths)) (fun s l _ => (s, l))
      (replicate 3000 1 ++ [5; 6]) [3002] tt.
Proof.
  apply (X28_forward_reads_3000_frames Z (list Z) unit
           (list (list (list Z)) * list Z)
           (fun audio lengths => ([[audio]], lengths)) (fun s l _ => (s, l))
           (replicate 3000 1 ++ [2]) (replicate 3000 1 ++ [5; 6])
           [3001] [3002] tt).
  - cbn [fst map]. by rewrite !take_app_length' by (by rewrite length_replicate).
  - reflexivity.
Defined.
